(** * Clock discipline core and NTP-over-SCION client of scion-time

    A shallow embedding of [core/sync/sync.go] and [go/driver/ntp/scion.go].
    Durations and wall-clock times are integers (nanoseconds), [float64]
    values are IEEE-754 binary64 numbers in the sense of [SpecFloat], Go
    slices are optional lists ([None] is the nil slice), panics and errors
    are explicit results, and calls into collaborators outside the two files
    (local clock, estimators, sockets, packet parsers) are section variables
    or fields of an oracle record, with the calls recorded as events. *)

From Stdlib Require Import ZArith List Lia Bool String QArith Qround.
From Stdlib Require Import Floats.SpecFloat.
Import ListNotations.
Open Scope Z_scope.

(** ** Go's float64 *)

Module Float64.
Definition prec : Z := 53.
Definition emax : Z := 1024.
Definition t := spec_float.

(** [float64(z)] for an integer [z]: round to nearest, ties to even. *)
Definition of_int (z : Z) : t := binary_normalize prec emax z 0 false.
Definition mul : t -> t -> t := SFmul prec emax.
Definition div : t -> t -> t := SFdiv prec emax.
Definition sub : t -> t -> t := SFsub prec emax.
Definition abs : t -> t := SFabs.
Definition zero : t := S754_zero false.

(** Go's [x > y] and [x <= y]; both are false when an operand is NaN. *)
Definition gtb (x y : t) : bool := SFltb y x.
Definition leb (x y : t) : bool := SFleb x y.

(** Go's [int64(x)] (and [time.Duration(x)]): the fraction is discarded.
    For a value that does not fit the Go specification leaves the result to
    the implementation; amd64 yields the minimum int64. *)
Definition to_int (x : t) : Z :=
  match x with
  | S754_zero _ => 0
  | S754_finite s m e =>
      let a := match e with
               | Zneg p => Zpos m / 2 ^ Zpos p
               | _ => Zpos m * 2 ^ e
               end in
      let v := if s then - a else a in
      if (- 2 ^ 63 <=? v) && (v <? 2 ^ 63) then v else - 2 ^ 63
  | _ => - 2 ^ 63
  end.

(** The constant [5 / 2^j]: 1.25 for [j = 2] and 2.5 for [j = 1]. *)
Definition five_over_pow2 (j : Z) : t :=
  S754_finite false 5629499534213120 (- 50 - j).

(** The rational a finite float denotes (0 for infinities and NaN). *)
Definition to_Q (x : t) : Q :=
  match x with
  | S754_finite s m e =>
      ((if s then -1 else 1) * inject_Z (Zpos m) * Qpower 2 e)%Q
  | _ => 0%Q
  end.

Lemma digits2_size p : digits2_pos p = Pos.size p.
Proof. induction p; simpl; congruence. Qed.

Lemma Zdigits2_log2 p : Zpos (digits2_pos p) = Z.log2 (Zpos p) + 1.
Proof.
  rewrite digits2_size. destruct p; simpl; try lia.
Qed.

Lemma iter_pos_nat {A} (f : A -> A) n x :
  iter_pos f n x = Nat.iter (Pos.to_nat n) f x.
Proof.
  revert x. induction n as [n IH|n IH|]; intros x; cbn [iter_pos].
  - rewrite !IH. rewrite Pos2Nat.inj_xI. 
    replace (2 * Pos.to_nat n)%nat with (Pos.to_nat n + Pos.to_nat n)%nat by lia.
    rewrite <- Nat.iter_succ_r. rewrite <- Nat.iter_add. f_equal. lia.
  - rewrite !IH. rewrite Pos2Nat.inj_xO.
    replace (2 * Pos.to_nat n)%nat with (Pos.to_nat n + Pos.to_nat n)%nat by lia.
    now rewrite Nat.iter_add.
  - reflexivity.
Qed.

Lemma shr_1_double m :
  shr_1 (Build_shr_record (Zpos (xO m)) false false) = Build_shr_record (Zpos m) false false.
Proof. reflexivity. Qed.

Lemma iter_shr_exact k : forall (M m : positive),
  Zpos M = Zpos m * 2 ^ Z.of_nat k ->
  Nat.iter k shr_1 (Build_shr_record (Zpos M) false false)
  = Build_shr_record (Zpos m) false false.
Proof.
  induction k as [|k IH]; intros M m HM.
  - simpl in *. f_equal. lia.
  - rewrite Nat.iter_succ_r.
    rewrite Nat2Z.inj_succ, Z.pow_succ_r in HM by lia.
    destruct M as [M|M|]; try lia.
    rewrite shr_1_double. apply IH. lia.
Qed.

Lemma shr_exact s (M m : positive) e n :
  0 <= n -> Zpos M = Zpos m * 2 ^ n -> Z.log2 (Zpos m) = 52 ->
  -1074 <= e + n <= 971 ->
  binary_round_aux prec emax s (Zpos M) e loc_Exact = S754_finite s m (e + n).
Proof.
  intros Hn HM Hm He.
  assert (HlM : Z.log2 (Zpos M) = 52 + n).
  { rewrite HM, Z.log2_mul_pow2 by lia. lia. }
  unfold binary_round_aux, shr_fexp. simpl Zdigits2. simpl shr_record_of_loc.
  rewrite Zdigits2_log2, HlM.
  unfold fexp, emin, prec, emax.
  replace (Z.max (52 + n + 1 + e - 53) (3 - 1024 - 53) - e) with n by lia.
  assert (Hshr : shr (Build_shr_record (Zpos M) false false) e n
                 = (Build_shr_record (Zpos m) false false, e + n)).
  { unfold shr. destruct n as [|p|p]; try lia.
    - f_equal; [f_equal|]; lia.
    - rewrite iter_pos_nat. f_equal.
      apply iter_shr_exact. rewrite positive_nat_Z. exact HM. }
  rewrite Hshr. simpl shr_m. simpl loc_of_shr_record. simpl round_nearest_even.
  simpl Zdigits2. rewrite Zdigits2_log2, Hm.
  replace (Z.max (52 + 1 + (e + n) - 53) (3 - 1024 - 53) - (e + n)) with 0 by lia.
  cbn [shr shr_m].
  destruct (Z.leb_spec (e + n) (1024 - 53)); [reflexivity | lia].
Qed.

Lemma pos_iter_xO (p d : positive) :
  Zpos (Pos.iter xO p d) = Zpos p * 2 ^ Zpos d.
Proof.
  rewrite (Pos.iter_swap_gen _ _ Zpos xO (Z.mul 2)) by reflexivity.
  change (Pos.iter (Z.mul 2) (Zpos p) d) with (Z.shiftl (Zpos p) (Zpos d)).
  apply Z.shiftl_mul_pow2. lia.
Qed.

Lemma binary_round_exact s p e :
  Z.log2 (Zpos p) <= 52 ->
  -1074 <= e + Z.log2 (Zpos p) - 52 <= 971 ->
  exists m, binary_round prec emax s p e = S754_finite s m (e + Z.log2 (Zpos p) - 52)
            /\ Zpos m = Zpos p * 2 ^ (52 - Z.log2 (Zpos p)).
Proof.
  intros Hl He. set (l := Z.log2 (Zpos p)) in *.
  unfold binary_round. rewrite Zdigits2_log2. fold l.
  unfold fexp, emin, prec, emax.
  replace (Z.max (l + 1 + e - 53) (3 - 1024 - 53)) with (e + l - 52) by lia.
  unfold shl_align.
  destruct (e + l - 52 - e) as [|d|d] eqn:Hd; try lia.
  - exists p. assert (l = 52) by lia. split.
    + replace (e + l - 52) with (e + 0) by lia.
      apply shr_exact; fold l; lia.
    + replace (52 - l) with 0 by lia. lia.
  - exists (Pos.iter xO p d). 
    assert (HM : Zpos (Pos.iter xO p d) = Zpos p * 2 ^ (52 - l)).
    { rewrite pos_iter_xO. f_equal. f_equal. lia. }
    split; [|exact HM].
    replace (e + l - 52) with (e + l - 52 + 0) at 2 by lia.
    apply shr_exact; try lia.
    rewrite HM, Z.log2_mul_pow2 by lia. fold l. lia.
Qed.

Lemma of_int_exact z :
  0 < Z.abs z < 2 ^ 53 ->
  exists m, of_int z = S754_finite (z <? 0) m (Z.log2 (Z.abs z) - 52)
            /\ Zpos m = Z.abs z * 2 ^ (52 - Z.log2 (Z.abs z)).
Proof.
  intros Hz.
  assert (Hl : Z.log2 (Z.abs z) <= 52).
  { assert (Z.log2 (Z.abs z) < 53); [apply Z.log2_lt_pow2|]; lia. }
  assert (0 <= Z.log2 (Z.abs z)) by apply Z.log2_nonneg.
  destruct z as [|p|p]; simpl in Hz; try lia; simpl Z.abs in *;
    unfold of_int, binary_normalize.
  - destruct (binary_round_exact false p 0) as (m & E & Hm); try lia.
    exists m. split; [|exact Hm]. rewrite E. reflexivity.
  - destruct (binary_round_exact true p 0) as (m & E & Hm); try lia.
    exists m. split; [|exact Hm]. rewrite E. reflexivity.
Qed.

Lemma mul_exact sx mx ex sy my ey (m : positive) n :
  0 <= n -> Zpos mx * Zpos my = Zpos m * 2 ^ n -> Z.log2 (Zpos m) = 52 ->
  -1074 <= ex + ey + n <= 971 ->
  mul (S754_finite sx mx ex) (S754_finite sy my ey)
  = S754_finite (xorb sx sy) m (ex + ey + n).
Proof.
  intros Hn HM Hm He. unfold mul, SFmul.
  apply shr_exact; assumption.
Qed.

(** Integers of 54 bits or more are rounded; the result keeps a positive
    exponent (or overflows to infinity). *)
Lemma shr_1_m r : 0 <= shr_m r -> shr_m (shr_1 r) = shr_m r / 2.
Proof.
  destruct r as [m rb sb]. cbn [shr_m]. intros Hm.
  destruct m as [|[p|p|]|p]; cbn [shr_1 shr_m]; try lia; try reflexivity.
  - apply Z.div_unique with 1; lia.
  - apply Z.div_unique with 0; lia.
Qed.

Lemma iter_shr_m k : forall r, 0 <= shr_m r ->
  shr_m (Nat.iter k shr_1 r) = shr_m r / 2 ^ Z.of_nat k.
Proof.
  induction k as [|k IH]; intros r Hr.
  - simpl. now rewrite Z.div_1_r.
  - rewrite Nat.iter_succ, shr_1_m.
    + rewrite IH by assumption. rewrite Nat2Z.inj_succ, Z.pow_succ_r by lia.
      rewrite Z.div_div by lia. f_equal. lia.
    + rewrite IH by assumption. apply Z.div_pos; lia.
Qed.

Lemma round_nearest_even_bounds m l :
  m <= round_nearest_even m l <= m + 1.
Proof.
  destruct l as [|[| |]]; cbn [round_nearest_even]; try lia.
  destruct (Z.even m); lia.
Qed.

Lemma of_int_big p :
  53 <= Z.log2 (Zpos p) ->
  match of_int (Zpos p) with
  | S754_finite false _ e => 1 <= e
  | S754_infinity false => True
  | _ => False
  end.
Proof.
  intros Hl. set (l := Z.log2 (Zpos p)) in *.
  destruct (Z.log2_spec (Zpos p)) as [Hlo Hhi]; [lia|]. fold l in Hlo, Hhi.
  unfold of_int, binary_normalize, binary_round.
  rewrite Zdigits2_log2. fold l. unfold fexp, emin, prec, emax.
  replace (Z.max (l + 1 + 0 - 53) (3 - 1024 - 53)) with (l - 52) by lia.
  unfold shl_align.
  destruct (l - 52 - 0) as [|d|d] eqn:Hd; try lia.
  unfold binary_round_aux, shr_fexp. cbn [Zdigits2 shr_record_of_loc].
  rewrite Zdigits2_log2. fold l. unfold fexp, emin, prec, emax.
  replace (Z.max (l + 1 + 0 - 53) (3 - 1024 - 53) - 0) with (Zpos d) by lia.
  cbn [shr]. rewrite iter_pos_nat.
  set (r1 := Nat.iter (Pos.to_nat d) shr_1 _).
  assert (Hq : shr_m r1 = Zpos p / 2 ^ Zpos d).
  { unfold r1. rewrite iter_shr_m by (cbn; lia). now rewrite positive_nat_Z. }
  assert (Hqb : 2 ^ 52 <= shr_m r1 < 2 ^ 53).
  { rewrite Hq. replace l with (52 + Zpos d) in Hlo by lia.
    replace (Z.succ l) with (53 + Zpos d) in Hhi by lia.
    rewrite Z.pow_add_r in Hlo, Hhi by lia.
    assert (0 < 2 ^ Zpos d) by (apply Z.pow_pos_nonneg; lia).
    split.
    - apply Z.div_le_lower_bound; lia.
    - apply Z.div_lt_upper_bound; lia. }
  pose proof (round_nearest_even_bounds (shr_m r1) (loc_of_shr_record r1)) as Hr.
  destruct (round_nearest_even (shr_m r1) (loc_of_shr_record r1)) as [|q|q];
    try lia.
  cbn [Zdigits2]. rewrite Zdigits2_log2.
  assert (Hlq : Z.log2 (Zpos q) = 52 \/ (Zpos q = 2 ^ 53 /\ Z.log2 (Zpos q) = 53)).
  { destruct (Z.eq_dec (Zpos q) (2 ^ 53)) as [E|NE].
    - right. split; [exact E|]. rewrite E. apply Z.log2_pow2. lia.
    - left. apply Z.log2_unique; lia. }
  destruct Hlq as [Hlq|[Hq53 Hlq]]; rewrite Hlq.
  - replace (Z.max (52 + 1 + (0 + Zpos d) - 53) (3 - 1024 - 53) - (0 + Zpos d))
      with 0 by lia.
    cbn [shr shr_m].
    destruct (0 + Zpos d <=? 1024 - 53); [lia | exact I].
  - replace (Z.max (53 + 1 + (0 + Zpos d) - 53) (3 - 1024 - 53) - (0 + Zpos d))
      with 1 by lia.
    cbn [shr iter_pos].
    assert (Hh : shr_m (shr_1 {| shr_m := Zpos q; shr_r := false; shr_s := false |})
                 = 2 ^ 52).
    { rewrite shr_1_m by (cbn; lia). cbn [shr_m]. rewrite Hq53. reflexivity. }
    rewrite Hh. change (2 ^ 52) with (Zpos (2 ^ 52)%positive).
    cbv iota.
    destruct (0 + Zpos d + 1 <=? 1024 - 53); [lia | exact I].
Qed.

Lemma log2_52_bounds (m : positive) :
  Z.log2 (Zpos m) = 52 -> 2 ^ 52 <= Zpos m < 2 ^ 53.
Proof.
  intros H. destruct (Z.log2_spec (Zpos m)) as [Hlo Hhi]; [lia|].
  rewrite H in Hlo, Hhi. exact (conj Hlo Hhi).
Qed.

Lemma ltb_normal m1 e1 m2 e2 :
  Z.log2 (Zpos m1) = 52 -> Z.log2 (Zpos m2) = 52 ->
  -1074 <= e1 -> -1074 <= e2 ->
  SFltb (S754_finite false m1 e1) (S754_finite false m2 e2)
  = (Zpos m1 * 2 ^ (e1 + 1074) <? Zpos m2 * 2 ^ (e2 + 1074)).
Proof.
  intros H1 H2 He1 He2.
  apply log2_52_bounds in H1, H2.
  assert (HA : forall e, -1074 <= e -> 0 < 2 ^ (e + 1074))
    by (intros; apply Z.pow_pos_nonneg; lia).
  assert (Hstep : forall (a b : positive) ea eb,
            2 ^ 52 <= Zpos a < 2 ^ 53 -> 2 ^ 52 <= Zpos b < 2 ^ 53 ->
            -1074 <= ea -> ea < eb ->
            Zpos a * 2 ^ (ea + 1074) < Zpos b * 2 ^ (eb + 1074)).
  { intros a b ea eb Ha Hb Hea Hlt.
    replace (eb + 1074) with (ea + 1074 + 1 + (eb - ea - 1)) by lia.
    rewrite (Z.pow_add_r 2 (ea + 1074 + 1) (eb - ea - 1)) by lia.
    rewrite (Z.pow_add_r 2 (ea + 1074) 1) by lia.
    pose proof (HA ea Hea) as HAa.
    assert (0 < 2 ^ (eb - ea - 1)) by (apply Z.pow_pos_nonneg; lia).
    change (2 ^ 1) with 2.
    set (A := 2 ^ (ea + 1074)) in *. set (C := 2 ^ (eb - ea - 1)) in *.
    assert (S1 : Zpos a * A < 2 ^ 53 * A) by (apply Z.mul_lt_mono_pos_r; lia).
    assert (S2 : 2 ^ 52 * (A * 2) <= Zpos b * (A * 2))
      by (apply Z.mul_le_mono_nonneg_r; lia).
    assert (S3 : Zpos b * (A * 2) * 1 <= Zpos b * (A * 2) * C)
      by (apply Z.mul_le_mono_nonneg_l; lia).
    lia. }
  unfold SFltb, SFcompare.
  destruct (Z.compare_spec e1 e2) as [E|L|G].
  - subst e2. fold (Pos.compare m1 m2).
    pose proof (HA e1 He1) as HA1.
    destruct (Pos.compare_spec m1 m2) as [E|L|G]; symmetry.
    + subst m2. apply Z.ltb_irrefl.
    + apply Z.ltb_lt. apply Z.mul_lt_mono_pos_r; lia.
    + apply Z.ltb_ge. apply Z.mul_le_mono_nonneg_r; lia.
  - symmetry. apply Z.ltb_lt. apply Hstep; assumption.
  - symmetry. apply Z.ltb_ge. apply Z.lt_le_incl. apply Hstep; assumption.
Qed.

Lemma to_int_finite s m e :
  e <= 0 -> Zpos m < 2 ^ 63 ->
  to_int (S754_finite s m e) = (if s then -1 else 1) * (Zpos m / 2 ^ (- e)).
Proof.
  intros He Hm. unfold to_int.
  assert (Ha : match e with
               | Zneg p => Zpos m / 2 ^ Zpos p
               | _ => Zpos m * 2 ^ e
               end = Zpos m / 2 ^ (- e)).
  { destruct e as [|p|p]; try lia.
    - change (- 0) with 0. change (2 ^ 0) with 1.
      rewrite Z.div_1_r, Z.mul_1_r. reflexivity.
    - reflexivity. }
  rewrite Ha.
  assert (0 < 2 ^ (- e)) by (apply Z.pow_pos_nonneg; lia).
  assert (0 <= Zpos m / 2 ^ (- e) <= Zpos m).
  { split; [apply Z.div_pos; lia|].
    apply Z.div_le_upper_bound; [lia|].
    rewrite <- (Z.mul_1_l (Zpos m)) at 1.
    apply Z.mul_le_mono_nonneg_r; lia. }
  destruct s.
  - destruct (Z.leb_spec (- 2 ^ 63) (- (Zpos m / 2 ^ (- e))));
      destruct (Z.ltb_spec (- (Zpos m / 2 ^ (- e))) (2 ^ 63)); cbn [andb]; lia.
  - destruct (Z.leb_spec (- 2 ^ 63) (Zpos m / 2 ^ (- e)));
      destruct (Z.ltb_spec (Zpos m / 2 ^ (- e)) (2 ^ 63)); cbn [andb]; lia.
Qed.

Lemma mul_five_over_pow2_signed j d :
  1 <= j <= 2 -> 0 < Z.abs d -> 5 * Z.abs d < 2 ^ 53 ->
  exists m, mul (five_over_pow2 j) (of_int d)
            = S754_finite (d <? 0) m (Z.log2 (5 * Z.abs d) - 52 - j)
            /\ Zpos m = 5 * Z.abs d * 2 ^ (52 - Z.log2 (5 * Z.abs d))
            /\ Z.log2 (Zpos m) = 52.
Proof.
  intros Hj Hd H5.
  assert (Hl5 : Z.log2 (5 * Z.abs d) <= 52).
  { assert (Z.log2 (5 * Z.abs d) < 53); [apply Z.log2_lt_pow2|]; lia. }
  assert (Hld : Z.log2 (Z.abs d) <= Z.log2 (5 * Z.abs d))
    by (apply Z.log2_le_mono; lia).
  pose proof (Z.log2_nonneg (Z.abs d)) as Hd0.
  destruct (of_int_exact d) as (md & E & Hmd); [lia|].
  set (a := Z.abs d) in *.
  set (l5 := Z.log2 (5 * a)) in *. set (ld := Z.log2 a) in *.
  assert (Hpos : 0 < 5 * a * 2 ^ (52 - l5)).
  { apply Z.mul_pos_pos; [lia|]. apply Z.pow_pos_nonneg; lia. }
  destruct (5 * a * 2 ^ (52 - l5)) as [|m|m] eqn:Em; try lia.
  assert (Hlm : Z.log2 (Zpos m) = 52).
  { rewrite <- Em. rewrite Z.log2_mul_pow2 by lia. fold l5. lia. }
  exists m. split; [|split; [reflexivity | exact Hlm]].
  rewrite E. unfold five_over_pow2.
  replace (l5 - 52 - j) with (- 50 - j + (ld - 52) + (50 + l5 - ld)) by lia.
  apply (mul_exact false _ _ (d <? 0)); try lia.
  rewrite Hmd, <- Em.
  change (Zpos 5629499534213120) with (5 * 2 ^ 50).
  assert (Hp : 2 ^ 50 * 2 ^ (52 - ld) = 2 ^ (52 - l5) * 2 ^ (50 + l5 - ld)).
  { rewrite <- !Z.pow_add_r by lia. f_equal. lia. }
  set (A := 2 ^ 50) in *. set (B := 2 ^ (52 - ld)) in *.
  set (C := 2 ^ (52 - l5)) in *. set (D := 2 ^ (50 + l5 - ld)) in *.
  transitivity (5 * a * (A * B)); [ring|]. rewrite Hp. ring.
Qed.

Lemma mul_five_over_pow2 j d :
  1 <= j <= 2 -> 0 < d -> 5 * d < 2 ^ 53 ->
  exists m, mul (five_over_pow2 j) (of_int d)
            = S754_finite false m (Z.log2 (5 * d) - 52 - j)
            /\ Zpos m = 5 * d * 2 ^ (52 - Z.log2 (5 * d))
            /\ Z.log2 (Zpos m) = 52.
Proof.
  intros Hj Hd H5.
  destruct (mul_five_over_pow2_signed j d Hj) as (m & E & Hm & Hl);
    rewrite ?Z.abs_eq by lia; try lia.
  rewrite Z.abs_eq in E, Hm by lia.
  replace (d <? 0) with false in E by (symmetry; apply Z.ltb_ge; lia).
  exists m. auto.
Qed.

(** The start-up check [maxCorr <= 0] on the ceiling [5/2^j * float64(d)]. *)
Lemma leb_mul_five_zero j d :
  1 <= j <= 2 -> 5 * Z.abs d < 2 ^ 53 ->
  leb (mul (five_over_pow2 j) (of_int d)) zero = (d <=? 0).
Proof.
  intros Hj H5.
  destruct (Z.eq_dec d 0) as [->|Hne].
  - reflexivity.
  - destruct (mul_five_over_pow2_signed j d Hj) as (m & E & _); try lia.
    rewrite E. unfold leb, SFleb, SFcompare, zero.
    destruct (Z.ltb_spec d 0); destruct (Z.leb_spec d 0); try reflexivity; lia.
Qed.

(** Comparing [float64(a)] with the ceiling [5/2^j * float64(d)]. *)
Lemma gtb_of_int_five j d a :
  1 <= j <= 2 -> 0 < d -> 5 * d < 2 ^ 53 -> 0 < a ->
  gtb (of_int a) (mul (five_over_pow2 j) (of_int d)) = (5 * d <? a * 2 ^ j).
Proof.
  intros Hj Hd H5 Ha.
  destruct (mul_five_over_pow2 j d Hj Hd H5) as (m & E & Hm & Hlm).
  rewrite E. unfold gtb.
  assert (Hl5 : 0 <= Z.log2 (5 * d) <= 52).
  { split; [apply Z.log2_nonneg|].
    assert (Z.log2 (5 * d) < 53); [apply Z.log2_lt_pow2|]; lia. }
  set (l5 := Z.log2 (5 * d)) in *.
  assert (Hj2 : 2 <= 2 ^ j <= 4).
  { assert (j = 1 \/ j = 2) as [->| ->] by lia; cbn; lia. }
  destruct (Z_lt_le_dec a (2 ^ 53)) as [Hsmall|Hbig].
  - destruct (of_int_exact a) as (ma & Ea & Hma); [lia|].
    rewrite Z.abs_eq in Ea, Hma by lia.
    replace (a <? 0) with false in Ea by (symmetry; apply Z.ltb_ge; lia).
    assert (Hla : 0 <= Z.log2 a <= 52).
    { split; [apply Z.log2_nonneg|].
      assert (Z.log2 a < 53); [apply Z.log2_lt_pow2|]; lia. }
    set (la := Z.log2 a) in *.
    assert (Hlma : Z.log2 (Zpos ma) = 52).
    { rewrite Hma, Z.log2_mul_pow2 by lia. fold la. lia. }
    rewrite Ea, ltb_normal by (assumption || lia).
    rewrite Hm, Hma.
    assert (E1 : 5 * d * 2 ^ (52 - l5) * 2 ^ (l5 - 52 - j + 1074)
                 = 5 * d * 2 ^ (1074 - j)).
    { rewrite <- Z.mul_assoc, <- Z.pow_add_r by lia. do 2 f_equal. lia. }
    assert (E2 : a * 2 ^ (52 - la) * 2 ^ (la - 52 + 1074)
                 = a * 2 ^ j * 2 ^ (1074 - j)).
    { rewrite <- !Z.mul_assoc, <- !Z.pow_add_r by lia. do 2 f_equal. lia. }
    rewrite E1, E2.
    assert (HP : 0 < 2 ^ (1074 - j)) by (apply Z.pow_pos_nonneg; lia).
    destruct (Z.ltb_spec (5 * d) (a * 2 ^ j)) as [L|G].
    + apply Z.ltb_lt. apply Z.mul_lt_mono_pos_r; assumption.
    + apply Z.ltb_ge. apply Z.mul_le_mono_nonneg_r; lia.
  - assert (HR : (5 * d <? a * 2 ^ j) = true).
    { apply Z.ltb_lt.
      assert (a * 2 <= a * 2 ^ j) by (apply Z.mul_le_mono_nonneg_l; lia). lia. }
    rewrite HR.
    destruct a as [|p|p]; try lia.
    assert (Hlp : 53 <= Z.log2 (Zpos p)) by (apply Z.log2_le_pow2; lia).
    pose proof (of_int_big p Hlp) as Hb.
    destruct (of_int (Zpos p)) as [?|[|]| |[|] mb eb]; try contradiction.
    + reflexivity.
    + unfold SFltb, SFcompare.
      destruct (Z.compare_spec (l5 - 52 - j) eb); try reflexivity; lia.
Qed.

(** The clamped value: [int64(float64(sgn) * ceiling)] discards the fraction
    of [5 d / 2^j]. *)
Lemma to_int_signed_five j d (neg : bool) :
  1 <= j <= 2 -> 0 < d -> 5 * d < 2 ^ 53 ->
  to_int (mul (of_int (if neg then -1 else 1)) (mul (five_over_pow2 j) (of_int d)))
  = (if neg then -1 else 1) * (5 * d / 2 ^ j).
Proof.
  intros Hj Hd H5.
  destruct (mul_five_over_pow2 j d Hj Hd H5) as (m & E & Hm & Hlm).
  rewrite E.
  assert (Hl5 : 0 <= Z.log2 (5 * d) <= 52).
  { split; [apply Z.log2_nonneg|].
    assert (Z.log2 (5 * d) < 53); [apply Z.log2_lt_pow2|]; lia. }
  set (l5 := Z.log2 (5 * d)) in *.
  assert (E1 : of_int (if neg then -1 else 1)
               = S754_finite neg 4503599627370496 (-52)).
  { destruct neg; reflexivity. }
  rewrite E1.
  rewrite (mul_exact neg _ (-52) false m (l5 - 52 - j) m 52); try lia.
  rewrite xorb_false_r.
  replace (-52 + (l5 - 52 - j) + 52) with (l5 - 52 - j) by lia.
  pose proof (log2_52_bounds m Hlm) as Hb.
  rewrite to_int_finite by lia.
  f_equal. rewrite Hm.
  replace (- (l5 - 52 - j)) with (j + (52 - l5)) by lia.
  rewrite Z.pow_add_r by lia.
  apply Z.div_mul_cancel_r; apply Z.pow_nonzero; lia.
Qed.
End Float64.

(** ** Calls that may panic *)

Inductive outcome (A : Type) : Type :=
| Returns (a : A)
| Panics (msg : string).
Arguments Returns {A} a.
Arguments Panics {A} msg.

Definition bind {A B} (o : outcome A) (k : A -> outcome B) : outcome B :=
  match o with
  | Returns a => k a
  | Panics msg => Panics msg
  end.

(** ** Package [base/timemath] *)

Module timemath.
(** [time.Duration]: a signed count of nanoseconds. *)
Definition Duration := Z.

(** Modelled from the spec: [timemath.Abs] and [timemath.Sign], the "sign/abs"
    utilities on signed durations (the package is not among the sources). *)
Definition Abs (d : Duration) : Duration := Z.abs d.
Definition Sign (d : Duration) : Z := Z.sgn d.

Fixpoint insert (x : Duration) (l : list Duration) : list Duration :=
  match l with
  | [] => [x]
  | y :: l' => if x <=? y then x :: l else y :: insert x l'
  end.

Fixpoint sort (l : list Duration) : list Duration :=
  match l with
  | [] => []
  | x :: l' => insert x (sort l')
  end.

(** Modelled from the spec: [timemath.Median], "odd length: middle element;
    even length: mean of two middle elements after sort".  The spec is silent
    on the empty sequence; 0 is returned for it here. *)
Definition Median (ds : list Duration) : Duration :=
  let s := sort ds in
  let n := List.length s in
  match n with
  | O => 0
  | _ => if Nat.odd n then nth (n / 2) s 0
         else Z.quot (nth (n / 2 - 1) s 0 + nth (n / 2) s 0) 2
  end.

(** Modelled from the spec: [timemath.FaultTolerantMidpoint], "sort the
    offsets, f = floor((n-1)/3), take the sub-range [f, n-1-f], return the
    midpoint (lo + hi)/2; when n <= 1 return the only value or zero". *)
Definition FaultTolerantMidpoint (ds : list Duration) : Duration :=
  let s := sort ds in
  let n := List.length s in
  match n with
  | O => 0
  | _ => let f := ((n - 1) / 3)%nat in
         Z.quot (nth f s 0 + nth (n - 1 - f) s 0) 2
  end.
End timemath.

(** ** Package [core/sync] (sync.go) *)

Module sync.
Import timemath.
Definition float64 : Type := Float64.t.

Definition Nanosecond : Duration := 1.
Definition Microsecond : Duration := 1000 * Nanosecond.
Definition Second : Duration := 1000000000 * Nanosecond.

Definition refClkImpact : float64 := Float64.five_over_pow2 2.
Definition refClkCutoff : Duration := 0.
Definition refClkTimeout : Duration := 1 * Second.
Definition refClkInterval : Duration := 2 * Second.
Definition netClkImpact : float64 := Float64.five_over_pow2 1.
Definition netClkCutoff : Duration := Microsecond.
Definition netClkTimeout : Duration := 5 * Second.
Definition netClkInterval : Duration := 60 * Second.

(** A Go slice: [None] is nil, [Some l] a non-nil slice (possibly empty). *)
Definition slice (A : Type) : Type := option (list A).
Definition len {A} (s : slice A) : nat :=
  match s with None => O | Some l => List.length l end.
Definition elems {A} (s : slice A) : list A :=
  match s with None => [] | Some l => l end.
Definition is_nil {A} (s : slice A) : bool :=
  match s with None => true | Some _ => false end.
Definition make (n : nat) : slice Duration := Some (repeat 0 n).
Definition append {A} (s : slice A) (x : A) : slice A := Some (elems s ++ [x]).

(** What the loops do to their collaborators, in program order. *)
Inductive event : Type :=
| EvMeasureRef (timeout : Duration)
| EvMeasureNet (timeout : Duration)
| EvGaugeSet (v : float64)
| EvTheilSenAddSample (corr : Duration)
| EvPLLAddSample (corr : Duration) (weight : float64)
| EvStep (d : Duration)
| EvAdjust (offset interval : Duration) (startFreq : float64)
| EvAdjustWithTick (freqPPB : float64)
| EvSleep (d : Duration).

Definition is_estimator_event (e : event) : bool :=
  match e with
  | EvTheilSenAddSample _ | EvPLLAddSample _ _ => true
  | _ => false
  end.

Definition is_actuation_event (e : event) : bool :=
  match e with
  | EvStep _ | EvAdjust _ _ _ | EvAdjustWithTick _ => true
  | _ => false
  end.

(** The samples handed to [theilSen.AddSample] and to
    [pll.AddSampleAndGetData], in order. *)
Definition fedToTheilSen (tr : list event) : list Duration :=
  flat_map (fun e => match e with EvTheilSenAddSample c => [c] | _ => [] end) tr.
Definition fedToPLL (tr : list event) : list Duration :=
  flat_map (fun e => match e with EvPLLAddSample c _ => [c] | _ => [] end) tr.
Definition stepsOf (tr : list event) : list Duration :=
  flat_map (fun e => match e with EvStep d => [d] | _ => [] end) tr.
Definition measurementsOf (tr : list event) : list event :=
  filter (fun e => match e with EvMeasureRef _ | EvMeasureNet _ => true | _ => false end) tr.

(** Lines 100-102 and 170-172: the drift-based ceiling on a correction. *)
Definition clampCorr (maxCorr : float64) (corr : Duration) : Duration :=
  if Float64.gtb (Float64.of_int (Abs corr)) maxCorr
  then Float64.to_int (Float64.mul (Float64.of_int (Sign corr)) maxCorr)
  else corr.

Section Package.
(** Reference clocks implemented outside this package
    ([client.ReferenceClock] is an interface). *)
Variable ExtClock : Type.

Inductive ReferenceClock : Type :=
| localReferenceClock
| externalClock (c : ExtClock).

(** What each external clock's [MeasureClockOffset] returns in one round:
    an offset and an optional error. *)
Definition measurement : Type := ExtClock -> Duration * option string.

Definition localReferenceClock_MeasureClockOffset : Duration * option string :=
  (0, None).

Definition MeasureClockOffset (env : measurement) (c : ReferenceClock)
  : Duration * option string :=
  match c with
  | localReferenceClock => localReferenceClock_MeasureClockOffset
  | externalClock e => env e
  end.

(** Modelled from the spec: [client.ReferenceClockClient.MeasureClockOffsets],
    which measures every source under the shared deadline and deposits its
    offset into the slot of the same index, "each per-source failure or
    timeout deposits a zero into its slot".  It writes through the slice it
    is handed, so it cannot change the length of the caller's slice. *)
Fixpoint MeasureClockOffsets (env : measurement) (clks : list ReferenceClock)
  (offs : list Duration) : list Duration :=
  match clks, offs with
  | c :: clks', _ :: offs' =>
      (match MeasureClockOffset env c with
       | (d, None) => d
       | (_, Some _) => 0
       end) :: MeasureClockOffsets env clks' offs'
  | _, _ => offs
  end.

(** The package-level variables. *)
Record registry : Type := {
  refClks : slice ReferenceClock;
  refClkOffsets : slice Duration;
  netClks : slice ReferenceClock;
  netClkOffsets : slice Duration
}.

Definition unregistered : registry :=
  {| refClks := None; refClkOffsets := None;
     netClks := None; netClkOffsets := None |}.

Definition RegisterClocks (refClocks netClocks : slice ReferenceClock)
  (g : registry) : outcome registry :=
  if negb (is_nil (refClks g)) || negb (is_nil (netClks g)) then
    Panics "reference clocks already registered"
  else
    let refClks' := refClocks in
    let refClkOffsets' := make (len refClks') in
    let netClks' := netClocks in
    let netClks' :=
      if negb (Nat.eqb (len netClks') 0)
      then append netClks' localReferenceClock
      else netClks' in
    let netClkOffsets' := make (len netClks') in
    Returns {| refClks := refClks'; refClkOffsets := refClkOffsets';
               netClks := netClks'; netClkOffsets := netClkOffsets' |}.

(** Writing through a slice keeps a nil slice nil. *)
Definition write_slots (s : slice Duration) (l : list Duration) : slice Duration :=
  match s with None => None | Some _ => Some l end.

Definition measureOffsetToRefClocks (env : measurement) (timeout : Duration)
  (g : registry) : registry * Duration * list event :=
  let offs := MeasureClockOffsets env (elems (refClks g)) (elems (refClkOffsets g)) in
  ({| refClks := refClks g; refClkOffsets := write_slots (refClkOffsets g) offs;
      netClks := netClks g; netClkOffsets := netClkOffsets g |},
   Median offs, [EvMeasureRef timeout]).

Definition SyncToRefClocks (env : measurement) (g : registry)
  : registry * list event :=
  let '(g', corr, tr) := measureOffsetToRefClocks env refClkTimeout g in
  if negb (corr =? 0) then (g', tr ++ [EvStep corr]) else (g', tr).

Definition measureOffsetToNetClocks (env : measurement) (timeout : Duration)
  (g : registry) : registry * Duration * list event :=
  let offs := MeasureClockOffsets env (elems (netClks g)) (elems (netClkOffsets g)) in
  ({| refClks := refClks g; refClkOffsets := refClkOffsets g;
      netClks := netClks g; netClkOffsets := write_slots (netClkOffsets g) offs |},
   FaultTolerantMidpoint offs, [EvMeasureNet timeout]).

(** The estimators ([newTheilSen], [newPLL] and their methods live in other
    files of the package) and the local clock ([timebase.LocalClock]). *)
Variable theilSen : Type.
Variable newTheilSen : theilSen.
Variable theilSen_AddSample : theilSen -> Duration -> theilSen.
Variable theilSen_GetOffsetNs : theilSen -> float64.
Variable pll : Type.
Variable newPLL : pll.
Variable pll_AddSampleAndGetData :
  pll -> Duration -> float64 -> pll * (float64 * float64 * float64).
Variable MaxDrift : Duration -> Duration.
Variable timemath_Duration : float64 -> Duration.

(** State owned by one discipline loop. *)
Record loop : Type := {
  globals : registry;
  ts : theilSen;
  pl : pll;
  corrGauge : float64
}.

(** Lines 99-131 and 169-200: what a round does with the aggregated offset.
    The two loops differ in [cutoff], [interval] and [maxCorr] only. *)
Definition discipline (cutoff interval : Duration) (maxCorr : float64)
  (useTheilSen : bool) (corr : Duration) (s : loop) : loop * list event :=
  if Abs corr >? cutoff then
    let corr := clampCorr maxCorr corr in
    let ts' := theilSen_AddSample (ts s) corr in
    let offset := theilSen_GetOffsetNs ts' in
    let frequencyPPB :=
      Float64.mul (Float64.div offset (Float64.of_int interval))
                  (Float64.of_int 1000000000) in
    let '(pl', (correction, interval', startFreq)) :=
      pll_AddSampleAndGetData (pl s) corr (Float64.of_int 1000) in
    let act :=
      if useTheilSen then
        if Float64.gtb (Float64.abs frequencyPPB) Float64.zero
        then [EvAdjustWithTick frequencyPPB] else []
      else
        if Float64.gtb interval' Float64.zero
        then [EvAdjust (timemath_Duration correction)
                       (timemath_Duration interval') startFreq]
        else [] in
    ({| globals := globals s; ts := ts'; pl := pl';
        corrGauge := Float64.of_int corr |},
     [EvTheilSenAddSample corr; EvPLLAddSample corr (Float64.of_int 1000)]
       ++ act ++ [EvGaugeSet (Float64.of_int corr)])
  else (s, []).

(** One iteration of the [for] loop of [RunLocalClockSync]. *)
Definition RunLocalClockSync_round (useTheilSen : bool) (maxCorr : float64)
  (env : measurement) (s : loop) : loop * list event :=
  let '(g', corr, tr) := measureOffsetToRefClocks env refClkTimeout (globals s) in
  let s0 := {| globals := g'; ts := ts s; pl := pl s; corrGauge := Float64.zero |} in
  let '(s1, tr1) := discipline refClkCutoff refClkInterval maxCorr useTheilSen corr s0 in
  (s1, [EvGaugeSet Float64.zero] ++ tr ++ tr1 ++ [EvSleep refClkInterval]).

(** One iteration of the [for] loop of [RunGlobalClockSync]. *)
Definition RunGlobalClockSync_round (useTheilSen : bool) (maxCorr : float64)
  (env : measurement) (s : loop) : loop * list event :=
  let '(g', corr, tr) := measureOffsetToNetClocks env netClkTimeout (globals s) in
  let s0 := {| globals := g'; ts := ts s; pl := pl s; corrGauge := Float64.zero |} in
  let '(s1, tr1) := discipline netClkCutoff netClkInterval maxCorr useTheilSen corr s0 in
  (s1, [EvGaugeSet Float64.zero] ++ tr ++ tr1 ++ [EvSleep netClkInterval]).

(** The loop never returns; [rounds] runs it for the rounds whose
    measurements are given. *)
Fixpoint rounds (round : measurement -> loop -> loop * list event)
  (envs : list measurement) (s : loop) : loop * list event :=
  match envs with
  | [] => (s, [])
  | env :: envs' =>
      let '(s1, tr1) := round env s in
      let '(s2, tr2) := rounds round envs' s1 in
      (s2, tr1 ++ tr2)
  end.

(** The default Prometheus registry ([prometheus.DefaultRegisterer]), which
    is process-wide, and its [Register] for a gauge of a given name and help
    text: the registry with the gauge added, or the error (the name is
    already registered, the descriptor is invalid, ...).  The names and help
    texts are constants of [base/metrics]. *)
Variable metricsRegistry : Type.
Variable Register : string -> string -> metricsRegistry -> metricsRegistry + string.
Variable SyncLocalCorrN SyncLocalCorrH SyncGlobalCorrN SyncGlobalCorrH : string.

(** [promauto.NewGauge]: the new gauge is registered with the default
    registry, and a failed registration panics with its error. *)
Definition NewGauge (name help : string) (reg : metricsRegistry)
  : outcome metricsRegistry :=
  match Register name help reg with
  | inl reg' => Returns reg'
  | inr msg => Panics msg
  end.

Definition RunLocalClockSync (useTheilSen : bool) (envs : list measurement)
  (g : registry) (reg : metricsRegistry)
  : outcome (metricsRegistry * (loop * list event)) :=
  if Float64.leb refClkImpact (Float64.of_int 1) then
    Panics "invalid reference clock impact factor"
  else if refClkInterval <=? 0 then
    Panics "invalid reference clock sync interval"
  else if (refClkTimeout <? 0) || (refClkTimeout >? Z.quot refClkInterval 2) then
    Panics "invalid reference clock sync timeout"
  else
    let maxCorr := Float64.mul refClkImpact (Float64.of_int (MaxDrift refClkInterval)) in
    if Float64.leb maxCorr Float64.zero then
      Panics "invalid reference clock max correction"
    else
      bind (NewGauge SyncLocalCorrN SyncLocalCorrH reg) (fun reg' =>
      Returns (reg',
               rounds (RunLocalClockSync_round useTheilSen maxCorr) envs
                 {| globals := g; ts := newTheilSen; pl := newPLL;
                    corrGauge := Float64.zero |})).

Definition RunGlobalClockSync (useTheilSen : bool) (envs : list measurement)
  (g : registry) (reg : metricsRegistry)
  : outcome (metricsRegistry * (loop * list event)) :=
  if Float64.leb netClkImpact (Float64.of_int 1) then
    Panics "invalid network clock impact factor"
  else if Float64.leb (Float64.sub netClkImpact (Float64.of_int 1)) refClkImpact then
    Panics "invalid network clock impact factor"
  else if netClkInterval <? refClkInterval then
    Panics "invalid network clock sync interval"
  else if (netClkTimeout <? 0) || (netClkTimeout >? Z.quot netClkInterval 2) then
    Panics "invalid network clock sync timeout"
  else
    let maxCorr := Float64.mul netClkImpact (Float64.of_int (MaxDrift netClkInterval)) in
    if Float64.leb maxCorr Float64.zero then
      Panics "invalid network clock max correction"
    else
      bind (NewGauge SyncGlobalCorrN SyncGlobalCorrH reg) (fun reg' =>
      Returns (reg',
               rounds (RunGlobalClockSync_round useTheilSen maxCorr) envs
                 {| globals := g; ts := newTheilSen; pl := newPLL;
                    corrGauge := Float64.zero |})).

(** *** The registry *)

Lemma MeasureClockOffsets_length env clks offs :
  List.length (MeasureClockOffsets env clks offs) = List.length offs.
Proof.
  revert offs. induction clks as [|c clks IH]; intros [|o offs]; cbn; auto.
Qed.

Lemma len_make n : len (make n) = n.
Proof. unfold make, len. apply repeat_length. Qed.

Lemma len_write_slots s l :
  List.length l = len s -> len (write_slots s l) = len s.
Proof. destruct s; cbn; auto. Qed.

(** The slices line up: every offset slice is as long as its clock slice. *)
Definition aligned (g : registry) : Prop :=
  len (refClkOffsets g) = len (refClks g) /\
  len (netClkOffsets g) = len (netClks g).

(** The registry holds clocks (one of the two clock slices is non-nil). *)
Definition registered (g : registry) : bool :=
  negb (is_nil (refClks g)) || negb (is_nil (netClks g)).

(** C9 (code defect): registration is meant to happen once, but the guard
    looks at the two clock slices only: a first [RegisterClocks(nil, nil)]
    returns normally and leaves both nil, so a second call, with any
    arguments, returns normally too instead of panicking. *)
Theorem RegisterClocks_twice_after_nil_nil :
  exists g1, RegisterClocks None None unregistered = Returns g1 /\
    forall refClocks netClocks,
    exists g2, RegisterClocks refClocks netClocks g1 = Returns g2.
Proof.
  eexists. split; [reflexivity|].
  intros refClocks netClocks. eexists. reflexivity.
Qed.

(** C8 (code defect): after the successful call [RegisterClocks(nil, nil)]
    the slices line up (all lengths 0), yet a later [RegisterClocks] with one
    reference clock and one network clock succeeds as well and changes the
    lengths of both offset slices (to 1 and 2). *)
Theorem RegisterClocks_lengths_change_after_nil_nil (c : ReferenceClock) :
  exists g1 g2,
    RegisterClocks None None unregistered = Returns g1 /\ aligned g1 /\
    RegisterClocks (Some [c]) (Some [c]) g1 = Returns g2 /\ aligned g2 /\
    len (refClkOffsets g1) = 0%nat /\ len (refClkOffsets g2) = 1%nat /\
    len (netClkOffsets g1) = 0%nat /\ len (netClkOffsets g2) = 2%nat.
Proof.
  do 2 eexists. split; [reflexivity|]. split; [split; reflexivity|].
  split; [reflexivity|]. split; [split; reflexivity|].
  repeat split.
Qed.

(** *** The one-shot step *)

(** C10: [SyncToRefClocks] measures the reference clocks once, under the
    one-second timeout, takes the median of the deposited offsets, and calls
    [Step] exactly once, with that median, when it is not zero; when it is
    zero no method of the local clock is called.  No estimator is involved. *)
Theorem SyncToRefClocks_steps_by_median (env : measurement) (g : registry) :
  let median :=
    Median (MeasureClockOffsets env (elems (refClks g)) (elems (refClkOffsets g))) in
  let tr := snd (SyncToRefClocks env g) in
  measurementsOf tr = [EvMeasureRef (1 * Second)] /\
  filter is_estimator_event tr = [] /\
  filter is_actuation_event tr = (if median =? 0 then [] else [EvStep median]).
Proof.
  cbv zeta. unfold SyncToRefClocks, measureOffsetToRefClocks.
  destruct (Median _ =? 0); cbn; auto.
Qed.

(** *** The two discipline loops *)

Inductive tier : Type := RefTier | NetTier.

Definition cutoff (t : tier) : Duration :=
  match t with RefTier => refClkCutoff | NetTier => netClkCutoff end.
Definition interval (t : tier) : Duration :=
  match t with RefTier => refClkInterval | NetTier => netClkInterval end.
Definition timeout (t : tier) : Duration :=
  match t with RefTier => refClkTimeout | NetTier => netClkTimeout end.
Definition impact (t : tier) : float64 :=
  match t with RefTier => refClkImpact | NetTier => netClkImpact end.
(** The impact factors as rationals: 1.25 and 2.5. *)
Definition impactQ (t : tier) : Q :=
  match t with RefTier => 5 # 4 | NetTier => 5 # 2 end.
Definition measureEvent (t : tier) : event :=
  match t with
  | RefTier => EvMeasureRef refClkTimeout
  | NetTier => EvMeasureNet netClkTimeout
  end.
(** The aggregated offset of a round: median of the reference offsets,
    fault-tolerant midpoint of the network offsets. *)
Definition aggregated (t : tier) (env : measurement) (g : registry) : Duration :=
  match t with
  | RefTier => snd (fst (measureOffsetToRefClocks env refClkTimeout g))
  | NetTier => snd (fst (measureOffsetToNetClocks env netClkTimeout g))
  end.
Definition round (t : tier) :
  bool -> float64 -> measurement -> loop -> loop * list event :=
  match t with
  | RefTier => RunLocalClockSync_round
  | NetTier => RunGlobalClockSync_round
  end.

Lemma discipline_dead co iv maxCorr u corr s :
  Z.abs corr <= co -> discipline co iv maxCorr u corr s = (s, []).
Proof.
  intros H. unfold discipline, Abs.
  destruct (Z.gtb_spec (Z.abs corr) co); [lia | reflexivity].
Qed.

Lemma discipline_live co iv maxCorr u corr s :
  Z.abs corr > co ->
  exists act s',
    discipline co iv maxCorr u corr s
    = (s', [EvTheilSenAddSample (clampCorr maxCorr corr);
            EvPLLAddSample (clampCorr maxCorr corr) (Float64.of_int 1000)]
             ++ act ++ [EvGaugeSet (Float64.of_int (clampCorr maxCorr corr))]) /\
    (act = [] \/ (exists f, act = [EvAdjustWithTick f])
     \/ (exists o i f, act = [EvAdjust o i f])) /\
    ts s' = theilSen_AddSample (ts s) (clampCorr maxCorr corr) /\
    pl s' = fst (pll_AddSampleAndGetData (pl s) (clampCorr maxCorr corr)
                   (Float64.of_int 1000)) /\
    globals s' = globals s /\
    corrGauge s' = Float64.of_int (clampCorr maxCorr corr).
Proof.
  intros H. unfold discipline, Abs.
  destruct (Z.gtb_spec (Z.abs corr) co); [|lia].
  destruct (pll_AddSampleAndGetData _ _ _) as [pl' [[c i] f]].
  eexists. eexists. split; [reflexivity|]. cbn [ts pl globals corrGauge fst].
  repeat split.
  destruct u.
  - destruct (Float64.gtb _ _); eauto.
  - destruct (Float64.gtb _ _); eauto 6.
Qed.

Lemma round_unfold (t : tier) u maxCorr env s :
  round t u maxCorr env s
  = (let s0 := {| globals := fst (fst (match t with
                     | RefTier => measureOffsetToRefClocks env refClkTimeout (globals s)
                     | NetTier => measureOffsetToNetClocks env netClkTimeout (globals s)
                     end));
                  ts := ts s; pl := pl s; corrGauge := Float64.zero |} in
     let r := discipline (cutoff t) (interval t) maxCorr u
                (aggregated t env (globals s)) s0 in
     (fst r, [EvGaugeSet Float64.zero] ++ [measureEvent t] ++ snd r
             ++ [EvSleep (interval t)])).
Proof.
  destruct t; cbn [round aggregated cutoff interval measureEvent];
    unfold RunLocalClockSync_round, RunGlobalClockSync_round,
      measureOffsetToRefClocks, measureOffsetToNetClocks; cbn [fst snd];
    destruct (discipline _ _ _ _ _ _); reflexivity.
Qed.

(** C2: a round whose aggregated offset is within the tier's cutoff (0 for
    [RunLocalClockSync], 1 microsecond for [RunGlobalClockSync]) sets the
    gauge to 0, measures, and sleeps for the interval: no estimator receives
    a sample (both keep their state), no method of the local clock other
    than [Sleep] is called, and the gauge reads 0 afterwards. *)
Theorem dead_zone_round (t : tier) u maxCorr env s :
  Z.abs (aggregated t env (globals s)) <= cutoff t ->
  let r := round t u maxCorr env s in
  snd r = [EvGaugeSet Float64.zero; measureEvent t; EvSleep (interval t)] /\
  filter is_estimator_event (snd r) = [] /\
  filter is_actuation_event (snd r) = [] /\
  ts (fst r) = ts s /\ pl (fst r) = pl s /\
  corrGauge (fst r) = Float64.zero.
Proof.
  intros H. cbv zeta. rewrite round_unfold. cbv zeta.
  rewrite discipline_dead by exact H. cbn [fst snd app ts pl corrGauge].
  destruct t; cbn; auto 7.
Qed.

(** The ceiling [impact * MaxDrift(interval)] is computed exactly as long as
    [5 * MaxDrift(interval)] stays below [2^53] nanoseconds; the clamp then
    compares exactly and cuts the ceiling down to whole nanoseconds. *)
Lemma clampCorr_five j d corr :
  1 <= j <= 2 -> 0 < d -> 5 * d < 2 ^ 53 -> corr <> 0 ->
  clampCorr (Float64.mul (Float64.five_over_pow2 j) (Float64.of_int d)) corr
  = if 5 * d <? Z.abs corr * 2 ^ j then Z.sgn corr * (5 * d / 2 ^ j) else corr.
Proof.
  intros Hj Hd H5 Hc. unfold clampCorr, Abs, Sign.
  rewrite Float64.gtb_of_int_five by lia.
  destruct (5 * d <? Z.abs corr * 2 ^ j); [|reflexivity].
  destruct corr as [|p|p]; [contradiction| |].
  - exact (Float64.to_int_signed_five j d false Hj Hd H5).
  - exact (Float64.to_int_signed_five j d true Hj Hd H5).
Qed.

Definition impact_exp (t : tier) : Z :=
  match t with RefTier => 2 | NetTier => 1 end.

Lemma impactQ_le (t : tier) (a d : Z) :
  (inject_Z a <= impactQ t * inject_Z d)%Q <-> a * 2 ^ impact_exp t <= 5 * d.
Proof.
  destruct t; unfold Qle, impactQ, impact_exp; cbn; lia.
Qed.

Lemma impactQ_floor (t : tier) (d : Z) :
  Qfloor (impactQ t * inject_Z d) = 5 * d / 2 ^ impact_exp t.
Proof.
  destruct t; unfold impactQ, impact_exp, Qfloor, Qmult, inject_Z; cbn;
    reflexivity.
Qed.

Lemma fed_app_TheilSen tr1 tr2 :
  fedToTheilSen (tr1 ++ tr2) = fedToTheilSen tr1 ++ fedToTheilSen tr2.
Proof. apply flat_map_app. Qed.

Lemma fed_app_PLL tr1 tr2 :
  fedToPLL (tr1 ++ tr2) = fedToPLL tr1 ++ fedToPLL tr2.
Proof. apply flat_map_app. Qed.

Lemma fed_measureEvent (t : tier) :
  fedToTheilSen [measureEvent t] = [] /\ fedToPLL [measureEvent t] = [].
Proof. destruct t; split; reflexivity. Qed.

(** C1 (as amended): in a round of either loop whose aggregated offset
    exceeds the cutoff, Theil-Sen and the PLL receive the same value [c'];
    when the ceiling [impact * MaxDrift(interval)] is computed exactly
    ([5 * MaxDrift(interval) < 2^53] ns), [|c'|] is at most the ceiling, an
    offset within the ceiling is passed through unchanged, and a larger one
    is replaced by [sign(corr)] times the ceiling cut down to whole
    nanoseconds. *)
Theorem clamp_law (t : tier) u env s :
  let d := MaxDrift (interval t) in
  let maxCorr := Float64.mul (impact t) (Float64.of_int d) in
  let corr := aggregated t env (globals s) in
  let tr := snd (round t u maxCorr env s) in
  0 < d -> 5 * d < 2 ^ 53 -> Z.abs corr > cutoff t ->
  exists c',
    fedToTheilSen tr = [c'] /\ fedToPLL tr = [c'] /\
    (inject_Z (Z.abs c') <= impactQ t * inject_Z d)%Q /\
    ((inject_Z (Z.abs corr) <= impactQ t * inject_Z d)%Q -> c' = corr) /\
    (~ (inject_Z (Z.abs corr) <= impactQ t * inject_Z d)%Q ->
     c' = Z.sgn corr * Qfloor (impactQ t * inject_Z d)).
Proof.
  cbv zeta. intros Hd H5 Hc.
  set (d := MaxDrift (interval t)) in *.
  set (corr := aggregated t env (globals s)) in *.
  set (maxCorr := Float64.mul (impact t) (Float64.of_int d)).
  exists (clampCorr maxCorr corr).
  rewrite round_unfold. cbv zeta. fold corr. cbn [snd].
  match goal with |- context [discipline ?co ?iv ?m ?uu ?c ?s0] =>
    destruct (discipline_live co iv m uu c s0 Hc) as (act & s' & E & Hact & _)
  end.
  rewrite E. cbn [snd].
  assert (Hne : corr <> 0) by (destruct t; unfold cutoff, refClkCutoff, netClkCutoff,
                                 Microsecond, Nanosecond in Hc; lia).
  assert (Hj : 1 <= impact_exp t <= 2) by (destruct t; cbn; lia).
  assert (Hcl : clampCorr maxCorr corr
                = if 5 * d <? Z.abs corr * 2 ^ impact_exp t
                  then Z.sgn corr * (5 * d / 2 ^ impact_exp t) else corr).
  { unfold maxCorr. replace (impact t) with (Float64.five_over_pow2 (impact_exp t))
      by (destruct t; reflexivity).
    apply clampCorr_five; assumption. }
  assert (Hp : 0 < 2 ^ impact_exp t) by (apply Z.pow_pos_nonneg; lia).
  split; [|split].
  - rewrite !fed_app_TheilSen, (proj1 (fed_measureEvent t)).
    destruct Hact as [->|[[f ->]|(o & i & f & ->)]]; reflexivity.
  - rewrite !fed_app_PLL, (proj2 (fed_measureEvent t)).
    destruct Hact as [->|[[f ->]|(o & i & f & ->)]]; reflexivity.
  - rewrite !impactQ_le, impactQ_floor, Hcl.
    destruct (Z.ltb_spec (5 * d) (Z.abs corr * 2 ^ impact_exp t)) as [L|G].
    + split; [|split; [lia | reflexivity]].
      rewrite Z.abs_mul.
      assert (Hs : Z.abs (Z.sgn corr) = 1) by (destruct corr; cbn; lia).
      rewrite Hs, Z.mul_1_l.
      rewrite Z.abs_eq by (apply Z.div_pos; lia).
      rewrite Z.mul_comm. apply Z.mul_div_le. exact Hp.
    + split; [exact G | split; [reflexivity | lia]].
Qed.

(** *** More on the registry and the loops *)

(** A successful registration stores the reference clocks as given and the
    network clocks followed by one local clock (nothing is added to an
    empty or nil list), and allocates zeroed offset slices of the same
    lengths. *)
Theorem RegisterClocks_stores refClocks netClocks g g' :
  RegisterClocks refClocks netClocks g = Returns g' ->
  refClks g' = refClocks /\
  netClks g' = (if Nat.eqb (len netClocks) 0 then netClocks
                else Some (elems netClocks ++ [localReferenceClock])) /\
  refClkOffsets g' = Some (repeat 0 (len refClocks)) /\
  netClkOffsets g' = Some (repeat 0 (len (netClks g'))) /\
  aligned g'.
Proof.
  unfold RegisterClocks.
  destruct (negb (is_nil (refClks g)) || negb (is_nil (netClks g)));
    [discriminate|].
  intros H. injection H as <-. cbn [refClks netClks refClkOffsets netClkOffsets].
  destruct (Nat.eqb (len netClocks) 0); cbn [negb];
    repeat split; unfold aligned; cbn; rewrite ?repeat_length; auto.
Qed.

(** Once a registration stored a non-nil slice, every further call to
    [RegisterClocks] panics. *)
Theorem RegisterClocks_once refClocks netClocks g g' refClocks' netClocks' :
  RegisterClocks refClocks netClocks g = Returns g' ->
  is_nil refClocks && is_nil netClocks = false ->
  RegisterClocks refClocks' netClocks' g'
  = Panics "reference clocks already registered".
Proof.
  unfold RegisterClocks at 1.
  destruct (negb (is_nil (refClks g)) || negb (is_nil (netClks g)));
    [discriminate|].
  intros H Hn. injection H as <-. unfold RegisterClocks.
  cbn [refClks netClks].
  destruct refClocks as [r|], netClocks as [n|]; try discriminate;
    try reflexivity; destruct (negb (Nat.eqb _ 0)); reflexivity.
Qed.

Lemma measure_ref_keeps env to g :
  let g' := fst (fst (measureOffsetToRefClocks env to g)) in
  refClks g' = refClks g /\ netClks g' = netClks g /\
  len (refClkOffsets g') = len (refClkOffsets g) /\
  netClkOffsets g' = netClkOffsets g.
Proof.
  cbn. repeat split. destruct (refClkOffsets g) as [l|]; cbn; [|reflexivity].
  apply MeasureClockOffsets_length.
Qed.

Lemma measure_net_keeps env to g :
  let g' := fst (fst (measureOffsetToNetClocks env to g)) in
  refClks g' = refClks g /\ netClks g' = netClks g /\
  refClkOffsets g' = refClkOffsets g /\
  len (netClkOffsets g') = len (netClkOffsets g).
Proof.
  cbn. repeat split. destruct (netClkOffsets g) as [l|]; cbn; [|reflexivity].
  apply MeasureClockOffsets_length.
Qed.

(** The clocks and the lengths of the offset slices of two registries agree. *)
Definition same_shape (g g' : registry) : Prop :=
  refClks g' = refClks g /\ netClks g' = netClks g /\
  len (refClkOffsets g') = len (refClkOffsets g) /\
  len (netClkOffsets g') = len (netClkOffsets g).

Lemma discipline_globals co iv maxCorr u corr s :
  globals (fst (discipline co iv maxCorr u corr s)) = globals s.
Proof.
  unfold discipline. destruct (Abs corr >? co); [|reflexivity].
  destruct (pll_AddSampleAndGetData _ _ _) as [pl' [[c i] f]]. reflexivity.
Qed.

Lemma round_same_shape (t : tier) u maxCorr env s :
  same_shape (globals s) (globals (fst (round t u maxCorr env s))).
Proof.
  rewrite round_unfold. cbv zeta. cbn [fst]. rewrite discipline_globals.
  cbn [globals]. unfold same_shape.
  destruct t.
  - destruct (measure_ref_keeps env refClkTimeout (globals s)) as (A & B & C & D).
    rewrite A, B, C, D. auto.
  - destruct (measure_net_keeps env netClkTimeout (globals s)) as (A & B & C & D).
    rewrite A, B, C, D. auto.
Qed.

(** However long a discipline loop runs, and whatever the clocks report,
    the registered clocks stay the same and the offset slices keep their
    lengths; [SyncToRefClocks] keeps them too. *)
Theorem registry_shape_is_kept (t : tier) u maxCorr envs s env g :
  same_shape (globals s) (globals (fst (rounds (round t u maxCorr) envs s))) /\
  same_shape g (fst (SyncToRefClocks env g)).
Proof.
  split.
  - revert s. induction envs as [|e envs IH]; intros s.
    + cbn. unfold same_shape. auto.
    + cbn [rounds].
      pose proof (round_same_shape t u maxCorr e s) as H1.
      destruct (round t u maxCorr e s) as [s1 tr1]. cbn [fst] in H1.
      pose proof (IH s1) as H2.
      destruct (rounds (round t u maxCorr) envs s1) as [s2 tr2].
      cbn [fst] in *. unfold same_shape in *.
      destruct H1 as (A & B & C & D), H2 as (A' & B' & C' & D').
      rewrite A', B', C', D', A, B, C, D. auto.
  - unfold SyncToRefClocks.
    destruct (measure_ref_keeps env refClkTimeout g) as (A & B & C & D).
    destruct (measureOffsetToRefClocks env refClkTimeout g) as [[g' corr] tr].
    cbn [fst] in *.
    destruct (negb (corr =? 0)); cbn [fst]; unfold same_shape;
      rewrite A, B, C, D; auto.
Qed.

(** What a loop may do to the local clock: never [Step]; [AdjustWithTick]
    only in Theil-Sen mode and [Adjust] only in PLL mode. *)
Definition allowed_in_loop (u : bool) (e : event) : Prop :=
  match e with
  | EvStep _ => False
  | EvAdjust _ _ _ => u = false
  | EvAdjustWithTick _ => u = true
  | _ => True
  end.

Lemma discipline_allowed co iv maxCorr u corr s :
  Forall (allowed_in_loop u) (snd (discipline co iv maxCorr u corr s)).
Proof.
  unfold discipline. destruct (Abs corr >? co); [|constructor].
  destruct (pll_AddSampleAndGetData _ _ _) as [pl' [[c i] f]]. cbn [snd].
  destruct u.
  - destruct (Float64.gtb _ _); repeat constructor.
  - destruct (Float64.gtb _ _); repeat constructor.
Qed.

(** The discipline loops never step the clock, and the mode flag selects
    the one actuator they use: frequency ticks with Theil-Sen, slewing with
    the PLL. *)
Theorem loops_never_step (t : tier) u maxCorr envs s :
  Forall (allowed_in_loop u) (snd (rounds (round t u maxCorr) envs s)).
Proof.
  revert s. induction envs as [|e envs IH]; intros s.
  - constructor.
  - cbn [rounds].
    assert (H1 : Forall (allowed_in_loop u) (snd (round t u maxCorr e s))).
    { rewrite round_unfold. cbv zeta. cbn [snd].
      repeat (apply Forall_app; split); try (repeat constructor).
      - destruct t; repeat constructor.
      - apply discipline_allowed. }
    destruct (round t u maxCorr e s) as [s1 tr1].
    pose proof (IH s1) as H2.
    destruct (rounds (round t u maxCorr) envs s1) as [s2 tr2].
    cbn [snd] in *. apply Forall_app. split; assumption.
Qed.

Lemma discipline_fed co iv maxCorr u corr s :
  fedToTheilSen (snd (discipline co iv maxCorr u corr s))
  = fedToPLL (snd (discipline co iv maxCorr u corr s)).
Proof.
  unfold discipline. destruct (Abs corr >? co); [|reflexivity].
  destruct (pll_AddSampleAndGetData _ _ _) as [pl' [[c i] f]]. cbn [snd].
  destruct u; destruct (Float64.gtb _ _); reflexivity.
Qed.

(** Over any run of a loop the two estimators are fed the same samples in
    the same order, one sample for each round outside the dead zone. *)
Theorem estimators_fed_alike (t : tier) u maxCorr envs s :
  let tr := snd (rounds (round t u maxCorr) envs s) in
  fedToTheilSen tr = fedToPLL tr /\
  (List.length (fedToTheilSen tr) <= List.length envs)%nat.
Proof.
  cbv zeta. revert s. induction envs as [|e envs IH]; intros s.
  - cbn. auto.
  - cbn [rounds].
    assert (H1 : fedToTheilSen (snd (round t u maxCorr e s))
                 = fedToPLL (snd (round t u maxCorr e s)) /\
                 (List.length (fedToTheilSen (snd (round t u maxCorr e s))) <= 1)%nat).
    { rewrite round_unfold. cbv zeta. cbn [snd].
      rewrite !fed_app_TheilSen, !fed_app_PLL.
      rewrite (proj1 (fed_measureEvent t)), (proj2 (fed_measureEvent t)).
      rewrite discipline_fed. split; [reflexivity|].
      cbn [fedToTheilSen fedToPLL flat_map app]. rewrite app_nil_r.
      rewrite <- discipline_fed.
      unfold discipline. destruct (Abs _ >? _); [|cbn; lia].
      destruct (pll_AddSampleAndGetData _ _ _) as [pl' [[c i] f]]. cbn [snd].
      destruct u; destruct (Float64.gtb _ _); cbn; lia. }
    destruct (round t u maxCorr e s) as [s1 tr1].
    destruct (IH s1) as [H2 H3].
    destruct (rounds (round t u maxCorr) envs s1) as [s2 tr2].
    cbn [snd] in *. rewrite fed_app_TheilSen, fed_app_PLL, length_app.
    destruct H1 as [H1 H1']. rewrite H1, H2. split; [reflexivity|].
    rewrite <- H1, <- H2. cbn [List.length]. lia.
Qed.

Definition sleepsOf (tr : list event) : list Duration :=
  flat_map (fun e => match e with EvSleep d => [d] | _ => [] end) tr.

Lemma discipline_quiet co iv maxCorr u corr s :
  sleepsOf (snd (discipline co iv maxCorr u corr s)) = [] /\
  measurementsOf (snd (discipline co iv maxCorr u corr s)) = [].
Proof.
  unfold discipline. destruct (Abs corr >? co); [|split; reflexivity].
  destruct (pll_AddSampleAndGetData _ _ _) as [pl' [[c i] f]]. cbn [snd].
  destruct u; destruct (Float64.gtb _ _); split; reflexivity.
Qed.

(** Every round measures exactly once, under the tier's timeout, and
    sleeps exactly once, for the tier's interval, whether or not it
    corrects the clock. *)
Theorem one_measurement_and_sleep_per_round (t : tier) u maxCorr envs s :
  let tr := snd (rounds (round t u maxCorr) envs s) in
  measurementsOf tr = repeat (measureEvent t) (List.length envs) /\
  sleepsOf tr = repeat (interval t) (List.length envs).
Proof.
  cbv zeta. revert s. induction envs as [|e envs IH]; intros s.
  - split; reflexivity.
  - cbn [rounds].
    assert (H1 : measurementsOf (snd (round t u maxCorr e s)) = [measureEvent t] /\
                 sleepsOf (snd (round t u maxCorr e s)) = [interval t]).
    { rewrite round_unfold. cbv zeta. cbn [snd].
      match goal with |- context [discipline ?a ?b ?c ?d ?e0 ?f] =>
        destruct (discipline_quiet a b c d e0 f) as [Hs Hm] end.
      unfold measurementsOf, sleepsOf in *.
      rewrite !filter_app, !flat_map_app, Hs, Hm.
      destruct t; split; reflexivity. }
    destruct (round t u maxCorr e s) as [s1 tr1].
    destruct (IH s1) as [H2 H3].
    destruct (rounds (round t u maxCorr) envs s1) as [s2 tr2].
    cbn [snd] in *. destruct H1 as [H1 H1'].
    unfold measurementsOf, sleepsOf in *.
    rewrite filter_app, flat_map_app, H1, H1', H2, H3. split; reflexivity.
Qed.

(** Where the ceiling is computed exactly, clamping never turns a
    correction around and never makes it larger. *)
Theorem clamp_keeps_direction (t : tier) (d corr : Duration) :
  0 < d -> 5 * d < 2 ^ 53 -> corr <> 0 ->
  let c' := clampCorr (Float64.mul (impact t) (Float64.of_int d)) corr in
  Z.sgn c' = Z.sgn corr /\ Z.abs c' <= Z.abs corr.
Proof.
  intros Hd H5 Hc. cbv zeta.
  assert (Hj : 1 <= impact_exp t <= 2) by (destruct t; cbn; lia).
  replace (impact t) with (Float64.five_over_pow2 (impact_exp t))
    by (destruct t; reflexivity).
  rewrite clampCorr_five by assumption.
  assert (Hp : 2 <= 2 ^ impact_exp t <= 4)
    by (destruct t; cbn; lia).
  destruct (Z.ltb_spec (5 * d) (Z.abs corr * 2 ^ impact_exp t)) as [L|G];
    [|split; lia].
  assert (Hq : 1 <= 5 * d / 2 ^ impact_exp t).
  { apply Z.div_le_lower_bound; lia. }
  assert (Hq' : 5 * d / 2 ^ impact_exp t <= Z.abs corr).
  { apply Z.lt_succ_r. apply Z.div_lt_upper_bound; lia. }
  split.
  - rewrite Z.sgn_mul, (Z.sgn_pos (5 * d / 2 ^ impact_exp t)) by lia.
    rewrite Z.sgn_sgn. lia.
  - rewrite Z.abs_mul.
    assert (Hs : Z.abs (Z.sgn corr) = 1) by (destruct corr; cbn; lia).
    rewrite Hs. lia.
Qed.

(** The constants pass every start-up check, so start-up comes down to
    this: a drift bound of zero or less for the loop's interval panics
    ("invalid ... max correction"); otherwise the correction gauge is
    registered with the default registry, and a failed registration (as for
    a name that is registered already) panics with the registry's error;
    otherwise the loop runs its rounds with the ceiling
    [impact * MaxDrift(interval)], the gauge being registered. *)
Theorem loops_start_up u envs g reg :
  (5 * Z.abs (MaxDrift refClkInterval) < 2 ^ 53 ->
   RunLocalClockSync u envs g reg
   = if MaxDrift refClkInterval <=? 0
     then Panics "invalid reference clock max correction"
     else match Register SyncLocalCorrN SyncLocalCorrH reg with
          | inr msg => Panics msg
          | inl reg' =>
              Returns (reg',
                       rounds (round RefTier u
                                 (Float64.mul refClkImpact
                                    (Float64.of_int (MaxDrift refClkInterval))))
                         envs {| globals := g; ts := newTheilSen; pl := newPLL;
                                 corrGauge := Float64.zero |})
          end) /\
  (5 * Z.abs (MaxDrift netClkInterval) < 2 ^ 53 ->
   RunGlobalClockSync u envs g reg
   = if MaxDrift netClkInterval <=? 0
     then Panics "invalid network clock max correction"
     else match Register SyncGlobalCorrN SyncGlobalCorrH reg with
          | inr msg => Panics msg
          | inl reg' =>
              Returns (reg',
                       rounds (round NetTier u
                                 (Float64.mul netClkImpact
                                    (Float64.of_int (MaxDrift netClkInterval))))
                         envs {| globals := g; ts := newTheilSen; pl := newPLL;
                                 corrGauge := Float64.zero |})
          end).
Proof.
  split; intros H5.
  - unfold RunLocalClockSync.
    change (Float64.leb refClkImpact (Float64.of_int 1)) with false.
    change (refClkInterval <=? 0) with false.
    change ((refClkTimeout <? 0) || (refClkTimeout >? Z.quot refClkInterval 2))
      with false.
    cbv iota. unfold refClkImpact.
    rewrite Float64.leb_mul_five_zero by (assumption || lia).
    destruct (MaxDrift refClkInterval <=? 0); [reflexivity|].
    unfold NewGauge.
    destruct (Register SyncLocalCorrN SyncLocalCorrH reg); reflexivity.
  - unfold RunGlobalClockSync.
    change (Float64.leb netClkImpact (Float64.of_int 1)) with false.
    change (Float64.leb (Float64.sub netClkImpact (Float64.of_int 1)) refClkImpact)
      with false.
    change (netClkInterval <? refClkInterval) with false.
    change ((netClkTimeout <? 0) || (netClkTimeout >? Z.quot netClkInterval 2))
      with false.
    cbv iota. unfold netClkImpact.
    rewrite Float64.leb_mul_five_zero by (assumption || lia).
    destruct (MaxDrift netClkInterval <=? 0); [reflexivity|].
    unfold NewGauge.
    destruct (Register SyncGlobalCorrN SyncGlobalCorrH reg); reflexivity.
Qed.

(** The gauge reports what the estimators were fed: after a round it reads
    0 when no sample was fed, and [float64] of the sample otherwise. *)
Theorem gauge_reports_fed_sample (t : tier) u maxCorr env s :
  let r := round t u maxCorr env s in
  (fedToTheilSen (snd r) = [] /\ corrGauge (fst r) = Float64.zero) \/
  (exists c', fedToTheilSen (snd r) = [c'] /\
              corrGauge (fst r) = Float64.of_int c').
Proof.
  cbv zeta. rewrite round_unfold. cbv zeta. cbn [fst snd].
  rewrite !fed_app_TheilSen, (proj1 (fed_measureEvent t)).
  destruct (Z_le_gt_dec (Z.abs (aggregated t env (globals s))) (cutoff t))
    as [Hd|Hl].
  - left. rewrite discipline_dead by exact Hd. cbn. auto.
  - right.
    match goal with |- context [discipline ?co ?iv ?m ?uu ?c ?s0] =>
      destruct (discipline_live co iv m uu c s0 Hl)
        as (act & s' & E & Hact & _ & _ & _ & Hg)
    end.
    rewrite E. cbn [fst snd]. eexists. split; [|exact Hg].
    rewrite !fed_app_TheilSen.
    destruct Hact as [->|[[f ->]|(o & i & f & ->)]]; reflexivity.
Qed.

End Package.

Arguments localReferenceClock {ExtClock}.
Arguments externalClock {ExtClock} c.
Arguments refClks {ExtClock} r.
Arguments refClkOffsets {ExtClock} r.
Arguments netClks {ExtClock} r.
Arguments netClkOffsets {ExtClock} r.
Arguments unregistered {ExtClock}.
Arguments RegisterClocks {ExtClock} refClocks netClocks g.
Arguments aligned {ExtClock} g.
Arguments registered {ExtClock} g.
Arguments aggregated {ExtClock} t env g.
Arguments SyncToRefClocks {ExtClock} env g.
Arguments globals {ExtClock theilSen pll} l.
Arguments ts {ExtClock theilSen pll} l.
Arguments pl {ExtClock theilSen pll} l.
Arguments corrGauge {ExtClock theilSen pll} l.

(** *** A test bench

    External clocks are numbered from 0 and clock [i] reports the [i]-th
    offset of a list; the Theil-Sen stand-in remembers its samples and
    predicts the last one, the PLL stand-in counts its samples and asks for
    the sample to be slewed over one second. *)
Definition benchEnv (offsets : list Duration) : measurement nat :=
  fun i => (nth i offsets 0, None).
Definition benchClocks (n : nat) : slice (ReferenceClock nat) :=
  Some (map externalClock (seq 0 n)).
Definition benchRegistry (nref nnet : nat) : registry nat :=
  match RegisterClocks (benchClocks nref) (benchClocks nnet) unregistered with
  | Returns g => g
  | Panics _ => unregistered
  end.
Definition benchAddSample (l : list Duration) (c : Duration) : list Duration :=
  l ++ [c].
Definition benchGetOffsetNs (l : list Duration) : float64 :=
  Float64.of_int (last l 0).
Definition benchPLL (n : nat) (c : Duration) (w : float64)
  : nat * (float64 * float64 * float64) :=
  (S n, (Float64.of_int c, Float64.of_int 1, Float64.zero)).
Definition benchLoop (g : registry nat) : loop nat (list Duration) nat :=
  {| globals := g; ts := []; pl := O; corrGauge := Float64.zero |}.
Definition benchRound (maxDrift : Duration) (t : tier) (u : bool)
  (offsets : list Duration) (g : registry nat)
  : loop nat (list Duration) nat * list event :=
  round nat (list Duration) benchAddSample benchGetOffsetNs nat benchPLL
    Float64.to_int t u
    (Float64.mul (impact t) (Float64.of_int maxDrift)) (benchEnv offsets)
    (benchLoop g).

(** The spec's clamp scenario: reference tier, [MaxDrift(2s) = 10 us], one
    source reporting +500 us; both estimators are fed exactly 12.5 us. *)
Example clamp_scenario :
  let tr := snd (benchRound 10000 RefTier false [500000] (benchRegistry 1 0)) in
  fedToTheilSen tr = [12500] /\ fedToPLL tr = [12500].
Proof. vm_compute. split; reflexivity. Qed.

Lemma clamp_law_witness :
  let tr := snd (benchRound 10000 RefTier false [500000] (benchRegistry 1 0)) in
  (0 < 10000 /\ 5 * 10000 < 2 ^ 53 /\
   Z.abs (aggregated RefTier (benchEnv [500000]) (benchRegistry 1 0))
   > cutoff RefTier) /\
  exists c',
    fedToTheilSen tr = [c'] /\ fedToPLL tr = [c'] /\
    (inject_Z (Z.abs c') <= impactQ RefTier * inject_Z 10000)%Q /\
    ((inject_Z (Z.abs 500000) <= impactQ RefTier * inject_Z 10000)%Q ->
     c' = 500000) /\
    (~ (inject_Z (Z.abs 500000) <= impactQ RefTier * inject_Z 10000)%Q ->
     c' = Z.sgn 500000 * Qfloor (impactQ RefTier * inject_Z 10000)).
Proof.
  cbv zeta. split.
  - repeat split.
  - exact (clamp_law nat (list Duration) benchAddSample benchGetOffsetNs nat
             benchPLL (fun _ => 10000) Float64.to_int RefTier false
             (benchEnv [500000]) (benchLoop (benchRegistry 1 0))
             eq_refl eq_refl eq_refl).
Defined.

(** C1 (counterexample): reference tier with [MaxDrift(2s) = 1 ns], so the
    ceiling is 1.25 ns, and an aggregated offset of 2 ns.  The offset is
    above the ceiling, yet the estimators are fed 1 ns, which is not
    [sign(corr) * impact * MaxDrift(interval)] = 1.25 ns. *)
Lemma clamp_feeds_whole_nanoseconds :
  let tr := snd (benchRound 1 RefTier false [2] (benchRegistry 1 0)) in
  aggregated RefTier (benchEnv [2]) (benchRegistry 1 0) = 2 /\
  ~ (inject_Z (Z.abs 2) <= impactQ RefTier * inject_Z 1)%Q /\
  fedToTheilSen tr = [1] /\ fedToPLL tr = [1] /\
  ~ (inject_Z 1 == inject_Z (Z.sgn 2) * (impactQ RefTier * inject_Z 1))%Q.
Proof.
  cbv zeta. split; [reflexivity|]. split; [|split; [|split]].
  - unfold Qle; cbn; lia.
  - vm_compute; reflexivity.
  - vm_compute; reflexivity.
  - unfold Qeq; cbn; lia.
Qed.

Lemma dead_zone_round_witness :
  let r := benchRound 10000 NetTier true [700; -900] (benchRegistry 0 2) in
  Z.abs (aggregated NetTier (benchEnv [700; -900]) (benchRegistry 0 2))
  <= cutoff NetTier /\
  (snd r = [EvGaugeSet Float64.zero; measureEvent NetTier;
            EvSleep (interval NetTier)] /\
   filter is_estimator_event (snd r) = [] /\
   filter is_actuation_event (snd r) = [] /\
   ts (fst r) = [] /\ pl (fst r) = O /\
   corrGauge (fst r) = Float64.zero).
Proof.
  cbv zeta. split.
  - vm_compute. discriminate.
  - apply (dead_zone_round nat (list Duration) benchAddSample benchGetOffsetNs
             nat benchPLL Float64.to_int NetTier true
             (Float64.mul (impact NetTier) (Float64.of_int 10000))
             (benchEnv [700; -900]) (benchLoop (benchRegistry 0 2))).
    vm_compute. discriminate.
Defined.

(** The spec's start-up scenario: two sources reporting +1 s and +1.2 s;
    [Step] is called once, with the median +1.1 s. *)
Example startup_step_scenario :
  snd (SyncToRefClocks (benchEnv [1000000000; 1200000000]) (benchRegistry 2 0))
  = [EvMeasureRef (1 * Second); EvStep 1100000000].
Proof. vm_compute. reflexivity. Qed.

Lemma RegisterClocks_stores_witness :
  RegisterClocks (benchClocks 1) (benchClocks 2) unregistered
  = Returns (benchRegistry 1 2) /\
  netClks (benchRegistry 1 2)
  = Some [externalClock 0%nat; externalClock 1%nat; localReferenceClock] /\
  netClkOffsets (benchRegistry 1 2) = Some [0; 0; 0].
Proof.
  split; [reflexivity|].
  destruct (RegisterClocks_stores nat (benchClocks 1) (benchClocks 2)
              unregistered (benchRegistry 1 2) eq_refl)
    as (_ & Hn & _ & Ho & _).
  split; [exact Hn | exact Ho].
Defined.

(** Registering an empty, non-nil list of reference clocks and no network
    clocks is enough to make the next registration panic. *)
Lemma RegisterClocks_once_witness :
  let g := {| refClks := Some []; refClkOffsets := Some [];
              netClks := None; netClkOffsets := Some [] |} in
  RegisterClocks (Some []) None (@unregistered nat) = Returns g /\
  is_nil (Some (@nil (ReferenceClock nat)))
  && is_nil (@None (list (ReferenceClock nat))) = false /\
  RegisterClocks None None g = Panics "reference clocks already registered".
Proof.
  cbv zeta. split; [reflexivity|]. split; [reflexivity|].
  exact (RegisterClocks_once nat (Some []) None unregistered _ None None
           eq_refl eq_refl).
Defined.

Lemma clamp_keeps_direction_witness :
  (0 < 10000 /\ 5 * 10000 < 2 ^ 53 /\ -500000 <> 0) /\
  let c' := clampCorr (Float64.mul (impact NetTier) (Float64.of_int 10000))
              (-500000) in
  Z.sgn c' = Z.sgn (-500000) /\ Z.abs c' <= Z.abs (-500000).
Proof.
  split; [repeat split; discriminate|].
  apply (clamp_keeps_direction NetTier 10000 (-500000));
    [reflexivity | reflexivity | discriminate].
Defined.

(** A registry that holds the names registered so far and refuses a name
    it holds already. *)
Definition benchRegister (name help : string) (reg : list string)
  : list string + string :=
  if existsb (String.eqb name) reg
  then inr "duplicate metrics collector registration attempted"%string
  else inl (name :: reg).
Definition benchRunLocal (maxDrift : Duration) :=
  RunLocalClockSync nat (list Duration) [] benchAddSample benchGetOffsetNs
    nat O benchPLL (fun _ => maxDrift) Float64.to_int
    (list string) benchRegister "sync_local_corr"%string
    "local correction"%string.

(** Start-up with the bench clock: a drift bound of 0 makes the reference
    loop panic before it registers its gauge. *)
Example startup_panics_without_drift :
  benchRunLocal 0 false [] (benchRegistry 1 0) []
  = Panics "invalid reference clock max correction".
Proof. vm_compute. reflexivity. Qed.

(** With a drift bound of 10 us the loop starts and its gauge is
    registered; started again in the same process, it panics. *)
Example startup_panics_on_second_start :
  exists r,
    benchRunLocal 10000 false [] (benchRegistry 1 0) []
    = Returns (["sync_local_corr"%string], r) /\
    benchRunLocal 10000 false [] (benchRegistry 1 0) ["sync_local_corr"%string]
    = Panics "duplicate metrics collector registration attempted".
Proof. eexists. split; vm_compute; reflexivity. Qed.

End sync.

(** ** [net/netip]: addresses built from byte slices (no zones) *)

Module netip.
Inductive Addr : Type :=
| Zero
| V4 (b : list Z)
| V6 (b : list Z).

Fixpoint eqb_bytes (x y : list Z) : bool :=
  match x, y with
  | [], [] => true
  | a :: x', b :: y' => (a =? b) && eqb_bytes x' y'
  | _, _ => false
  end.

(** [AddrFromSlice]: 4 bytes give an IPv4 address, 16 bytes an IPv6 address,
    any other length fails. *)
Definition AddrFromSlice (x : list Z) : Addr * bool :=
  if Nat.eqb (List.length x) 4 then (V4 x, true)
  else if Nat.eqb (List.length x) 16 then (V6 x, true)
  else (Zero, false).

Definition v4InV6Prefix : list Z := [0; 0; 0; 0; 0; 0; 0; 0; 0; 0; 255; 255].

Definition Is4In6 (a : Addr) : bool :=
  match a with
  | V6 b => eqb_bytes (firstn 12 b) v4InV6Prefix
  | _ => false
  end.

(** [As4] panics on the zero address and on a proper IPv6 address. *)
Definition As4 (a : Addr) : outcome (list Z) :=
  match a with
  | V4 b => Returns b
  | V6 b => if Is4In6 a then Returns (skipn 12 b)
            else Panics "As4 called on IPv6 address"
  | Zero => Panics "As4 called on IP zero value"
  end.

Definition AddrFrom4 (b : list Z) : Addr := V4 b.

Definition BitLen (a : Addr) : Z :=
  match a with Zero => 0 | V4 _ => 32 | V6 _ => 128 end.

Definition bytes (a : Addr) : list Z :=
  match a with Zero => [] | V4 b => b | V6 b => b end.

Fixpoint cmp_bytes (x y : list Z) : Z :=
  match x, y with
  | a :: x', b :: y' =>
      if a <? b then -1 else if b <? a then 1 else cmp_bytes x' y'
  | [], _ :: _ => -1
  | _ :: _, [] => 1
  | [], [] => 0
  end.

(** [Compare]: by bit length first, then by address value. *)
Definition Compare (a b : Addr) : Z :=
  if BitLen a <? BitLen b then -1
  else if BitLen b <? BitLen a then 1
  else cmp_bytes (bytes a) (bytes b).

(** The zero [AddrPort] is the pair of the zero address and port 0. *)
Definition AddrPort : Type := Addr * Z.
Definition AddrPort_zero : AddrPort := (Zero, 0).
Definition AddrPort_eqb (p q : AddrPort) : bool :=
  match fst p, fst q with
  | Zero, Zero => snd p =? snd q
  | V4 x, V4 y | V6 x, V6 y => eqb_bytes x y && (snd p =? snd q)
  | _, _ => false
  end.

Lemma eqb_bytes_eq x : forall y, eqb_bytes x y = true <-> x = y.
Proof.
  induction x as [|a x IH]; intros [|b y]; cbn; split; try discriminate; auto.
  - intros H. apply andb_true_iff in H. destruct H as [H1 H2].
    apply Z.eqb_eq in H1. apply IH in H2. congruence.
  - intros H. injection H as -> ->. rewrite Z.eqb_refl. cbn. apply IH. reflexivity.
Qed.

Lemma cmp_bytes_zero x : forall y, cmp_bytes x y = 0 <-> x = y.
Proof.
  induction x as [|a x IH]; intros [|b y]; cbn; split; try discriminate; auto.
  - destruct (Z.ltb_spec a b) as [L1|L1]; [discriminate|].
    destruct (Z.ltb_spec b a) as [L2|L2]; [discriminate|].
    intros Hc. apply IH in Hc. f_equal; [lia | exact Hc].
  - intros H. injection H as -> ->. rewrite Z.ltb_irrefl. apply IH. reflexivity.
Qed.

Lemma cmp_bytes_antisym x : forall y, cmp_bytes y x = - cmp_bytes x y.
Proof.
  induction x as [|a x IH]; intros [|b y]; cbn; try reflexivity.
  destruct (Z.ltb_spec a b); destruct (Z.ltb_spec b a); try reflexivity; try lia.
  apply IH.
Qed.
End netip.

(** ** Package [go/driver/ntp] (scion.go) *)

Module driver.
Import timemath.
Definition float64 : Type := Float64.t.

(** [time.Time] as a wall-clock instant in nanoseconds. *)
Definition Time : Type := Z.
Definition Second : Duration := 1000000000.
Definition minDuration : Duration := - 2 ^ 63.
Definition maxDuration : Duration := 2 ^ 63 - 1.

(** [t.Sub(u)] saturates at the ends of the [Duration] range. *)
Definition Time_Sub (t u : Time) : Duration :=
  if t - u <? minDuration then minDuration
  else if t - u >? maxDuration then maxDuration
  else t - u.
Definition Time_Before (t u : Time) : bool := t <? u.

(** Modelled from the spec: [ntp.Time64], a "64-bit NTP timestamp"; the
    zero value is 0 (package [go/net/ntp] is not among the sources). *)
Definition Time64 : Type := Z.

(** Modelled from the spec: [ntp.Packet], "the classical 48-byte structure",
    with the fields the spec lists, and the setters of version and mode. *)
Record Packet : Type := {
  Leap : Z; Version : Z; Mode : Z; Stratum : Z; Poll : Z; Precision : Z;
  RootDelay : Z; RootDispersion : Z; ReferenceID : Z; ReferenceTime : Time64;
  OriginTime : Time64; ReceiveTime : Time64; TransmitTime : Time64
}.
Definition Packet_zero : Packet :=
  {| Leap := 0; Version := 0; Mode := 0; Stratum := 0; Poll := 0;
     Precision := 0; RootDelay := 0; RootDispersion := 0; ReferenceID := 0;
     ReferenceTime := 0; OriginTime := 0; ReceiveTime := 0; TransmitTime := 0 |}.
Definition VersionMax : Z := 4.
Definition ModeClient : Z := 3.
Definition SetVersion (v : Z) (p : Packet) : Packet :=
  {| Leap := Leap p; Version := v; Mode := Mode p; Stratum := Stratum p;
     Poll := Poll p; Precision := Precision p; RootDelay := RootDelay p;
     RootDispersion := RootDispersion p; ReferenceID := ReferenceID p;
     ReferenceTime := ReferenceTime p; OriginTime := OriginTime p;
     ReceiveTime := ReceiveTime p; TransmitTime := TransmitTime p |}.
Definition SetMode (m : Z) (p : Packet) : Packet :=
  {| Leap := Leap p; Version := Version p; Mode := m; Stratum := Stratum p;
     Poll := Poll p; Precision := Precision p; RootDelay := RootDelay p;
     RootDispersion := RootDispersion p; ReferenceID := ReferenceID p;
     ReferenceTime := ReferenceTime p; OriginTime := OriginTime p;
     ReceiveTime := ReceiveTime p; TransmitTime := TransmitTime p |}.
Definition with_timestamps (origin receive transmit : Time64) (p : Packet)
  : Packet :=
  {| Leap := Leap p; Version := Version p; Mode := Mode p; Stratum := Stratum p;
     Poll := Poll p; Precision := Precision p; RootDelay := RootDelay p;
     RootDispersion := RootDispersion p; ReferenceID := ReferenceID p;
     ReferenceTime := ReferenceTime p; OriginTime := origin;
     ReceiveTime := receive; TransmitTime := transmit |}.

(** Modelled from the spec: the layout of the authenticator option data,
    "SPI (4B), algorithm (1B), reserved/timestamp/sequence (7B), MAC (16B)". *)
Definition PacketAuthMetadataLen : nat := 12.
Definition PacketAuthMACLen : nat := 16.
Definition PacketAuthOptDataLen : nat := 28.

Inductive error : Type :=
| errUnexpectedPacketFlags
| errUnexpectedPacket
| errExternal (msg : string).

Inductive LayerType : Type :=
| LayerTypeSCION
| LayerTypeHopByHopExtn
| LayerTypeEndToEndExtn
| LayerTypeSCIONUDP
| LayerTypeSCMP
| LayerTypeZero.

Definition LayerType_eqb (a b : LayerType) : bool :=
  match a, b with
  | LayerTypeSCION, LayerTypeSCION
  | LayerTypeHopByHopExtn, LayerTypeHopByHopExtn
  | LayerTypeEndToEndExtn, LayerTypeEndToEndExtn
  | LayerTypeSCIONUDP, LayerTypeSCIONUDP
  | LayerTypeSCMP, LayerTypeSCMP
  | LayerTypeZero, LayerTypeZero => true
  | _, _ => false
  end.

Inductive L4ProtocolType : Type := L4None | L4UDP | End2EndClass.

Record EndToEndOption : Type := {
  OptType : Z;
  OptData : list Z;
  OptAlign : Z * Z;
  OptDataLen : Z;
  ActualLength : Z
}.

(** [e2eLayer.FindOption]: the first option of the given type, if any. *)
Definition FindOption (ty : Z) (opts : list EndToEndOption)
  : option EndToEndOption :=
  find (fun o => OptType o =? ty) opts.

Record UDPAddr : Type := { IA : Z; Host_IP : list Z; Host_Port : Z }.

(** The parts of [slayers.SCION] the client reads and writes. *)
Record SCION : Type := {
  SrcIA : Z; DstIA : Z;
  RawSrcAddr : list Z; RawDstAddr : list Z;
  NextHdr : L4ProtocolType;
  PathSet : bool
}.

Record MACInput : Type := {
  Key : list Z;
  Header : EndToEndOption;
  ScionLayer : SCION;
  PldType : L4ProtocolType;
  Pld : list Z
}.

Record HostHostMeta : Type := {
  ProtoId : Z; Validity : Time;
  meta_SrcIA : Z; meta_DstIA : Z;
  SrcHost : string; DstHost : string
}.

(** The fields [c.prev.reference], [c.prev.cTxTime], [c.prev.cRxTime] and
    [c.prev.sRxTime]. *)
Record prevExchange : Type := {
  prev_reference : string;
  prev_cTxTime : Time64;
  prev_cRxTime : Time64;
  prev_sRxTime : Time64
}.

(** [SCIONClient]; the scratch buffer [auth.buf] is private to
    [spao.ComputeAuthCMAC] and is not tracked. *)
Record SCIONClient : Type := {
  InterleavedMode : bool;
  DRKeyFetcher : bool;             (* the pointer is not nil *)
  auth_opt : option EndToEndOption;
  auth_mac : list Z;
  prev : prevExchange
}.

Definition defaultSCIONClient : SCIONClient :=
  {| InterleavedMode := false; DRKeyFetcher := false; auth_opt := None;
     auth_mac := [];
     prev := {| prev_reference := ""; prev_cTxTime := 0; prev_cRxTime := 0;
               prev_sRxTime := 0 |} |}.

Definition compareIPs (x y : list Z) : outcome Z :=
  let '(addrX, okX) := netip.AddrFromSlice x in
  let '(addrY, okY) := netip.AddrFromSlice y in
  if negb okX || negb okY then Panics "unexpected IP address byte slice"
  else
    bind (if netip.Is4In6 addrX
          then bind (netip.As4 addrX) (fun b => Returns (netip.AddrFrom4 b))
          else Returns addrX) (fun addrX =>
    bind (if netip.Is4In6 addrY
          then bind (netip.As4 addrY) (fun b => Returns (netip.AddrFrom4 b))
          else Returns addrY) (fun addrY =>
    Returns (netip.Compare addrX addrY))).

(** Go's [copy(dst, src)]: the overwritten destination. *)
Definition copy (dst src : list Z) : list Z :=
  firstn (List.length dst) src ++ skipn (List.length src) dst.

(** [subtle.ConstantTimeCompare(x, y) != 0]. *)
Definition ConstantTimeCompare_ne0 (x y : list Z) : bool := netip.eqb_bytes x y.

(** The four bytes of a 32-bit SPI, most significant first, and back. *)
Definition spi_bytes (spi : Z) : list Z :=
  [Z.land (Z.shiftr spi 24) 255; Z.land (Z.shiftr spi 16) 255;
   Z.land (Z.shiftr spi 8) 255; Z.land spi 255].
Definition spi_of (authOptData : list Z) : Z :=
  Z.lor (Z.lor (Z.lor (nth 3 authOptData 0)
                      (Z.shiftl (nth 2 authOptData 0) 8))
               (Z.shiftl (nth 1 authOptData 0) 16))
        (Z.shiftl (nth 0 authOptData 0) 24).
Definition algo_of (authOptData : list Z) : Z := nth 4 authOptData 0.

(** *** Comparing host addresses *)

(** An address slice with an IPv4-mapped IPv6 address folded to its four
    IPv4 bytes. *)
Definition unmapped (x : list Z) : list Z :=
  if Nat.eqb (List.length x) 16
     && netip.eqb_bytes (firstn 12 x) netip.v4InV6Prefix
  then skipn 12 x else x.

Definition validLen (x : list Z) : Prop :=
  List.length x = 4%nat \/ List.length x = 16%nat.

Lemma compareIPs_valid x y :
  validLen x -> validLen y ->
  compareIPs x y
  = Returns (netip.Compare
               (if Nat.eqb (List.length (unmapped x)) 4
                then netip.V4 (unmapped x) else netip.V6 (unmapped x))
               (if Nat.eqb (List.length (unmapped y)) 4
                then netip.V4 (unmapped y) else netip.V6 (unmapped y))).
Proof.
  assert (Hone : forall z, validLen z ->
    netip.AddrFromSlice z
    = ((if Nat.eqb (List.length z) 4 then netip.V4 z else netip.V6 z), true) /\
    (if netip.Is4In6 (if Nat.eqb (List.length z) 4 then netip.V4 z else netip.V6 z)
     then bind (netip.As4 (if Nat.eqb (List.length z) 4 then netip.V4 z
                           else netip.V6 z))
            (fun b => Returns (netip.AddrFrom4 b))
     else Returns (if Nat.eqb (List.length z) 4 then netip.V4 z else netip.V6 z))
    = Returns (if Nat.eqb (List.length (unmapped z)) 4
               then netip.V4 (unmapped z) else netip.V6 (unmapped z))).
  { intros z [Hz|Hz]; unfold netip.AddrFromSlice, unmapped; rewrite Hz; cbn [Nat.eqb andb].
    - split; [reflexivity|]. cbn. rewrite Hz. reflexivity.
    - split; [reflexivity|]. cbn [netip.Is4In6 netip.As4].
      destruct (netip.eqb_bytes (firstn 12 z) netip.v4InV6Prefix) eqn:E.
      + cbn [bind netip.AddrFrom4].
        assert (Hl : List.length (skipn 12 z) = 4%nat) by (rewrite length_skipn; lia).
        rewrite Hl. reflexivity.
      + rewrite Hz. reflexivity. }
  intros Hx Hy. unfold compareIPs.
  destruct (Hone x Hx) as [Ex Ux]. destruct (Hone y Hy) as [Ey Uy].
  rewrite Ex, Ey. cbn [negb orb]. rewrite Ux, Uy. reflexivity.
Qed.

(** Host addresses are compared with IPv4-mapped IPv6 addresses folded to
    IPv4: for slices of 4 or 16 bytes the comparison never panics, and it
    yields 0 exactly when the folded addresses are the same bytes. *)
Theorem compareIPs_folds_mapped_addresses x y :
  validLen x -> validLen y ->
  (exists r, compareIPs x y = Returns r) /\
  (compareIPs x y = Returns 0 <-> unmapped x = unmapped y).
Proof.
  intros Hx Hy. rewrite (compareIPs_valid x y Hx Hy).
  split; [eauto|].
  assert (Hlen : forall z, validLen z ->
            List.length (unmapped z) = 4%nat \/ List.length (unmapped z) = 16%nat).
  { intros z [Hz|Hz]; unfold unmapped; rewrite Hz; cbn [Nat.eqb andb]; auto.
    destruct (netip.eqb_bytes _ _); [left; rewrite length_skipn; lia | auto]. }
  destruct (Hlen x Hx) as [Lx|Lx], (Hlen y Hy) as [Ly|Ly];
    rewrite Lx, Ly; cbn [Nat.eqb]; unfold netip.Compare; cbn.
  - split.
    + intros H. injection H as H. apply netip.cmp_bytes_zero. exact H.
    + intros H. f_equal. apply netip.cmp_bytes_zero. exact H.
  - split; [discriminate | intros H; rewrite H in Lx; lia].
  - split; [discriminate | intros H; rewrite H in Lx; lia].
  - split.
    + intros H. injection H as H. apply netip.cmp_bytes_zero. exact H.
    + intros H. f_equal. apply netip.cmp_bytes_zero. exact H.
Qed.

(** A slice that is neither 4 nor 16 bytes long, on either side, makes the
    comparison panic. *)
Theorem compareIPs_panics_on_other_lengths x y :
  ~ (validLen x /\ validLen y) ->
  compareIPs x y = Panics "unexpected IP address byte slice".
Proof.
  unfold validLen, compareIPs, netip.AddrFromSlice. intros H.
  destruct (Nat.eqb_spec (List.length x) 4) as [X4|X4];
    [|destruct (Nat.eqb_spec (List.length x) 16) as [X16|X16]];
    (destruct (Nat.eqb_spec (List.length y) 4) as [Y4|Y4];
     [|destruct (Nat.eqb_spec (List.length y) 16) as [Y16|Y16]]);
    try reflexivity; exfalso; apply H; auto.
Qed.

(** Swapping the arguments negates the result. *)
Theorem compareIPs_antisymmetric x y r :
  compareIPs x y = Returns r -> compareIPs y x = Returns (- r).
Proof.
  intros H.
  assert (Hv : validLen x /\ validLen y).
  { unfold validLen. revert H. unfold compareIPs, netip.AddrFromSlice.
    destruct (Nat.eqb_spec (List.length x) 4) as [X4|X4];
      [|destruct (Nat.eqb_spec (List.length x) 16) as [X16|X16]];
      (destruct (Nat.eqb_spec (List.length y) 4) as [Y4|Y4];
       [|destruct (Nat.eqb_spec (List.length y) 16) as [Y16|Y16]]);
      try discriminate; auto. }
  destruct Hv as [Hx Hy].
  rewrite (compareIPs_valid x y Hx Hy) in H. rewrite (compareIPs_valid y x Hy Hx).
  injection H as <-. f_equal.
  set (a := if Nat.eqb (List.length (unmapped x)) 4 then _ else _).
  set (b := if Nat.eqb (List.length (unmapped y)) 4 then _ else _).
  unfold netip.Compare.
  destruct (Z.ltb_spec (netip.BitLen a) (netip.BitLen b));
    destruct (Z.ltb_spec (netip.BitLen b) (netip.BitLen a)); try reflexivity; try lia.
  apply netip.cmp_bytes_antisym.
Qed.

(** *** The authenticator option *)

Lemma testbit_255 m : 0 <= m -> Z.testbit 255 m = (m <? 8).
Proof.
  intros Hm. change 255 with (Z.ones 8).
  destruct (Z.ltb_spec m 8).
  - apply Z.ones_spec_low. lia.
  - apply Z.ones_spec_high. lia.
Qed.

Lemma byte_bit spi k n :
  0 <= k -> 0 <= n ->
  Z.testbit (Z.shiftl (Z.land (Z.shiftr spi k) 255) k) n
  = (k <=? n) && (n <? k + 8) && Z.testbit spi n.
Proof.
  intros Hk Hn. rewrite Z.shiftl_spec by lia.
  destruct (Z.leb_spec k n) as [L|G].
  - rewrite Z.land_spec, Z.shiftr_spec, testbit_255 by lia.
    replace (n - k + k) with n by lia.
    cbn [andb]. rewrite andb_comm. f_equal.
    destruct (Z.ltb_spec (n - k) 8); destruct (Z.ltb_spec n (k + 8));
      try reflexivity; lia.
  - rewrite Z.testbit_neg_r by lia. reflexivity.
Qed.

(** The SPI is written (lines 181-184) and read (lines 338-341) most
    significant byte first: reading the four bytes written for a 32-bit
    SPI gives the SPI back, whatever follows them. *)
Theorem spi_round_trip spi rest :
  0 <= spi < 2 ^ 32 -> spi_of (spi_bytes spi ++ rest) = spi.
Proof.
  intros Hs. unfold spi_of, spi_bytes. cbn [nth app].
  apply Z.bits_inj'. intros n Hn.
  rewrite <- (Z.shiftl_0_r (Z.land spi 255)).
  rewrite <- (Z.shiftr_0_r spi) at 1.
  rewrite !Z.lor_spec, !byte_bit by lia.
  destruct (Z.ltb_spec n 32) as [L|G].
  - destruct (Z.testbit spi n); [|rewrite !andb_false_r; reflexivity].
    rewrite !andb_true_r.
    destruct (Z.leb_spec 0 n); destruct (Z.ltb_spec n (0 + 8));
      destruct (Z.leb_spec 8 n); destruct (Z.ltb_spec n (8 + 8));
      destruct (Z.leb_spec 16 n); destruct (Z.ltb_spec n (16 + 8));
      destruct (Z.leb_spec 24 n); destruct (Z.ltb_spec n (24 + 8));
      try reflexivity; lia.
  - assert (Hb : Z.testbit spi n = false).
    { destruct (Z.eq_dec spi 0) as [->|Hne]; [apply Z.bits_0|].
      apply Z.bits_above_log2; [lia|].
      assert (Z.log2 spi < 32) by (apply Z.log2_lt_pow2; lia). lia. }
    rewrite Hb, !andb_false_r. reflexivity.
Qed.

Section Exchange.
(** Functions and constants of packages outside the two files. *)
Variable TimeFromTime64 : Time64 -> Time.
Variable Time64FromTime : Time -> Time64.
Variable IA_String : Z -> string.
Variable Host_String : list Z -> Z -> string.
Variable IP_String : list Z -> string.
Variable TimestampFromOOBData : list Z -> option Time.
Variable EncodePacket : Packet -> list Z.
Variable DecodePacket : list Z -> Packet + error.
Variable ValidateMetadata : Packet -> option error.
Variable ValidateTimestamps : Time -> Time -> Time -> Time -> option error.
Variable filter : string -> Time -> Time -> Time -> Time -> Duration * float64.
Variable ComputeAuthCMAC : MACInput -> list Z + string.
Variable serializedUDP : Z -> Z -> SCION -> list Z -> list Z.
Variable PacketAuthClientSPI PacketAuthServerSPI PacketAuthAlgorithm : Z.
Variable OptTypeTimestamp OptTypeAuthenticator : Z.
Variable DRKeyProtoIdTS EndhostPort : Z.

(** What the environment answers to the calls made before the receive loop. *)
Record exchangeEnv : Type := {
  listenErr : option error;
  ctxDeadline : option Time;
  setDeadlineErr : option error;
  localPort : Z;
  underlayNextHop : netip.AddrPort;
  now0 : Time;
  setSrcAddrErr : option string;
  setDstAddrErr : option string;
  setPathErr : option string;
  payloadSerializeErr : option string;
  udpSerializeErr : option string;
  hostHostKey : HostHostMeta -> option (list Z);
  e2eSerializeErr : option string;
  scionSerializeErr : option string;
  wireLen : Z;
  written : Z * option error;
  txTimestamp : Time * Z * option error;
  nowTx : Time
}.

(** One round of the receive loop: what [ReadMsgUDPAddrPort], the layer
    parser and the clock answer. *)
Record datagram : Type := {
  readErr : option error;
  flags : Z;
  oob : list Z;
  nowRx : Time;
  decodeErr : option error;
  decoded : list LayerType;
  scion : SCION;
  e2eOptions : list EndToEndOption;
  udpLength : Z;
  udpPayload : list Z;
  buf : list Z;
  nowChk : Time
}.

(** The packet handed to [WriteToUDPAddrPort]. *)
Record request : Type := {
  wire_ntp : Packet;
  wire_srcPort : Z;
  wire_dstPort : Z;
  wire_e2e : option EndToEndOption;
  wire_scion : SCION;
  wire_nextHop : netip.AddrPort
}.

(** What line 423 logs about a completed exchange. *)
Record measurementLog : Type := {
  interleaved : bool;
  authenticated : bool;
  t0 : Time; t1 : Time; t2 : Time; t3 : Time
}.

Inductive finished : Type :=
| Done (offset : Duration) (weight : float64) (err : option error)
       (lg : option measurementLog)
| Panicked (msg : string)
| Reading.

Record result : Type := {
  client : SCIONClient;
  sent : option request;
  fin : finished
}.

(** Lines 65-70. *)
Definition allocAuth (c : SCIONClient) : SCIONClient :=
  match DRKeyFetcher c, auth_opt c with
  | true, None =>
      {| InterleavedMode := InterleavedMode c; DRKeyFetcher := DRKeyFetcher c;
         auth_opt := Some {| OptType := 0;
                             OptData := repeat 0 PacketAuthOptDataLen;
                             OptAlign := (0, 0); OptDataLen := 0;
                             ActualLength := 0 |};
         auth_mac := repeat 0 PacketAuthMACLen;
         prev := prev c |}
  | _, _ => c
  end.

(** Lines 89-100. *)
Definition nextHopOf (x : exchangeEnv) (localAddr remoteAddr : UDPAddr)
  : outcome netip.AddrPort :=
  let nextHop := underlayNextHop x in
  let nextHopAddr := fst nextHop in
  bind (if netip.Is4In6 nextHopAddr
        then bind (netip.As4 nextHopAddr) (fun b =>
               Returns (netip.AddrFrom4 b, snd nextHop))
        else Returns nextHop) (fun nextHop =>
  if netip.AddrPort_eqb nextHop netip.AddrPort_zero
     && (IA remoteAddr =? IA localAddr)
  then bind (netip.As4 (fst (netip.AddrFromSlice (Host_IP remoteAddr))))
         (fun b => Returns (netip.AddrFrom4 b, EndhostPort))
  else Returns nextHop).

(** Line 107. *)
Definition referenceOf (remoteAddr : UDPAddr) : string :=
  (IA_String (IA remoteAddr) ++ ","
   ++ Host_String (Host_IP remoteAddr) (Host_Port remoteAddr))%string.

(** Lines 110-120. *)
Definition ntpRequest (c : SCIONClient) (ref : string) (cTxTime0 : Time)
  : Packet :=
  let ntpreq := SetMode ModeClient (SetVersion VersionMax Packet_zero) in
  if InterleavedMode c && String.eqb ref (prev_reference (prev c))
     && (Time_Sub cTxTime0 (TimeFromTime64 (prev_cTxTime (prev c))) <=? Second)
  then with_timestamps (prev_sRxTime (prev c)) (prev_cRxTime (prev c)) (prev_cTxTime (prev c))
         ntpreq
  else with_timestamps (OriginTime ntpreq) (ReceiveTime ntpreq)
         (Time64FromTime cTxTime0) ntpreq.

(** Lines 180-201: the authenticator option before the MAC is computed. *)
Definition requestAuthOption (o : EndToEndOption) : EndToEndOption :=
  {| OptType := OptTypeAuthenticator;
     OptData := copy (OptData o)
                  (spi_bytes PacketAuthClientSPI
                   ++ [Z.land PacketAuthAlgorithm 255]
                   ++ repeat 0 23);
     OptAlign := (4, 2); OptDataLen := 0; ActualLength := 0 |}.

Definition with_mac (o : EndToEndOption) (mac : list Z) : EndToEndOption :=
  {| OptType := OptType o;
     OptData := firstn PacketAuthMetadataLen (OptData o)
                ++ copy (skipn PacketAuthMetadataLen (OptData o)) mac;
     OptAlign := OptAlign o; OptDataLen := OptDataLen o;
     ActualLength := ActualLength o |}.

Definition with_NextHdr (h : L4ProtocolType) (s : SCION) : SCION :=
  {| SrcIA := SrcIA s; DstIA := DstIA s; RawSrcAddr := RawSrcAddr s;
     RawDstAddr := RawDstAddr s; NextHdr := h; PathSet := PathSet s |}.

Definition with_auth (c : SCIONClient) (o : option EndToEndOption)
  (mac : list Z) : SCIONClient :=
  {| InterleavedMode := InterleavedMode c; DRKeyFetcher := DRKeyFetcher c;
     auth_opt := o; auth_mac := mac; prev := prev c |}.

Definition with_prev (c : SCIONClient) (p : prevExchange) : SCIONClient :=
  {| InterleavedMode := InterleavedMode c; DRKeyFetcher := DRKeyFetcher c;
     auth_opt := auth_opt c; auth_mac := auth_mac c; prev := p |}.

(** The deadline check made before every [continue] of the error paths. *)
Definition beforeDeadline (deadline : option Time) (d : datagram) : bool :=
  match deadline with
  | Some dl => Time_Before (nowChk d) dl
  | None => false
  end.

Inductive step : Type :=
| Continue (c : SCIONClient)
| Finish (c : SCIONClient) (f : finished).

(** An error path of the loop: keep reading before the deadline, return
    the error otherwise. *)
Definition retryOrReturn (deadline : option Time) (d : datagram)
  (c : SCIONClient) (e : error) : step :=
  if beforeDeadline deadline d then Continue c
  else Finish c (Done 0 Float64.zero (Some e) None).

(** Lines 308-311: [validSrc] and [validDst]; [&&] does not evaluate
    [compareIPs] when the IAs differ. *)
Definition validAddr (ia : Z) (raw : list Z) (a : UDPAddr) : outcome bool :=
  if ia =? IA a
  then bind (compareIPs raw (Host_IP a)) (fun r => Returns (r =? 0))
  else Returns false.

(** Lines 321-368: [Some (c, authenticated, cRxTime)], or [None] for the
    [continue] after a failed authentication. *)
Definition checkAuth (c : SCIONClient) (authKey : option (list Z))
  (d : datagram) (cRxTime : Time)
  : outcome (SCIONClient * option (bool * Time)) :=
  if (3 <=? List.length (decoded d))%nat
     && LayerType_eqb (nth (List.length (decoded d) - 2) (decoded d) LayerTypeZero)
          LayerTypeEndToEndExtn
  then
    let cRxTime :=
      match FindOption OptTypeTimestamp (e2eOptions d) with
      | Some tsOpt =>
          match TimestampFromOOBData (OptData tsOpt) with
          | Some cRxTime0 => cRxTime0
          | None => cRxTime
          end
      | None => cRxTime
      end in
    match authKey with
    | Some key =>
        match FindOption OptTypeAuthenticator (e2eOptions d) with
        | Some authOpt =>
            if negb (Nat.eqb (List.length (OptData authOpt)) PacketAuthOptDataLen)
            then Panics "unexpected authenticator option data"
            else
              let authOptData := OptData authOpt in
              if (spi_of authOptData =? PacketAuthServerSPI)
                 && (algo_of authOptData =? PacketAuthAlgorithm)
              then
                if Z.of_nat (List.length (buf d)) <? udpLength d
                then Panics "slice bounds out of range"
                else
                match ComputeAuthCMAC
                        {| Key := key; Header := authOpt;
                           ScionLayer := scion d; PldType := L4UDP;
                           Pld := skipn (List.length (buf d)
                                         - Z.to_nat (udpLength d)) (buf d) |} with
                | inr msg => Panics msg
                | inl mac =>
                    let c' := with_auth c (auth_opt c) (copy (auth_mac c) mac) in
                    if ConstantTimeCompare_ne0
                         (skipn PacketAuthMetadataLen authOptData) (auth_mac c')
                    then Returns (c', Some (true, cRxTime))
                    else Returns (c', None)
                end
              else Returns (c, Some (false, cRxTime))
        | None => Returns (c, Some (false, cRxTime))
        end
    | None => Returns (c, Some (false, cRxTime))
    end
  else Returns (c, Some (false, cRxTime)).

(** Lines 370-438: from the decoded NTP payload to the measurement. *)
Definition evaluate (c : SCIONClient) (deadline : option Time) (d : datagram)
  (ref : string) (ntpreq : Packet) (cTxTime1 cRxTime : Time)
  (authenticated : bool) : step :=
  match DecodePacket (udpPayload d) with
  | inr e => retryOrReturn deadline d c e
  | inl ntpresp =>
      let interleaved :=
        InterleavedMode c && (OriginTime ntpresp =? prev_cRxTime (prev c)) in
      if negb interleaved
         && negb (OriginTime ntpresp =? TransmitTime ntpreq)
      then retryOrReturn deadline d c errUnexpectedPacket
      else
        match ValidateMetadata ntpresp with
        | Some e => Finish c (Done 0 Float64.zero (Some e) None)
        | None =>
            let sRxTime := TimeFromTime64 (ReceiveTime ntpresp) in
            let sTxTime := TimeFromTime64 (TransmitTime ntpresp) in
            let '(t0, t1, t2, t3) :=
              if interleaved
              then (TimeFromTime64 (prev_cTxTime (prev c)),
                    TimeFromTime64 (prev_sRxTime (prev c)),
                    sTxTime,
                    TimeFromTime64 (prev_cRxTime (prev c)))
              else (cTxTime1, sRxTime, sTxTime, cRxTime) in
            match ValidateTimestamps t0 t1 t1 t3 with
            | Some e => Finish c (Done 0 Float64.zero (Some e) None)
            | None =>
                let c' :=
                  if InterleavedMode c
                  then with_prev c
                         {| prev_reference := ref;
                            prev_cTxTime := Time64FromTime cTxTime1;
                            prev_cRxTime := Time64FromTime cRxTime;
                            prev_sRxTime := ReceiveTime ntpresp |}
                  else c in
                let '(offset, weight) := filter ref t0 t1 t2 t3 in
                Finish c' (Done offset weight None
                             (Some {| interleaved := interleaved;
                                      authenticated := authenticated;
                                      t0 := t0; t1 := t1; t2 := t2; t3 := t3 |}))
            end
        end
  end.

Definition panicked (c : SCIONClient) (msg : string) : step :=
  Finish c (Panicked msg).

(** Lines 254-438: the body of the receive loop for one datagram. *)
Definition receive1 (c : SCIONClient) (deadline : option Time)
  (authKey : option (list Z)) (localAddr remoteAddr : UDPAddr)
  (ref : string) (ntpreq : Packet) (cTxTime1 : Time) (d : datagram) : step :=
  match readErr d with
  | Some e => retryOrReturn deadline d c e
  | None =>
  if negb (flags d =? 0) then retryOrReturn deadline d c errUnexpectedPacketFlags
  else
  let cRxTime :=
    match TimestampFromOOBData (oob d) with
    | Some t => t
    | None => nowRx d
    end in
  match decodeErr d with
  | Some e => retryOrReturn deadline d c e
  | None =>
  let validType :=
    (2 <=? List.length (decoded d))%nat
    && LayerType_eqb (nth (List.length (decoded d) - 1) (decoded d) LayerTypeZero)
         LayerTypeSCIONUDP in
  if negb validType then retryOrReturn deadline d c errUnexpectedPacket
  else
  match validAddr (SrcIA (scion d)) (RawSrcAddr (scion d)) remoteAddr with
  | Panics msg => panicked c msg
  | Returns validSrc =>
  match validAddr (DstIA (scion d)) (RawDstAddr (scion d)) localAddr with
  | Panics msg => panicked c msg
  | Returns validDst =>
  if negb validSrc || negb validDst
  then retryOrReturn deadline d c errUnexpectedPacket
  else
  match checkAuth c authKey d cRxTime with
  | Panics msg => panicked c msg
  | Returns (c', None) => Continue c'
  | Returns (c', Some (authenticated, cRxTime)) =>
      evaluate c' deadline d ref ntpreq cTxTime1 cRxTime authenticated
  end
  end
  end
  end
  end.

(** The receive loop over the datagrams that arrive; when they are used up
    the loop is blocked in the next read. *)
Fixpoint receive (c : SCIONClient) (deadline : option Time)
  (authKey : option (list Z)) (localAddr remoteAddr : UDPAddr)
  (ref : string) (ntpreq : Packet) (cTxTime1 : Time) (ds : list datagram)
  : SCIONClient * finished :=
  match ds with
  | [] => (c, Reading)
  | d :: ds' =>
      match receive1 c deadline authKey localAddr remoteAddr ref ntpreq
              cTxTime1 d with
      | Continue c' =>
          receive c' deadline authKey localAddr remoteAddr ref ntpreq
            cTxTime1 ds'
      | Finish c' f => (c', f)
      end
  end.

Variable PackAddr : list Z -> list Z.

Definition stop (c : SCIONClient) (sent : option request) (f : finished)
  : result :=
  {| client := c; sent := sent; fin := f |}.

Definition failWith (c : SCIONClient) (sent : option request) (e : error)
  : result :=
  stop c sent (Done 0 Float64.zero (Some e) None).

(** Lines 165-230: fetch the key and, when that succeeds, build the
    authenticator option and switch the SCION header to the end-to-end
    extension.  Yields the key, the option put on the wire, the SCION layer
    and the client with its scratch option updated. *)
Definition authenticateRequest (c : SCIONClient) (x : exchangeEnv)
  (localAddr remoteAddr : UDPAddr) (cTxTime0 : Time) (scionLayer : SCION)
  (udpBytes : list Z)
  : outcome (SCIONClient * option (list Z) * option EndToEndOption * SCION) :=
  if DRKeyFetcher c then
    match hostHostKey x
            {| ProtoId := DRKeyProtoIdTS; Validity := cTxTime0;
               meta_SrcIA := IA remoteAddr; meta_DstIA := IA localAddr;
               SrcHost := IP_String (Host_IP remoteAddr);
               DstHost := IP_String (Host_IP localAddr) |} with
    | Some key =>
        match auth_opt c with
        | None => Panics "nil pointer dereference"
        | Some o =>
            if (List.length (OptData o) <? PacketAuthOptDataLen)%nat
            then Panics "index out of range"
            else
              let o1 := requestAuthOption o in
              match ComputeAuthCMAC
                      {| Key := key; Header := o1; ScionLayer := scionLayer;
                         PldType := NextHdr scionLayer; Pld := udpBytes |} with
              | inr msg => Panics msg
              | inl mac =>
                  let o2 := with_mac o1 mac in
                  match e2eSerializeErr x with
                  | Some msg => Panics msg
                  | None =>
                      Returns (with_auth c (Some o2) (auth_mac c), Some key,
                               Some o2, with_NextHdr End2EndClass scionLayer)
                  end
              end
        end
    | None => Returns (c, None, None, scionLayer)
    end
  else Returns (c, None, None, scionLayer).

Definition MeasureClockOffsetSCION (c : SCIONClient) (x : exchangeEnv)
  (localAddr remoteAddr : UDPAddr) (ds : list datagram) : result :=
  let c := allocAuth c in
  match listenErr x with
  | Some e => failWith c None e
  | None =>
  match ctxDeadline x, setDeadlineErr x with
  | Some _, Some e => failWith c None e
  | _, _ =>
  match nextHopOf x localAddr remoteAddr with
  | Panics msg => stop c None (Panicked msg)
  | Returns nextHop =>
  let ref := referenceOf remoteAddr in
  let cTxTime0 := now0 x in
  let ntpreq := ntpRequest c ref cTxTime0 in
  match setSrcAddrErr x with
  | Some msg => stop c None (Panicked msg)
  | None =>
  match setDstAddrErr x with
  | Some msg => stop c None (Panicked msg)
  | None =>
  match setPathErr x with
  | Some msg => stop c None (Panicked msg)
  | None =>
  let scionLayer :=
    {| SrcIA := IA localAddr; DstIA := IA remoteAddr;
       RawSrcAddr := PackAddr (Host_IP localAddr);
       RawDstAddr := PackAddr (Host_IP remoteAddr);
       NextHdr := L4UDP; PathSet := true |} in
  match payloadSerializeErr x with
  | Some msg => stop c None (Panicked msg)
  | None =>
  match udpSerializeErr x with
  | Some msg => stop c None (Panicked msg)
  | None =>
  let udpBytes :=
    serializedUDP (localPort x) (Host_Port remoteAddr) scionLayer
      (EncodePacket ntpreq) in
  match authenticateRequest c x localAddr remoteAddr cTxTime0 scionLayer
          udpBytes with
  | Panics msg => stop c None (Panicked msg)
  | Returns (c, authKey, e2e, scionLayer) =>
  match scionSerializeErr x with
  | Some msg => stop c None (Panicked msg)
  | None =>
  let req :=
    {| wire_ntp := ntpreq; wire_srcPort := localPort x;
       wire_dstPort := Host_Port remoteAddr; wire_e2e := e2e;
       wire_scion := scionLayer; wire_nextHop := nextHop |} in
  match snd (written x) with
  | Some e => failWith c (Some req) e
  | None =>
  if negb (fst (written x) =? wireLen x)
  then stop c (Some req) (Done 0 Float64.zero None None)
  else
  let cTxTime1 :=
    match txTimestamp x with
    | (t, id, None) => if id =? 0 then t else nowTx x
    | (_, _, Some _) => nowTx x
    end in
  let '(c', f) :=
    receive c (ctxDeadline x) authKey localAddr remoteAddr ref ntpreq
      cTxTime1 ds in
  stop c' (Some req) f
  end end end end end end end end end end end.

(** *** The request *)

Lemma Time_Sub_le_Second (t u : Time) :
  (Time_Sub t u <=? Second) = (t - u <=? Second).
Proof.
  unfold Time_Sub, minDuration, maxDuration, Second.
  destruct (Z.ltb_spec (t - u) (- 2 ^ 63)).
  - symmetry. apply Z.leb_le. lia.
  - destruct (Z.gtb_spec (t - u) (2 ^ 63 - 1)); [|reflexivity].
    symmetry. apply Z.leb_gt. lia.
Qed.

Lemma allocAuth_keeps (c : SCIONClient) :
  InterleavedMode (allocAuth c) = InterleavedMode c /\
  DRKeyFetcher (allocAuth c) = DRKeyFetcher c /\
  prev (allocAuth c) = prev c.
Proof.
  unfold allocAuth. destruct (DRKeyFetcher c) eqn:E, (auth_opt c); cbn; auto.
Qed.

(** Whatever is handed to the socket carries the NTP request built from the
    client's state at the start of the call. *)
Lemma sent_request c x localAddr remoteAddr ds req :
  sent (MeasureClockOffsetSCION c x localAddr remoteAddr ds) = Some req ->
  wire_ntp req = ntpRequest c (referenceOf remoteAddr) (now0 x).
Proof.
  unfold MeasureClockOffsetSCION.
  destruct (allocAuth_keeps c) as (Hi & Hf & Hp).
  assert (Hreq : ntpRequest (allocAuth c) (referenceOf remoteAddr) (now0 x)
                 = ntpRequest c (referenceOf remoteAddr) (now0 x)).
  { unfold ntpRequest. rewrite Hi, Hp. reflexivity. }
  rewrite Hreq. clear Hreq.
  destruct (listenErr x); [discriminate|].
  destruct (ctxDeadline x) as [dl|], (setDeadlineErr x) as [e|];
    try discriminate;
    (destruct (nextHopOf x localAddr remoteAddr); [|discriminate];
     destruct (setSrcAddrErr x); [discriminate|];
     destruct (setDstAddrErr x); [discriminate|];
     destruct (setPathErr x); [discriminate|];
     destruct (payloadSerializeErr x); [discriminate|];
     destruct (udpSerializeErr x); [discriminate|];
     destruct (authenticateRequest _ _ _ _ _ _ _) as [[[[c1 k] e2e] sl]|];
       [|discriminate];
     destruct (scionSerializeErr x); [discriminate|];
     destruct (snd (written x));
       [cbn; intros H; injection H as <-; reflexivity|];
     destruct (negb _);
       [cbn; intros H; injection H as <-; reflexivity|];
     destruct (receive _ _ _ _ _ _ _ _ _);
     cbn; intros H; injection H as <-; reflexivity).
Qed.

(** C4: the request carries the previous exchange's server-receive,
    client-receive and client-transmit timestamps as origin, receive and
    transmit when interleaved mode is on, the previous exchange was with the
    same reference, and its client transmit time is at most one second
    before this round's; in every other case it carries this round's fresh
    transmit time and zero origin and receive timestamps. *)
Theorem request_timestamps c x localAddr remoteAddr ds req :
  sent (MeasureClockOffsetSCION c x localAddr remoteAddr ds) = Some req ->
  let p := prev c in
  let recent :=
    InterleavedMode c = true /\
    referenceOf remoteAddr = prev_reference p /\
    now0 x - TimeFromTime64 (prev_cTxTime p) <= Second in
  (recent ->
   OriginTime (wire_ntp req) = prev_sRxTime p /\
   ReceiveTime (wire_ntp req) = prev_cRxTime p /\
   TransmitTime (wire_ntp req) = prev_cTxTime p) /\
  (~ recent ->
   OriginTime (wire_ntp req) = 0 /\
   ReceiveTime (wire_ntp req) = 0 /\
   TransmitTime (wire_ntp req) = Time64FromTime (now0 x)).
Proof.
  intros Hs. cbv zeta. rewrite (sent_request _ _ _ _ _ _ Hs).
  unfold ntpRequest. rewrite Time_Sub_le_Second.
  destruct (InterleavedMode c) eqn:Ei; cbn [andb].
  - destruct (String.eqb_spec (referenceOf remoteAddr) (prev_reference (prev c)))
      as [Er|Er]; cbn [andb].
    + destruct (Z.leb_spec (now0 x - TimeFromTime64 (prev_cTxTime (prev c))) Second)
        as [Hle|Hgt].
      * split; [intros _; cbn; auto | intros Hn; exfalso; apply Hn; auto].
      * split; [intros (_ & _ & H'); lia | intros _; cbn; auto].
    + split; [intros (_ & H' & _); contradiction | intros _; cbn; auto].
  - split; [intros (H' & _); discriminate | intros _; cbn; auto].
Qed.

(** *** The response *)

(** C3: with [InterleavedMode] on, a response whose origin timestamp equals
    the stored previous [cRxTime] is interleaved, and the measurement uses
    (previous cTxTime, previous sRxTime, this response's transmit time,
    previous cRxTime); any other response must carry this round's request
    transmit time as origin, otherwise it is an unexpected packet (the loop
    keeps reading before the deadline and returns [errUnexpectedPacket]
    after it), and it is measured with this round's four timestamps. *)
Theorem interleaved_selection c deadline d ref ntpreq cTxTime1 cRxTime au ntpresp :
  DecodePacket (udpPayload d) = inl ntpresp ->
  let il := InterleavedMode c && (OriginTime ntpresp =? prev_cRxTime (prev c)) in
  let ts :=
    if il
    then (TimeFromTime64 (prev_cTxTime (prev c)),
          TimeFromTime64 (prev_sRxTime (prev c)),
          TimeFromTime64 (TransmitTime ntpresp),
          TimeFromTime64 (prev_cRxTime (prev c)))
    else (cTxTime1, TimeFromTime64 (ReceiveTime ntpresp),
          TimeFromTime64 (TransmitTime ntpresp), cRxTime) in
  let r := evaluate c deadline d ref ntpreq cTxTime1 cRxTime au in
  (il = false -> OriginTime ntpresp <> TransmitTime ntpreq ->
   r = retryOrReturn deadline d c errUnexpectedPacket) /\
  (forall c' off w lg, r = Finish c' (Done off w None (Some lg)) ->
   interleaved lg = il /\ (t0 lg, t1 lg, t2 lg, t3 lg) = ts /\
   (off, w) = filter ref (t0 lg) (t1 lg) (t2 lg) (t3 lg)) /\
  ((il = true \/ OriginTime ntpresp = TransmitTime ntpreq) ->
   ValidateMetadata ntpresp = None ->
   (forall a b e, ValidateTimestamps a b b e = None) ->
   exists c' off w lg, r = Finish c' (Done off w None (Some lg))).
Proof.
  intros Hd. cbv zeta. unfold evaluate. rewrite Hd.
  set (il := InterleavedMode c && (OriginTime ntpresp =? prev_cRxTime (prev c))).
  split; [|split].
  - intros Hil Hne. rewrite Hil. cbn [negb andb].
    destruct (Z.eqb_spec (OriginTime ntpresp) (TransmitTime ntpreq));
      [contradiction | reflexivity].
  - intros c' off w lg.
    destruct (negb il && negb (OriginTime ntpresp =? TransmitTime ntpreq)).
    + unfold retryOrReturn. destruct (beforeDeadline deadline d); discriminate.
    + destruct (ValidateMetadata ntpresp); [discriminate|].
      destruct il.
      * destruct (ValidateTimestamps _ _ _ _); [discriminate|].
        destruct (filter _ _ _ _ _) as [o wt] eqn:Ef.
        intros H. injection H as <- <- <- <-. cbn. rewrite Ef. auto.
      * destruct (ValidateTimestamps _ _ _ _); [discriminate|].
        destruct (filter _ _ _ _ _) as [o wt] eqn:Ef.
        intros H. injection H as <- <- <- <-. cbn. rewrite Ef. auto.
  - intros Hok Hm Hv. rewrite Hm.
    assert (Hc : negb il && negb (OriginTime ntpresp =? TransmitTime ntpreq) = false).
    { destruct Hok as [->| ->]; [reflexivity|].
      rewrite Z.eqb_refl. apply andb_false_r. }
    rewrite Hc.
    destruct il; rewrite Hv; destruct (filter _ _ _ _ _); eauto.
Qed.

(** Whether the parser found an end-to-end extension right before the UDP
    layer (line 322). *)
Definition hasE2E (d : datagram) : bool :=
  (3 <=? List.length (decoded d))%nat
  && LayerType_eqb (nth (List.length (decoded d) - 2) (decoded d) LayerTypeZero)
       LayerTypeEndToEndExtn.

(** An authenticator of the server: SPI and algorithm as expected (line 343). *)
Definition matchingAuthenticator (o : EndToEndOption) : bool :=
  (spi_of (OptData o) =? PacketAuthServerSPI)
  && (algo_of (OptData o) =? PacketAuthAlgorithm).

(** The input of the MAC recomputed over a response (lines 345-353). *)
Definition responseMACInput (key : list Z) (o : EndToEndOption) (d : datagram)
  : MACInput :=
  {| Key := key; Header := o; ScionLayer := scion d; PldType := L4UDP;
     Pld := skipn (List.length (buf d) - Z.to_nat (udpLength d)) (buf d) |}.

Lemma sent_e2e c x localAddr remoteAddr ds req :
  sent (MeasureClockOffsetSCION c x localAddr remoteAddr ds) = Some req ->
  exists c1 k sl ub sl0,
    authenticateRequest (allocAuth c) x localAddr remoteAddr (now0 x) sl0 ub
    = Returns (c1, k, wire_e2e req, sl).
Proof.
  unfold MeasureClockOffsetSCION.
  destruct (listenErr x); [discriminate|].
  destruct (ctxDeadline x) as [dl|], (setDeadlineErr x) as [e|];
    try discriminate;
    (destruct (nextHopOf x localAddr remoteAddr); [|discriminate];
     destruct (setSrcAddrErr x); [discriminate|];
     destruct (setDstAddrErr x); [discriminate|];
     destruct (setPathErr x); [discriminate|];
     destruct (payloadSerializeErr x); [discriminate|];
     destruct (udpSerializeErr x); [discriminate|];
     destruct (authenticateRequest _ _ _ _ _ _ _) as [[[[c1 k] e2e] sl]|] eqn:Ea;
       [|discriminate];
     destruct (scionSerializeErr x); [discriminate|];
     destruct (snd (written x));
       [cbn; intros H; injection H as <-; eauto 6|];
     destruct (negb _);
       [cbn; intros H; injection H as <-; eauto 6|];
     destruct (receive _ _ _ _ _ _ _ _ _);
     cbn; intros H; injection H as <-; eauto 6).
Qed.

(** C7 (as amended): a response is verified only when a key was fetched,
    an end-to-end extension is present, and it holds an authenticator option
    with the server's SPI and the CMAC algorithm.  Without a key, without
    the extension, without an authenticator option, or with a 28-byte
    authenticator of another SPI or algorithm, the response is accepted with
    [authenticated = false]; it is dropped only when the recomputed MAC
    differs, and counted as authenticated only when it agrees.  An
    authenticator option whose data is not 28 bytes long makes the client
    panic once a key was fetched.  When the key fetch fails (or there is no
    fetcher) the request goes out without an authenticator option. *)
Theorem authentication_gate c authKey d cRxTime :
  ((authKey = None \/ hasE2E d = false
    \/ FindOption OptTypeAuthenticator (e2eOptions d) = None
    \/ (exists o, FindOption OptTypeAuthenticator (e2eOptions d) = Some o /\
                  List.length (OptData o) = PacketAuthOptDataLen /\
                  matchingAuthenticator o = false)) ->
   exists rx, checkAuth c authKey d cRxTime = Returns (c, Some (false, rx))) /\
  (forall c' verdict, checkAuth c authKey d cRxTime = Returns (c', verdict) ->
   verdict = None \/ (exists rx, verdict = Some (true, rx)) ->
   exists key o mac,
     authKey = Some key /\ hasE2E d = true /\
     FindOption OptTypeAuthenticator (e2eOptions d) = Some o /\
     matchingAuthenticator o = true /\
     ComputeAuthCMAC (responseMACInput key o d) = inl mac /\
     (ConstantTimeCompare_ne0 (skipn PacketAuthMetadataLen (OptData o))
        (copy (auth_mac c) mac) = false <-> verdict = None)) /\
  (forall key o, authKey = Some key -> hasE2E d = true ->
   FindOption OptTypeAuthenticator (e2eOptions d) = Some o ->
   List.length (OptData o) <> PacketAuthOptDataLen ->
   checkAuth c authKey d cRxTime
   = Panics "unexpected authenticator option data") /\
  (forall c0 x localAddr remoteAddr ds req,
   sent (MeasureClockOffsetSCION c0 x localAddr remoteAddr ds) = Some req ->
   DRKeyFetcher c0 = false \/ (forall m, hostHostKey x m = None) ->
   wire_e2e req = None).
Proof.
  split; [|split; [|split]].
  - intros H. unfold checkAuth. fold (hasE2E d).
    destruct (hasE2E d) eqn:He; [|eauto].
    destruct authKey as [key|]; [|eauto].
    destruct (FindOption OptTypeAuthenticator (e2eOptions d)) as [o|] eqn:Ef;
      [|eauto].
    destruct H as [H|[H|[H|(o' & Ho & Hl & Hm)]]]; try congruence.
    assert (o' = o) by congruence. subst o'.
    rewrite Hl, Nat.eqb_refl. cbn [negb].
    unfold matchingAuthenticator in Hm. rewrite Hm. eauto.
  - intros c' verdict. unfold checkAuth. fold (hasE2E d).
    destruct (hasE2E d) eqn:He.
    2:{ intros H [->|[rx ->]]; discriminate. }
    destruct authKey as [key|].
    2:{ intros H [->|[rx ->]]; discriminate. }
    destruct (FindOption OptTypeAuthenticator (e2eOptions d)) as [o|] eqn:Ef.
    2:{ intros H [->|[rx ->]]; discriminate. }
    destruct (negb _); [discriminate|].
    fold (matchingAuthenticator o).
    destruct (matchingAuthenticator o) eqn:Em.
    2:{ intros H [->|[rx ->]]; discriminate. }
    destruct (_ <? _); [discriminate|].
    fold (responseMACInput key o d).
    destruct (ComputeAuthCMAC (responseMACInput key o d)) as [mac|msg] eqn:Ec;
      [|discriminate].
    cbn [auth_mac with_auth].
    destruct (ConstantTimeCompare_ne0 _ _) eqn:Ecmp; intros H Hv;
      injection H as <- <-; exists key, o, mac; repeat split; auto;
      try (intros; congruence).
  - intros key o -> He Hf Hl. unfold checkAuth. fold (hasE2E d).
    rewrite He, Hf.
    destruct (Nat.eqb_spec (List.length (OptData o)) PacketAuthOptDataLen);
      [contradiction | reflexivity].
  - intros c0 x localAddr remoteAddr ds req Hs Hk.
    destruct (sent_e2e _ _ _ _ _ _ Hs) as (c1 & k & sl & ub & sl0 & Ha).
    unfold authenticateRequest in Ha.
    destruct (allocAuth_keeps c0) as (_ & Hf & _). rewrite Hf in Ha.
    destruct Hk as [Hk|Hk].
    + rewrite Hk in Ha. injection Ha as _ _ <- _. reflexivity.
    + destruct (DRKeyFetcher c0).
      * rewrite Hk in Ha. injection Ha as _ _ <- _. reflexivity.
      * injection Ha as _ _ <- _. reflexivity.
Qed.

(** *** Protocol anomalies *)

(** A datagram that was read and parsed as SCION/UDP (lines 256-307). *)
Definition wellFormed (d : datagram) : Prop :=
  readErr d = None /\ flags d = 0 /\ decodeErr d = None /\
  (2 <=? List.length (decoded d))%nat
  && LayerType_eqb (nth (List.length (decoded d) - 1) (decoded d) LayerTypeZero)
       LayerTypeSCIONUDP = true.

(** The receive timestamp before the end-to-end extension is looked at. *)
Definition rxTimeOf (d : datagram) : Time :=
  match TimestampFromOOBData (oob d) with
  | Some t => t
  | None => nowRx d
  end.

(** What the address checks of lines 308-311 decide, read off the packet:
    the IA and the host address (IPv4-mapped IPv6 folded) are the expected
    ones; or they are not; or the IA is the expected one and one of the two
    host addresses compared is neither 4 nor 16 bytes long. *)
Definition rightAddress (ia : Z) (raw : list Z) (a : UDPAddr) : Prop :=
  ia = IA a /\ validLen raw /\ validLen (Host_IP a) /\
  unmapped raw = unmapped (Host_IP a).
Definition wrongAddress (ia : Z) (raw : list Z) (a : UDPAddr) : Prop :=
  ia <> IA a \/
  (validLen raw /\ validLen (Host_IP a) /\
   unmapped raw <> unmapped (Host_IP a)).
Definition malformedAddress (ia : Z) (raw : list Z) (a : UDPAddr) : Prop :=
  ia = IA a /\ ~ (validLen raw /\ validLen (Host_IP a)).

(** How the loop reacts to an anomaly when the deadline check fails. *)
Inductive reaction : Type :=
| Surfaces (e : error)
| KeepsReading
| Crashes (msg : string).

(** The protocol anomalies, each with the reaction of the loop: unexpected
    flags, a wrong source or destination address (lines 308-319), an
    address of another length (lines 49-53), a failed authentication (lines
    360-364) and an origin mismatch outside interleaved mode (lines
    383-390). *)
Inductive anomaly (c : SCIONClient) (authKey : option (list Z))
  (localAddr remoteAddr : UDPAddr) (ntpreq : Packet) (d : datagram)
  : reaction -> Prop :=
| UnexpectedFlags :
    readErr d = None -> flags d <> 0 ->
    anomaly c authKey localAddr remoteAddr ntpreq d
      (Surfaces errUnexpectedPacketFlags)
| WrongAddress :
    wellFormed d ->
    wrongAddress (SrcIA (scion d)) (RawSrcAddr (scion d)) remoteAddr
    \/ wrongAddress (DstIA (scion d)) (RawDstAddr (scion d)) localAddr ->
    ~ malformedAddress (SrcIA (scion d)) (RawSrcAddr (scion d)) remoteAddr ->
    ~ malformedAddress (DstIA (scion d)) (RawDstAddr (scion d)) localAddr ->
    anomaly c authKey localAddr remoteAddr ntpreq d
      (Surfaces errUnexpectedPacket)
| MalformedAddress :
    wellFormed d ->
    malformedAddress (SrcIA (scion d)) (RawSrcAddr (scion d)) remoteAddr
    \/ malformedAddress (DstIA (scion d)) (RawDstAddr (scion d)) localAddr ->
    anomaly c authKey localAddr remoteAddr ntpreq d
      (Crashes "unexpected IP address byte slice")
| FailedAuthentication (c' : SCIONClient) :
    wellFormed d ->
    rightAddress (SrcIA (scion d)) (RawSrcAddr (scion d)) remoteAddr ->
    rightAddress (DstIA (scion d)) (RawDstAddr (scion d)) localAddr ->
    checkAuth c authKey d (rxTimeOf d) = Returns (c', None) ->
    anomaly c authKey localAddr remoteAddr ntpreq d KeepsReading
| OriginMismatch (c' : SCIONClient) (au : bool) (rx : Time) (ntpresp : Packet) :
    wellFormed d ->
    rightAddress (SrcIA (scion d)) (RawSrcAddr (scion d)) remoteAddr ->
    rightAddress (DstIA (scion d)) (RawDstAddr (scion d)) localAddr ->
    checkAuth c authKey d (rxTimeOf d) = Returns (c', Some (au, rx)) ->
    DecodePacket (udpPayload d) = inl ntpresp ->
    InterleavedMode c' && (OriginTime ntpresp =? prev_cRxTime (prev c')) = false ->
    OriginTime ntpresp <> TransmitTime ntpreq ->
    anomaly c authKey localAddr remoteAddr ntpreq d
      (Surfaces errUnexpectedPacket).

Lemma receive1_wellFormed c deadline authKey localAddr remoteAddr ref ntpreq
  cTxTime1 d :
  wellFormed d ->
  receive1 c deadline authKey localAddr remoteAddr ref ntpreq cTxTime1 d
  = match validAddr (SrcIA (scion d)) (RawSrcAddr (scion d)) remoteAddr with
    | Panics msg => panicked c msg
    | Returns validSrc =>
        match validAddr (DstIA (scion d)) (RawDstAddr (scion d)) localAddr with
        | Panics msg => panicked c msg
        | Returns validDst =>
            if negb validSrc || negb validDst
            then retryOrReturn deadline d c errUnexpectedPacket
            else
              match checkAuth c authKey d (rxTimeOf d) with
              | Panics msg => panicked c msg
              | Returns (c', None) => Continue c'
              | Returns (c', Some (authenticated, cRxTime)) =>
                  evaluate c' deadline d ref ntpreq cTxTime1 cRxTime authenticated
              end
        end
    end.
Proof.
  intros (Hr & Hf & Hd & Ht). unfold receive1, rxTimeOf.
  rewrite Hr, Hf, Hd, Ht. reflexivity.
Qed.

Lemma checkAuth_keeps c authKey d rx c' v :
  checkAuth c authKey d rx = Returns (c', v) ->
  InterleavedMode c' = InterleavedMode c /\ prev c' = prev c.
Proof.
  unfold checkAuth.
  destruct (_ && _); [|intros H; injection H as <- _; auto].
  destruct authKey; [|intros H; injection H as <- _; auto].
  destruct (FindOption OptTypeAuthenticator _);
    [|intros H; injection H as <- _; auto].
  destruct (negb _); [discriminate|].
  destruct (_ && _); [|intros H; injection H as <- _; auto].
  destruct (_ <? _); [discriminate|].
  destruct (ComputeAuthCMAC _); [|discriminate].
  destruct (ConstantTimeCompare_ne0 _ _); intros H; injection H as <- _; auto.
Qed.

Lemma compareIPs_same x y :
  validLen x -> validLen y ->
  exists r, compareIPs x y = Returns r /\ (r = 0 <-> unmapped x = unmapped y).
Proof.
  intros Hx Hy. rewrite (compareIPs_valid x y Hx Hy).
  eexists. split; [reflexivity|].
  assert (Hlen : forall z, validLen z ->
            List.length (unmapped z) = 4%nat \/ List.length (unmapped z) = 16%nat).
  { intros z [Hz|Hz]; unfold unmapped; rewrite Hz; cbn [Nat.eqb andb]; auto.
    destruct (netip.eqb_bytes _ _); [left; rewrite length_skipn; lia | auto]. }
  destruct (Hlen x Hx) as [Lx|Lx], (Hlen y Hy) as [Ly|Ly];
    rewrite Lx, Ly; cbn [Nat.eqb]; unfold netip.Compare; cbn.
  - apply netip.cmp_bytes_zero.
  - split; [discriminate | intros H; rewrite H in Lx; lia].
  - split; [discriminate | intros H; rewrite H in Lx; lia].
  - apply netip.cmp_bytes_zero.
Qed.

Lemma compareIPs_other_length x y :
  ~ (validLen x /\ validLen y) ->
  compareIPs x y = Panics "unexpected IP address byte slice".
Proof.
  unfold validLen, compareIPs, netip.AddrFromSlice. intros H.
  destruct (Nat.eqb_spec (List.length x) 4) as [X4|X4];
    [|destruct (Nat.eqb_spec (List.length x) 16) as [X16|X16]];
    (destruct (Nat.eqb_spec (List.length y) 4) as [Y4|Y4];
     [|destruct (Nat.eqb_spec (List.length y) 16) as [Y16|Y16]]);
    try reflexivity; exfalso; apply H; auto.
Qed.

Lemma validLen_dec x : validLen x \/ ~ validLen x.
Proof.
  unfold validLen.
  destruct (Nat.eq_dec (List.length x) 4) as [E4|E4]; [auto|].
  destruct (Nat.eq_dec (List.length x) 16) as [E16|E16]; [auto|].
  right. intros [H|H]; contradiction.
Qed.

Lemma validAddr_right ia raw a :
  rightAddress ia raw a -> validAddr ia raw a = Returns true.
Proof.
  intros (Hia & Hr & Hh & Hu). unfold validAddr.
  rewrite (proj2 (Z.eqb_eq _ _) Hia).
  destruct (compareIPs_same raw (Host_IP a) Hr Hh) as (r & Hc & Hz).
  rewrite Hc. cbn [bind]. rewrite (proj2 Hz Hu). reflexivity.
Qed.

Lemma validAddr_wrong ia raw a :
  wrongAddress ia raw a -> validAddr ia raw a = Returns false.
Proof.
  unfold validAddr. intros [Hia|(Hr & Hh & Hu)].
  - rewrite (proj2 (Z.eqb_neq _ _) Hia). reflexivity.
  - destruct (ia =? IA a); [|reflexivity].
    destruct (compareIPs_same raw (Host_IP a) Hr Hh) as (r & Hc & Hz).
    rewrite Hc. cbn [bind]. f_equal. apply Z.eqb_neq. intros E.
    apply Hu, Hz, E.
Qed.

Lemma validAddr_malformed ia raw a :
  malformedAddress ia raw a ->
  validAddr ia raw a = Panics "unexpected IP address byte slice".
Proof.
  intros (Hia & Hn). unfold validAddr.
  rewrite (proj2 (Z.eqb_eq _ _) Hia).
  rewrite (compareIPs_other_length _ _ Hn). reflexivity.
Qed.

(** The three cases cover every packet. *)
Lemma address_cases ia raw a :
  rightAddress ia raw a \/ wrongAddress ia raw a \/ malformedAddress ia raw a.
Proof.
  unfold rightAddress, wrongAddress, malformedAddress.
  destruct (Z.eq_dec ia (IA a)) as [Hia|Hia]; [|auto].
  destruct (validLen_dec raw) as [Hr|Hr];
    [|right; right; split; [exact Hia | intros [H _]; contradiction]].
  destruct (validLen_dec (Host_IP a)) as [Hh|Hh];
    [|right; right; split; [exact Hia | intros [_ H]; contradiction]].
  destruct (list_eq_dec Z.eq_dec (unmapped raw) (unmapped (Host_IP a)))
    as [Hu|Hu]; auto 6.
Qed.

Lemma validAddr_returns ia raw a :
  ~ malformedAddress ia raw a -> exists v, validAddr ia raw a = Returns v.
Proof.
  intros Hn. destruct (address_cases ia raw a) as [H|[H|H]].
  - exists true. apply validAddr_right, H.
  - exists false. apply validAddr_wrong, H.
  - contradiction.
Qed.

(** C5: unexpected socket flags, a wrong source or destination IA or host
    address (of 4 or 16 bytes) and an origin mismatch outside interleaved
    mode make the loop read the next datagram while the deadline is set and
    has not expired, and return [errUnexpectedPacketFlags] or
    [errUnexpectedPacket] as soon as the deadline check fails: after the
    deadline, and at once when there is no deadline.  A failed CMAC
    verification makes the loop read the next datagram whatever the
    deadline.  A raw address of another length, with the expected IA, makes
    the client panic whatever the deadline. *)
Theorem anomalies_keep_reading c deadline authKey localAddr remoteAddr ref
  ntpreq cTxTime1 d ds rc :
  anomaly c authKey localAddr remoteAddr ntpreq d rc ->
  let r := receive1 c deadline authKey localAddr remoteAddr ref ntpreq cTxTime1 d in
  let all := receive c deadline authKey localAddr remoteAddr ref ntpreq cTxTime1
               (d :: ds) in
  match rc with
  | Surfaces e =>
      (beforeDeadline deadline d = true ->
       exists c', r = Continue c' /\ prev c' = prev c /\
         all = receive c' deadline authKey localAddr remoteAddr ref ntpreq
                 cTxTime1 ds) /\
      (beforeDeadline deadline d = false ->
       exists c', r = Finish c' (Done 0 Float64.zero (Some e) None) /\
         all = (c', Done 0 Float64.zero (Some e) None)) /\
      (deadline = None -> beforeDeadline deadline d = false)
  | KeepsReading =>
      exists c', r = Continue c' /\ prev c' = prev c /\
        all = receive c' deadline authKey localAddr remoteAddr ref ntpreq
                cTxTime1 ds
  | Crashes msg =>
      r = Finish c (Panicked msg) /\ all = (c, Panicked msg)
  end.
Proof.
  intros Ha. cbv zeta. cbn [receive].
  destruct Ha as [Hr Hf | Hw Hwr Hns Hnd | Hw Hm | c' Hw Hs Hd Hc
                 | c' au rx ntpresp Hw Hs Hd Hc Hp Hil Hne].
  - assert (E : receive1 c deadline authKey localAddr remoteAddr ref ntpreq
                  cTxTime1 d
                = retryOrReturn deadline d c errUnexpectedPacketFlags).
    { unfold receive1. rewrite Hr.
      destruct (Z.eqb_spec (flags d) 0); [contradiction | reflexivity]. }
    rewrite E. unfold retryOrReturn.
    split; [|split]; [intros -> | intros -> | intros ->; reflexivity]; eauto.
  - assert (E : receive1 c deadline authKey localAddr remoteAddr ref ntpreq
                  cTxTime1 d
                = retryOrReturn deadline d c errUnexpectedPacket).
    { rewrite receive1_wellFormed by assumption.
      destruct (validAddr_returns _ _ _ Hns) as [vs Es].
      destruct (validAddr_returns _ _ _ Hnd) as [vd Ed].
      rewrite Es, Ed.
      assert (Hn : negb vs || negb vd = true).
      { destruct Hwr as [W|W]; apply validAddr_wrong in W.
        - rewrite W in Es. injection Es as <-. reflexivity.
        - rewrite W in Ed. injection Ed as <-. apply orb_true_r. }
      rewrite Hn. reflexivity. }
    rewrite E. unfold retryOrReturn.
    split; [|split]; [intros -> | intros -> | intros ->; reflexivity]; eauto.
  - assert (E : receive1 c deadline authKey localAddr remoteAddr ref ntpreq
                  cTxTime1 d
                = panicked c "unexpected IP address byte slice").
    { rewrite receive1_wellFormed by assumption.
      destruct (address_cases (SrcIA (scion d)) (RawSrcAddr (scion d)) remoteAddr)
        as [S|[S|S]].
      - destruct Hm as [M|M].
        + rewrite (validAddr_malformed _ _ _ M). reflexivity.
        + rewrite (validAddr_right _ _ _ S), (validAddr_malformed _ _ _ M).
          reflexivity.
      - destruct Hm as [M|M].
        + rewrite (validAddr_malformed _ _ _ M). reflexivity.
        + rewrite (validAddr_wrong _ _ _ S), (validAddr_malformed _ _ _ M).
          reflexivity.
      - rewrite (validAddr_malformed _ _ _ S). reflexivity. }
    rewrite E. unfold panicked. split; reflexivity.
  - rewrite receive1_wellFormed by assumption.
    rewrite (validAddr_right _ _ _ Hs), (validAddr_right _ _ _ Hd), Hc.
    cbn [negb orb]. exists c'. split; [reflexivity|].
    split; [apply (checkAuth_keeps _ _ _ _ _ _ Hc) | reflexivity].
  - assert (E : receive1 c deadline authKey localAddr remoteAddr ref ntpreq
                  cTxTime1 d
                = retryOrReturn deadline d c' errUnexpectedPacket).
    { rewrite receive1_wellFormed by assumption.
      rewrite (validAddr_right _ _ _ Hs), (validAddr_right _ _ _ Hd), Hc.
      cbn [negb orb]. unfold evaluate. rewrite Hp, Hil. cbn [negb andb].
      destruct (Z.eqb_spec (OriginTime ntpresp) (TransmitTime ntpreq));
        [contradiction | reflexivity]. }
    rewrite E. unfold retryOrReturn.
    pose proof (proj2 (checkAuth_keeps _ _ _ _ _ _ Hc)) as Hk.
    split; [|split]; [intros -> | intros -> | intros ->; reflexivity]; eauto.
Qed.

(** *** More on the exchange *)

(** Lines 246-250: the client transmit time used for the measurement. *)
Definition txTimeOf (x : exchangeEnv) : Time :=
  match txTimestamp x with
  | (t, id, None) => if id =? 0 then t else nowTx x
  | (_, _, Some _) => nowTx x
  end.

Lemma authenticateRequest_keeps c x localAddr remoteAddr t sl ub c1 k e2e sl1 :
  authenticateRequest c x localAddr remoteAddr t sl ub = Returns (c1, k, e2e, sl1) ->
  InterleavedMode c1 = InterleavedMode c /\ prev c1 = prev c.
Proof.
  unfold authenticateRequest.
  destruct (DRKeyFetcher c); [|intros H; injection H as <- _ _ _; auto].
  destruct (hostHostKey x _); [|intros H; injection H as <- _ _ _; auto].
  destruct (auth_opt c); [|discriminate].
  destruct (_ <? _)%nat; [discriminate|].
  destruct (ComputeAuthCMAC _); [|discriminate].
  destruct (e2eSerializeErr x); [discriminate|].
  intros H; injection H as <- _ _ _; auto.
Qed.

(** What happens once the request was handed to the socket. *)
Lemma sent_inv c x localAddr remoteAddr ds req :
  sent (MeasureClockOffsetSCION c x localAddr remoteAddr ds) = Some req ->
  exists c1 authKey,
    InterleavedMode c1 = InterleavedMode c /\ prev c1 = prev c /\
    MeasureClockOffsetSCION c x localAddr remoteAddr ds
    = match snd (written x) with
      | Some e => failWith c1 (Some req) e
      | None =>
          if negb (fst (written x) =? wireLen x)
          then stop c1 (Some req) (Done 0 Float64.zero None None)
          else
            stop (fst (receive c1 (ctxDeadline x) authKey localAddr remoteAddr
                         (referenceOf remoteAddr) (wire_ntp req) (txTimeOf x) ds))
                 (Some req)
                 (snd (receive c1 (ctxDeadline x) authKey localAddr remoteAddr
                         (referenceOf remoteAddr) (wire_ntp req) (txTimeOf x) ds))
      end.
Proof.
  unfold MeasureClockOffsetSCION, txTimeOf.
  destruct (allocAuth_keeps c) as (Hi & _ & Hp).
  destruct (listenErr x); [discriminate|].
  destruct (ctxDeadline x) as [dl|], (setDeadlineErr x) as [e|];
    try discriminate;
    (destruct (nextHopOf x localAddr remoteAddr); [|discriminate];
     destruct (setSrcAddrErr x); [discriminate|];
     destruct (setDstAddrErr x); [discriminate|];
     destruct (setPathErr x); [discriminate|];
     destruct (payloadSerializeErr x); [discriminate|];
     destruct (udpSerializeErr x); [discriminate|];
     destruct (authenticateRequest _ _ _ _ _ _ _) as [[[[c1 k] e2e] sl]|] eqn:Ea;
       [|discriminate];
     destruct (authenticateRequest_keeps _ _ _ _ _ _ _ _ _ _ _ Ea) as [Hi1 Hp1];
     destruct (scionSerializeErr x); [discriminate|];
     exists c1, k; split; [congruence|]; split; [congruence|];
     destruct (snd (written x));
       [cbn in H; injection H as <-; reflexivity|];
     destruct (negb _);
       [cbn in H; injection H as <-; reflexivity|];
     destruct (receive _ _ _ _ _ _ _ _ _) eqn:Er;
     cbn in H; injection H as <-; cbn [wire_ntp]; rewrite Er; reflexivity).
Qed.

(** A short write is not an error: when the socket accepts fewer bytes
    than the packet has, the call returns offset 0 and weight 0 with a nil
    error, reads no response and leaves the previous-exchange memory as it
    was. *)
Theorem short_write_returns_no_error c x localAddr remoteAddr ds req :
  sent (MeasureClockOffsetSCION c x localAddr remoteAddr ds) = Some req ->
  snd (written x) = None -> fst (written x) <> wireLen x ->
  fin (MeasureClockOffsetSCION c x localAddr remoteAddr ds)
  = Done 0 Float64.zero None None /\
  prev (client (MeasureClockOffsetSCION c x localAddr remoteAddr ds)) = prev c.
Proof.
  intros Hs Hw Hn.
  destruct (sent_inv _ _ _ _ _ _ Hs) as (c1 & k & Hi & Hp & E).
  rewrite E, Hw.
  destruct (Z.eqb_spec (fst (written x)) (wireLen x)); [contradiction|].
  cbn. auto.
Qed.

(** A step of the loop that takes no measurement. *)
Definition measured (f : finished) : bool :=
  match f with
  | Done _ _ None (Some _) => true
  | _ => false
  end.

Lemma retryOrReturn_keeps deadline d c e :
  match retryOrReturn deadline d c e with
  | Continue c' => c' = c
  | Finish c' f => c' = c /\ measured f = false
  end.
Proof. unfold retryOrReturn. destruct (beforeDeadline deadline d); cbn; auto. Qed.

Lemma evaluate_keeps c deadline d ref ntpreq cTxTime1 cRxTime au :
  match evaluate c deadline d ref ntpreq cTxTime1 cRxTime au with
  | Continue c' => c' = c
  | Finish c' f =>
      InterleavedMode c' = InterleavedMode c /\
      (measured f = false \/ InterleavedMode c = false -> prev c' = prev c)
  end.
Proof.
  unfold evaluate.
  destruct (DecodePacket _) as [ntpresp|e].
  2:{ pose proof (retryOrReturn_keeps deadline d c e) as H.
      destruct (retryOrReturn deadline d c e); [exact H|].
      destruct H as [-> _]. auto. }
  destruct (negb _ && negb _).
  { pose proof (retryOrReturn_keeps deadline d c errUnexpectedPacket) as H.
    destruct (retryOrReturn deadline d c errUnexpectedPacket); [exact H|].
    destruct H as [-> _]. auto. }
  destruct (ValidateMetadata ntpresp); [auto|].
  destruct (InterleavedMode c && _);
    (destruct (ValidateTimestamps _ _ _ _); [auto|];
     destruct (filter _ _ _ _ _);
     destruct (InterleavedMode c) eqn:Ei; cbn;
     split; auto; intros [H|H]; discriminate).
Qed.

Lemma receive1_keeps c deadline authKey localAddr remoteAddr ref ntpreq cTxTime1 d :
  match receive1 c deadline authKey localAddr remoteAddr ref ntpreq cTxTime1 d with
  | Continue c' => InterleavedMode c' = InterleavedMode c /\ prev c' = prev c
  | Finish c' f =>
      InterleavedMode c' = InterleavedMode c /\
      (measured f = false \/ InterleavedMode c = false -> prev c' = prev c)
  end.
Proof.
  assert (Hr : forall e,
    match retryOrReturn deadline d c e with
    | Continue c' => InterleavedMode c' = InterleavedMode c /\ prev c' = prev c
    | Finish c' f =>
        InterleavedMode c' = InterleavedMode c /\
        (measured f = false \/ InterleavedMode c = false -> prev c' = prev c)
    end).
  { intros e. pose proof (retryOrReturn_keeps deadline d c e) as H.
    destruct (retryOrReturn deadline d c e); [subst; auto|].
    destruct H as [-> _]. auto. }
  unfold receive1.
  destruct (readErr d); [apply Hr|].
  destruct (negb (flags d =? 0)); [apply Hr|].
  destruct (decodeErr d); [apply Hr|].
  destruct (negb _); [apply Hr|].
  destruct (validAddr _ _ remoteAddr) as [vs|]; [|cbn; auto].
  destruct (validAddr _ _ localAddr) as [vd|]; [|cbn; auto].
  destruct (negb vs || negb vd); [apply Hr|].
  destruct (checkAuth _ _ _ _) as [[c' [[au rx]|]]|] eqn:Ec; [| |cbn; auto].
  - destruct (checkAuth_keeps _ _ _ _ _ _ Ec) as [Hi Hp].
    pose proof (evaluate_keeps c' deadline d ref ntpreq cTxTime1 rx au) as H.
    destruct (evaluate c' deadline d ref ntpreq cTxTime1 rx au).
    + subst. auto.
    + destruct H as [H1 H2]. split; [congruence|].
      intros Hm. rewrite <- Hp. apply H2. rewrite Hi. exact Hm.
  - exact (checkAuth_keeps _ _ _ _ _ _ Ec).
Qed.

Lemma receive_keeps ds : forall c deadline authKey localAddr remoteAddr ref
  ntpreq cTxTime1,
  let r := receive c deadline authKey localAddr remoteAddr ref ntpreq cTxTime1 ds in
  InterleavedMode (fst r) = InterleavedMode c /\
  (measured (snd r) = false \/ InterleavedMode c = false -> prev (fst r) = prev c).
Proof.
  induction ds as [|d ds IH]; intros c deadline authKey localAddr remoteAddr ref
    ntpreq cTxTime1; cbv zeta.
  - cbn. auto.
  - cbn [receive].
    pose proof (receive1_keeps c deadline authKey localAddr remoteAddr ref ntpreq
                  cTxTime1 d) as H.
    destruct (receive1 c deadline authKey localAddr remoteAddr ref ntpreq cTxTime1 d)
      as [c'|c' f].
    + destruct H as [Hi Hp].
      destruct (IH c' deadline authKey localAddr remoteAddr ref ntpreq cTxTime1)
        as [Hi' Hp'].
      split; [congruence|].
      intros Hm. rewrite <- Hp. apply Hp'. rewrite Hi. exact Hm.
    + cbn [fst snd]. exact H.
Qed.

(** The previous-exchange memory is written only by an exchange that ends
    in a measurement, and only in interleaved mode: after an error, a
    panic, a short write or an unfinished read, and always when interleaved
    mode is off, it is what it was before the call. *)
Theorem previous_exchange_memory_is_kept c x localAddr remoteAddr ds :
  let r := MeasureClockOffsetSCION c x localAddr remoteAddr ds in
  measured (fin r) = false \/ InterleavedMode c = false ->
  prev (client r) = prev c.
Proof.
  cbv zeta. intros Hm.
  destruct (sent (MeasureClockOffsetSCION c x localAddr remoteAddr ds))
    as [req|] eqn:Hs.
  - destruct (sent_inv _ _ _ _ _ _ Hs) as (c1 & k & Hi & Hp & E).
    rewrite E in *.
    destruct (snd (written x)); [cbn; exact Hp|].
    destruct (negb _); [cbn; exact Hp|].
    cbn [client fin stop] in *.
    destruct (receive_keeps ds c1 (ctxDeadline x) k localAddr remoteAddr
                (referenceOf remoteAddr) (wire_ntp req) (txTimeOf x)) as [_ H].
    rewrite <- Hp. apply H. rewrite Hi. exact Hm.
  - clear Hm. revert Hs. unfold MeasureClockOffsetSCION.
    destruct (allocAuth_keeps c) as (_ & _ & Hp).
    destruct (listenErr x); [cbn; auto|].
    destruct (ctxDeadline x) as [dl|], (setDeadlineErr x) as [e|];
      try (cbn; auto; fail);
      (destruct (nextHopOf x localAddr remoteAddr); [|cbn; auto];
       destruct (setSrcAddrErr x); [cbn; auto|];
       destruct (setDstAddrErr x); [cbn; auto|];
       destruct (setPathErr x); [cbn; auto|];
       destruct (payloadSerializeErr x); [cbn; auto|];
       destruct (udpSerializeErr x); [cbn; auto|];
       destruct (authenticateRequest _ _ _ _ _ _ _) as [[[[c1 k] e2e] sl]|] eqn:Ea;
         [|cbn; auto];
       destruct (authenticateRequest_keeps _ _ _ _ _ _ _ _ _ _ _ Ea) as [_ Hp1];
       destruct (scionSerializeErr x); [cbn; intros _; congruence|];
       destruct (snd (written x)); [cbn; intros Hs; discriminate|];
       destruct (negb _); [cbn; intros Hs; discriminate|];
       destruct (receive _ _ _ _ _ _ _ _ _); cbn; intros Hs; discriminate).
Qed.

(** Without a deadline every failure returns at once; the only thing that
    makes the loop read another datagram is a failed authentication of a
    well-formed packet from the right addresses. *)
Theorem without_deadline_only_failed_authentication_retries
  c authKey localAddr remoteAddr ref ntpreq cTxTime1 d c' :
  receive1 c None authKey localAddr remoteAddr ref ntpreq cTxTime1 d = Continue c' ->
  wellFormed d /\
  exists key, authKey = Some key /\
    checkAuth c authKey d (rxTimeOf d) = Returns (c', None).
Proof.
  unfold receive1, wellFormed, rxTimeOf, retryOrReturn, beforeDeadline.
  destruct (readErr d); [discriminate|].
  destruct (Z.eqb_spec (flags d) 0) as [Hf|Hf]; [|discriminate]. cbn [negb].
  destruct (decodeErr d); [discriminate|].
  destruct (_ && _) eqn:Ht; [|discriminate]. cbn [negb].
  destruct (validAddr _ _ remoteAddr) as [vs|]; [|discriminate].
  destruct (validAddr _ _ localAddr) as [vd|]; [|discriminate].
  destruct (negb vs || negb vd); [discriminate|].
  destruct (checkAuth _ _ _ _) as [[c1 [[au rx]|]]|] eqn:Ec; [| |discriminate].
  - unfold evaluate, retryOrReturn, beforeDeadline.
    destruct (DecodePacket _); [|discriminate].
    destruct (negb _ && negb _); [discriminate|].
    destruct (ValidateMetadata _); [discriminate|].
    destruct (InterleavedMode c1 && _);
      (destruct (ValidateTimestamps _ _ _ _); [discriminate|];
       destruct (filter _ _ _ _ _); discriminate).
  - intros H. injection H as <-. repeat split; auto.
    destruct authKey as [key|]; [eauto|].
    exfalso. revert Ec. unfold checkAuth.
    fold (hasE2E d). destruct (hasE2E d); cbv zeta; intros Ec; discriminate Ec.
Qed.

Lemma evaluate_authenticated c deadline d ref ntpreq cTxTime1 cRxTime au c' off w lg :
  evaluate c deadline d ref ntpreq cTxTime1 cRxTime au
  = Finish c' (Done off w None (Some lg)) ->
  authenticated lg = au /\
  (InterleavedMode c = true ->
   prev_reference (prev c') = ref /\
   prev_cTxTime (prev c') = Time64FromTime cTxTime1 /\
   prev_cRxTime (prev c') = Time64FromTime cRxTime).
Proof.
  unfold evaluate, retryOrReturn.
  destruct (DecodePacket _); [|destruct (beforeDeadline _ _); discriminate].
  destruct (negb _ && negb _); [destruct (beforeDeadline _ _); discriminate|].
  destruct (ValidateMetadata _); [discriminate|].
  destruct (InterleavedMode c && _);
    (destruct (ValidateTimestamps _ _ _ _); [discriminate|];
     destruct (filter _ _ _ _ _);
     intros H; injection H as <- _ _ <-; split; [reflexivity|];
     intros ->; cbn; auto).
Qed.

Lemma checkAuth_verified c authKey d rx c' rx' :
  checkAuth c authKey d rx = Returns (c', Some (true, rx')) ->
  exists key o mac,
    authKey = Some key /\
    FindOption OptTypeAuthenticator (e2eOptions d) = Some o /\
    ComputeAuthCMAC (responseMACInput key o d) = inl mac /\
    ConstantTimeCompare_ne0 (skipn PacketAuthMetadataLen (OptData o))
      (copy (auth_mac c) mac) = true.
Proof.
  unfold checkAuth.
  destruct (_ && _); [|discriminate].
  destruct authKey as [key|]; [|discriminate].
  destruct (FindOption OptTypeAuthenticator _) as [o|]; [|discriminate].
  destruct (negb _); [discriminate|].
  destruct (_ && _); [|discriminate].
  destruct (_ <? _); [discriminate|].
  fold (responseMACInput key o d).
  destruct (ComputeAuthCMAC _) as [mac|] eqn:Ec; [|discriminate].
  cbn [auth_mac with_auth].
  destruct (ConstantTimeCompare_ne0 _ _) eqn:Em; [|discriminate].
  intros _. exists key, o, mac. auto.
Qed.

Lemma validAddr_true ia raw a :
  validAddr ia raw a = Returns true ->
  ia = IA a /\ compareIPs raw (Host_IP a) = Returns 0.
Proof.
  unfold validAddr. destruct (Z.eqb_spec ia (IA a)); [|discriminate].
  destruct (compareIPs raw (Host_IP a)) as [r|]; [|discriminate]. cbn.
  destruct (Z.eqb_spec r 0); [|discriminate]. subst. auto.
Qed.

(** Where a measurement comes from: the datagram was read without error
    and without flags, it parsed as SCION/UDP, its source is the remote's
    IA and host and its destination the local IA and host; and the
    measurement is reported as authenticated only if a key was fetched and
    the MAC recomputed over the datagram equals the one it carries. *)
Theorem measurement_provenance c deadline authKey localAddr remoteAddr ref
  ntpreq cTxTime1 d c' off w lg :
  receive1 c deadline authKey localAddr remoteAddr ref ntpreq cTxTime1 d
  = Finish c' (Done off w None (Some lg)) ->
  wellFormed d /\
  SrcIA (scion d) = IA remoteAddr /\
  compareIPs (RawSrcAddr (scion d)) (Host_IP remoteAddr) = Returns 0 /\
  DstIA (scion d) = IA localAddr /\
  compareIPs (RawDstAddr (scion d)) (Host_IP localAddr) = Returns 0 /\
  (authenticated lg = true ->
   exists key o mac,
     authKey = Some key /\
     FindOption OptTypeAuthenticator (e2eOptions d) = Some o /\
     ComputeAuthCMAC (responseMACInput key o d) = inl mac /\
     ConstantTimeCompare_ne0 (skipn PacketAuthMetadataLen (OptData o))
       (copy (auth_mac c) mac) = true).
Proof.
  unfold receive1, wellFormed, retryOrReturn.
  destruct (readErr d); [destruct (beforeDeadline _ _); discriminate|].
  destruct (Z.eqb_spec (flags d) 0) as [Hf|Hf];
    [|destruct (beforeDeadline _ _); discriminate]. cbn [negb].
  destruct (decodeErr d); [destruct (beforeDeadline _ _); discriminate|].
  destruct (_ && _) eqn:Ht; [|destruct (beforeDeadline _ _); discriminate].
  cbn [negb].
  destruct (validAddr _ _ remoteAddr) as [vs|] eqn:Es; [|discriminate].
  destruct (validAddr _ _ localAddr) as [vd|] eqn:Ed; [|discriminate].
  destruct vs, vd; cbn [negb orb];
    try (destruct (beforeDeadline _ _); discriminate).
  destruct (validAddr_true _ _ _ Es) as [Hs1 Hs2].
  destruct (validAddr_true _ _ _ Ed) as [Hd1 Hd2].
  destruct (checkAuth _ _ _ _) as [[c1 [[au rx]|]]|] eqn:Ec; try discriminate.
  intros He. destruct (evaluate_authenticated _ _ _ _ _ _ _ _ _ _ _ _ He) as [Ha _].
  repeat split; auto.
  intros Hau. rewrite Hau in Ha. subst au.
  exact (checkAuth_verified _ _ _ _ _ _ Ec).
Qed.

Lemma receive_success_prev ds : forall c deadline authKey localAddr remoteAddr
  ref ntpreq cTxTime1,
  let r := receive c deadline authKey localAddr remoteAddr ref ntpreq cTxTime1 ds in
  measured (snd r) = true -> InterleavedMode c = true ->
  prev_reference (prev (fst r)) = ref /\
  prev_cTxTime (prev (fst r)) = Time64FromTime cTxTime1.
Proof.
  induction ds as [|d ds IH]; intros c deadline authKey localAddr remoteAddr ref
    ntpreq cTxTime1; cbv zeta.
  - discriminate.
  - cbn [receive].
    pose proof (receive1_keeps c deadline authKey localAddr remoteAddr ref ntpreq
                  cTxTime1 d) as Hk.
    destruct (receive1 c deadline authKey localAddr remoteAddr ref ntpreq cTxTime1 d)
      as [c1|c1 f] eqn:E1.
    + destruct Hk as [Hi _]. intros Hm Him. apply IH; congruence.
    + cbn [fst snd]. intros Hm Him.
      destruct f as [off w [e|] [lg|]| |]; try discriminate.
      revert E1. unfold receive1, retryOrReturn.
      destruct (readErr d); [destruct (beforeDeadline _ _); discriminate|].
      destruct (negb (flags d =? 0)); [destruct (beforeDeadline _ _); discriminate|].
      destruct (decodeErr d); [destruct (beforeDeadline _ _); discriminate|].
      destruct (negb _); [destruct (beforeDeadline _ _); discriminate|].
      destruct (validAddr _ _ remoteAddr) as [vs|]; [|discriminate].
      destruct (validAddr _ _ localAddr) as [vd|]; [|discriminate].
      destruct (negb vs || negb vd); [destruct (beforeDeadline _ _); discriminate|].
      destruct (checkAuth _ _ _ _) as [[c2 [[au rx]|]]|] eqn:Ec; try discriminate.
      destruct (checkAuth_keeps _ _ _ _ _ _ Ec) as [Hi2 _].
      intros He.
      destruct (evaluate_authenticated _ _ _ _ _ _ _ _ _ _ _ _ He) as [_ Hp].
      destruct Hp as (A & B & _); [congruence|]. auto.
Qed.

(** Two exchanges in a row (interleaved mode on): once an exchange ended in
    a measurement, the next request to the same remote, started within a
    second of the first transmit time, is an interleaved request: it carries
    the stored server-receive time as origin, the stored client-receive
    time as receive, and the first exchange's client transmit time as
    transmit. *)
Theorem interleaved_upgrade c x1 x2 localAddr remoteAddr ds1 ds2 req2 :
  let r1 := MeasureClockOffsetSCION c x1 localAddr remoteAddr ds1 in
  InterleavedMode c = true ->
  measured (fin r1) = true ->
  sent (MeasureClockOffsetSCION (client r1) x2 localAddr remoteAddr ds2) = Some req2 ->
  now0 x2 - TimeFromTime64 (Time64FromTime (txTimeOf x1)) <= Second ->
  OriginTime (wire_ntp req2) = prev_sRxTime (prev (client r1)) /\
  ReceiveTime (wire_ntp req2) = prev_cRxTime (prev (client r1)) /\
  TransmitTime (wire_ntp req2) = Time64FromTime (txTimeOf x1).
Proof.
  cbv zeta. intros Hi Hm Hs2 Hle.
  assert (H1 : InterleavedMode (client (MeasureClockOffsetSCION c x1 localAddr remoteAddr ds1)) = true /\
               prev_reference (prev (client (MeasureClockOffsetSCION c x1 localAddr remoteAddr ds1)))
               = referenceOf remoteAddr /\
               prev_cTxTime (prev (client (MeasureClockOffsetSCION c x1 localAddr remoteAddr ds1)))
               = Time64FromTime (txTimeOf x1)).
  { destruct (sent (MeasureClockOffsetSCION c x1 localAddr remoteAddr ds1))
      as [req1|] eqn:Hs1.
    - destruct (sent_inv _ _ _ _ _ _ Hs1) as (c1 & k & Hi1 & Hp1 & E).
      rewrite E in *.
      destruct (snd (written x1)); [discriminate|].
      destruct (negb _); [discriminate|].
      cbn [client fin stop] in *.
      destruct (receive_keeps ds1 c1 (ctxDeadline x1) k localAddr remoteAddr
                  (referenceOf remoteAddr) (wire_ntp req1) (txTimeOf x1)) as [Hk _].
      split; [congruence|].
      apply receive_success_prev; congruence.
    - exfalso. revert Hs1 Hm. unfold MeasureClockOffsetSCION.
      destruct (listenErr x1); [discriminate|].
      destruct (ctxDeadline x1) as [dl|], (setDeadlineErr x1) as [e|];
        try discriminate;
        (destruct (nextHopOf x1 localAddr remoteAddr); [|discriminate];
         destruct (setSrcAddrErr x1); [discriminate|];
         destruct (setDstAddrErr x1); [discriminate|];
         destruct (setPathErr x1); [discriminate|];
         destruct (payloadSerializeErr x1); [discriminate|];
         destruct (udpSerializeErr x1); [discriminate|];
         destruct (authenticateRequest _ _ _ _ _ _ _) as [[[[c1 k] e2e] sl]|];
           [|discriminate];
         destruct (scionSerializeErr x1); [discriminate|];
         destruct (snd (written x1)); [discriminate|];
         destruct (negb _); [discriminate|];
         destruct (receive _ _ _ _ _ _ _ _ _); discriminate). }
  destruct H1 as (Hi' & Hr & Ht).
  rewrite (sent_request _ _ _ _ _ _ Hs2). unfold ntpRequest.
  rewrite Hi', Hr, String.eqb_refl, Time_Sub_le_Second, Ht. cbn [andb].
  destruct (Z.leb_spec (now0 x2 - TimeFromTime64 (Time64FromTime (txTimeOf x1))) Second);
    [|lia].
  cbn. auto.
Qed.

Lemma copy_same_length (dst src : list Z) :
  List.length dst = List.length src -> copy dst src = src.
Proof.
  intros H. unfold copy. rewrite H, firstn_all, skipn_all2 by lia.
  apply app_nil_r.
Qed.

(** The option data the client writes before the MAC is computed: client
    SPI, algorithm, and 23 zero bytes (reserved, timestamp, sequence number
    and a zeroed MAC). *)
Definition requestAuthData : list Z :=
  spi_bytes PacketAuthClientSPI ++ [Z.land PacketAuthAlgorithm 255] ++ repeat 0 23.

(** With a fetcher, a key and a 16-byte MAC, the request carries an
    end-to-end extension with one authenticator option of 28 bytes: client
    SPI, algorithm byte, seven zero bytes, then the MAC, which was computed
    with the fetched key over the option with a zeroed MAC field, the SCION
    header and the UDP bytes; the SCION header then announces the
    end-to-end extension.  The key is asked for the direction remote to
    local, valid at this round's start time. *)
Theorem request_authenticator_layout c x localAddr remoteAddr cTxTime0
  scionLayer udpBytes key mac :
  DRKeyFetcher c = true ->
  (auth_opt c = None \/
   exists o, auth_opt c = Some o /\ List.length (OptData o) = PacketAuthOptDataLen) ->
  hostHostKey x {| ProtoId := DRKeyProtoIdTS; Validity := cTxTime0;
                   meta_SrcIA := IA remoteAddr; meta_DstIA := IA localAddr;
                   SrcHost := IP_String (Host_IP remoteAddr);
                   DstHost := IP_String (Host_IP localAddr) |} = Some key ->
  ComputeAuthCMAC
    {| Key := key;
       Header := {| OptType := OptTypeAuthenticator; OptData := requestAuthData;
                    OptAlign := (4, 2); OptDataLen := 0; ActualLength := 0 |};
       ScionLayer := scionLayer; PldType := NextHdr scionLayer;
       Pld := udpBytes |} = inl mac ->
  List.length mac = PacketAuthMACLen ->
  e2eSerializeErr x = None ->
  exists c1,
    authenticateRequest (allocAuth c) x localAddr remoteAddr cTxTime0 scionLayer
      udpBytes
    = Returns (c1, Some key,
               Some {| OptType := OptTypeAuthenticator;
                       OptData := spi_bytes PacketAuthClientSPI
                                  ++ [Z.land PacketAuthAlgorithm 255]
                                  ++ repeat 0 7 ++ mac;
                       OptAlign := (4, 2); OptDataLen := 0; ActualLength := 0 |},
               with_NextHdr End2EndClass scionLayer).
Proof.
  intros Hf Ho Hk Hc Hm He.
  assert (Ha : exists o, auth_opt (allocAuth c) = Some o /\
                         List.length (OptData o) = PacketAuthOptDataLen).
  { unfold allocAuth. rewrite Hf.
    destruct Ho as [Hn|(o & Hs & Hl)].
    - rewrite Hn. eexists. cbn. split; reflexivity.
    - rewrite Hs. exists o. cbn. auto. }
  destruct Ha as (o & Hs & Hl).
  assert (Hf' : DRKeyFetcher (allocAuth c) = true)
    by (destruct (allocAuth_keeps c) as (_ & Hk' & _); congruence).
  unfold authenticateRequest. rewrite Hf', Hk, Hs, Hl.
  cbn [Nat.ltb Nat.leb PacketAuthOptDataLen].
  change (28 <? 28)%nat with false. cbv iota.
  unfold requestAuthOption.
  assert (Hd : copy (OptData o)
                 (spi_bytes PacketAuthClientSPI ++ [Z.land PacketAuthAlgorithm 255]
                  ++ repeat 0 23) = requestAuthData).
  { apply copy_same_length. rewrite Hl. reflexivity. }
  rewrite Hd, Hc, He. eexists. unfold with_mac. cbn [OptType OptData OptAlign
    OptDataLen ActualLength].
  do 4 f_equal. f_equal.
  unfold requestAuthData, spi_bytes. cbn [app repeat firstn skipn PacketAuthMetadataLen].
  do 12 f_equal. apply copy_same_length. rewrite Hm. reflexivity.
Qed.

(** Inside one AS without an underlay next hop (the zero address and
    port), the request goes to the remote host's IPv4 address, an
    IPv4-mapped IPv6 address folded, on the end-host port; a remote host
    with a proper IPv6 address makes the client panic. *)
Theorem next_hop_inside_the_AS x localAddr remoteAddr :
  underlayNextHop x = netip.AddrPort_zero ->
  IA remoteAddr = IA localAddr ->
  validLen (Host_IP remoteAddr) ->
  nextHopOf x localAddr remoteAddr
  = if Nat.eqb (List.length (unmapped (Host_IP remoteAddr))) 4
    then Returns (netip.V4 (unmapped (Host_IP remoteAddr)), EndhostPort)
    else Panics "As4 called on IPv6 address".
Proof.
  intros Hz Hia Hv. unfold nextHopOf. rewrite Hz, Hia, Z.eqb_refl.
  cbn [netip.AddrPort_zero fst snd netip.Is4In6 bind netip.AddrPort_eqb andb].
  unfold netip.AddrFromSlice, unmapped.
  destruct Hv as [Hl|Hl]; rewrite Hl; cbn [Nat.eqb andb fst netip.As4 bind].
  - rewrite Hl. reflexivity.
  - cbn [netip.Is4In6].
    destruct (netip.eqb_bytes (firstn 12 (Host_IP remoteAddr)) netip.v4InV6Prefix).
    + rewrite length_skipn, Hl. reflexivity.
    + rewrite Hl. reflexivity.
Qed.

(** An IPv4-mapped underlay next hop is folded to IPv4 (same port); any
    other non-zero next hop is used as it is. *)
Theorem next_hop_from_the_path x localAddr remoteAddr :
  fst (underlayNextHop x) <> netip.Zero ->
  nextHopOf x localAddr remoteAddr
  = Returns (match fst (underlayNextHop x) with
             | netip.V6 b =>
                 if netip.eqb_bytes (firstn 12 b) netip.v4InV6Prefix
                 then (netip.V4 (skipn 12 b), snd (underlayNextHop x))
                 else underlayNextHop x
             | _ => underlayNextHop x
             end).
Proof.
  intros Hnz. unfold nextHopOf.
  destruct (underlayNextHop x) as [[|b|b] p]; cbn [fst snd] in *;
    [contradiction| |].
  - cbn. reflexivity.
  - cbn [netip.Is4In6 netip.As4].
    destruct (netip.eqb_bytes (firstn 12 b) netip.v4InV6Prefix) eqn:E.
    + cbn [bind netip.AddrFrom4 netip.AddrPort_eqb netip.AddrPort_zero fst snd andb].
      reflexivity.
    + cbn [bind netip.AddrPort_eqb netip.AddrPort_zero fst snd andb]. reflexivity.
Qed.

(** A datagram that is rejected before its addresses are looked at: the
    read failed, flags were set, the layers did not decode, or the last
    layer is not SCION/UDP. *)
Definition unreadable (d : datagram) : Prop :=
  readErr d <> None \/ flags d <> 0 \/ decodeErr d <> None \/
  (2 <=? List.length (decoded d))%nat
  && LayerType_eqb (nth (List.length (decoded d) - 1) (decoded d) LayerTypeZero)
       LayerTypeSCIONUDP = false.

Lemma receive1_unreadable c deadline authKey localAddr remoteAddr ref ntpreq
  cTxTime1 d :
  unreadable d ->
  exists e,
    receive1 c deadline authKey localAddr remoteAddr ref ntpreq cTxTime1 d
    = retryOrReturn deadline d c e.
Proof.
  unfold unreadable, receive1. intros H.
  destruct (readErr d) as [e|]; [eauto|].
  destruct (Z.eqb_spec (flags d) 0) as [Hf|Hf]; cbn [negb]; [|eauto].
  destruct (decodeErr d) as [e|]; [eauto|].
  destruct (_ && _); cbn [negb]; [|eauto].
  destruct H as [H|[H|[H|H]]]; try contradiction; try discriminate.
Qed.

(** Crossed traffic is tolerated until the deadline: any number of
    unreadable datagrams arriving before the deadline leave the exchange
    reading and the client as it was; the first one that arrives when the
    deadline check fails ends the exchange with an error. *)
Theorem unreadable_datagrams_are_skipped c deadline authKey localAddr remoteAddr
  ref ntpreq cTxTime1 ds d :
  Forall (fun d => unreadable d /\ beforeDeadline deadline d = true) ds ->
  receive c deadline authKey localAddr remoteAddr ref ntpreq cTxTime1 ds
  = (c, Reading) /\
  (unreadable d -> beforeDeadline deadline d = false ->
   exists e,
     receive c deadline authKey localAddr remoteAddr ref ntpreq cTxTime1
       (ds ++ [d])
     = (c, Done 0 Float64.zero (Some e) None)).
Proof.
  intros H. induction H as [|d0 ds [Hu Hb] _ [IH1 IH2]].
  - split; [reflexivity|]. intros Hu Hb.
    destruct (receive1_unreadable c deadline authKey localAddr remoteAddr ref
                ntpreq cTxTime1 d Hu) as [e He].
    exists e. cbn [app receive]. rewrite He. unfold retryOrReturn. rewrite Hb.
    reflexivity.
  - destruct (receive1_unreadable c deadline authKey localAddr remoteAddr ref
                ntpreq cTxTime1 d0 Hu) as [e He].
    assert (E : receive1 c deadline authKey localAddr remoteAddr ref ntpreq
                  cTxTime1 d0 = Continue c).
    { rewrite He. unfold retryOrReturn. rewrite Hb. reflexivity. }
    split.
    + cbn [receive]. rewrite E. exact IH1.
    + intros Hu' Hb'. destruct (IH2 Hu' Hb') as [e' He'].
      exists e'. cbn [app receive]. rewrite E. exact He'.
Qed.

End Exchange.

Section Validation.
Variable TimeFromTime64 : Time64 -> Time.
Variable Time64FromTime : Time -> Time64.
Variable DecodePacket : list Z -> Packet + error.
Variable ValidateMetadata : Packet -> option error.
Variable filter : string -> Time -> Time -> Time -> Time -> Duration * float64.

(** The four timestamps of an exchange (lines 402-413). *)
Definition timestampsOf (c : SCIONClient) (ntpresp : Packet)
  (cTxTime1 cRxTime : Time) : Time * Time * Time * Time :=
  if InterleavedMode c && (OriginTime ntpresp =? prev_cRxTime (prev c))
  then (TimeFromTime64 (prev_cTxTime (prev c)),
        TimeFromTime64 (prev_sRxTime (prev c)),
        TimeFromTime64 (TransmitTime ntpresp),
        TimeFromTime64 (prev_cRxTime (prev c)))
  else (cTxTime1, TimeFromTime64 (ReceiveTime ntpresp),
        TimeFromTime64 (TransmitTime ntpresp), cRxTime).

(** C6: once the four timestamps are determined, the validator is called
    on (t0, t1, t1, t3): the outcome of the exchange depends on the
    validator only through its answer to that one call, in which [t1]
    stands in the place of [t2]; and when that answer is an error, the
    error is returned at once, whatever the deadline. *)
Theorem validation_ignores_t2
  (ValidateTimestamps ValidateTimestamps' : Time -> Time -> Time -> Time -> option error)
  c deadline d ref ntpreq cTxTime1 cRxTime au ntpresp :
  DecodePacket (udpPayload d) = inl ntpresp ->
  InterleavedMode c && (OriginTime ntpresp =? prev_cRxTime (prev c)) = true
  \/ OriginTime ntpresp = TransmitTime ntpreq ->
  ValidateMetadata ntpresp = None ->
  let '(t0, t1, t2, t3) := timestampsOf c ntpresp cTxTime1 cRxTime in
  let run V :=
    evaluate TimeFromTime64 Time64FromTime DecodePacket ValidateMetadata V
      filter c deadline d ref ntpreq cTxTime1 cRxTime au in
  (forall e, ValidateTimestamps t0 t1 t1 t3 = Some e ->
   run ValidateTimestamps = Finish c (Done 0 Float64.zero (Some e) None)) /\
  (ValidateTimestamps' t0 t1 t1 t3 = ValidateTimestamps t0 t1 t1 t3 ->
   run ValidateTimestamps' = run ValidateTimestamps).
Proof.
  intros Hd Hok Hm. unfold timestampsOf, evaluate. rewrite Hd, Hm.
  assert (Hc : negb (InterleavedMode c && (OriginTime ntpresp =? prev_cRxTime (prev c)))
               && negb (OriginTime ntpresp =? TransmitTime ntpreq) = false).
  { destruct Hok as [->| ->]; [reflexivity|].
    rewrite Z.eqb_refl. apply andb_false_r. }
  rewrite Hc.
  destruct (InterleavedMode c && (OriginTime ntpresp =? prev_cRxTime (prev c)));
    (split; [intros e He; rewrite He; reflexivity | intros He; rewrite He; reflexivity]).
Qed.
End Validation.

(** *** A test bench

    Stand-ins for the collaborators: NTP timestamps are plain nanoseconds,
    an NTP payload is the list (origin, receive, transmit), an out-of-band
    timestamp is a one-element list, the validator is the classical check
    [t1 <= t2] and [t0 <= t3], the filter returns the classical offset with
    weight 1000, and the MAC is sixteen copies of the first key byte. *)
Definition benchTime (t : Z) : Z := t.
Definition benchIA (ia : Z) : string :=
  if ia =? 1 then "1-ff00:0:110" else "1-ff00:0:120".
Definition benchHost (ip : list Z) (port : Z) : string :=
  if port =? 123 then "10.0.0.2:123" else "10.0.0.9:0".
Definition benchIP (ip : list Z) : string := "10.0.0.2".
Definition benchOOB (b : list Z) : option Time :=
  match b with [t] => Some t | _ => None end.
Definition benchEncode (p : Packet) : list Z :=
  [OriginTime p; ReceiveTime p; TransmitTime p].
Definition benchDecode (b : list Z) : Packet + error :=
  match b with
  | [o; r; t] => inl (with_timestamps o r t Packet_zero)
  | _ => inr (errExternal "short packet")
  end.
Definition benchMetadata (p : Packet) : option error := None.
Definition benchValidate (t0 t1 t2 t3 : Time) : option error :=
  if (t2 <? t1) || (t3 <? t0) then Some (errExternal "invalid timestamps")
  else None.
Definition benchFilter (ref : string) (t0 t1 t2 t3 : Time) : Duration * float64 :=
  (((t1 - t0) + (t2 - t3)) / 2, Float64.of_int 1000).
Definition benchCMAC (i : MACInput) : list Z + string :=
  inl (repeat (nth 0 (Key i) 0) 16).
Definition benchUDP (src dst : Z) (s : SCION) (p : list Z) : list Z := p.

Definition benchReceive1 :=
  receive1 benchTime benchTime benchOOB benchDecode benchMetadata benchValidate
    benchFilter benchCMAC 2 0 253 2.
Definition benchReceive :=
  receive benchTime benchTime benchOOB benchDecode benchMetadata benchValidate
    benchFilter benchCMAC 2 0 253 2.
Definition benchCheckAuth := checkAuth benchOOB benchCMAC 2 0 253 2.
Definition benchAnomaly := anomaly benchOOB benchDecode benchCMAC 2 0 253 2.
Definition benchEvaluate (V : Time -> Time -> Time -> Time -> option error) :=
  evaluate benchTime benchTime benchDecode benchMetadata V benchFilter.
Definition benchMeasure :=
  MeasureClockOffsetSCION benchTime benchTime benchIA benchHost benchIP
    benchOOB benchEncode benchDecode benchMetadata benchValidate benchFilter
    benchCMAC benchUDP 1 2 0 253 2 123 30041 (fun b => b).

Definition benchLocal : UDPAddr :=
  {| IA := 1; Host_IP := [10; 0; 0; 1]; Host_Port := 0 |}.
Definition benchRemote : UDPAddr :=
  {| IA := 2; Host_IP := [10; 0; 0; 2]; Host_Port := 123 |}.
Definition benchReference : string := "1-ff00:0:120,10.0.0.2:123".

(** A client in interleaved mode whose previous exchange with the bench
    server was sent at 0.9 s, answered at 0.95 s (server clock) and
    received at 0.91 s. *)
Definition benchClient : SCIONClient :=
  {| InterleavedMode := true; DRKeyFetcher := false; auth_opt := None;
     auth_mac := [];
     prev := {| prev_reference := benchReference; prev_cTxTime := 900000000;
                prev_cRxTime := 910000000; prev_sRxTime := 950000000 |} |}.

(** The call starts at 1 s with a deadline at 5 s; every call succeeds. *)
Definition benchExchange : exchangeEnv :=
  {| listenErr := None; ctxDeadline := Some 5000000000; setDeadlineErr := None;
     localPort := 40000; underlayNextHop := (netip.V4 [192; 168; 0; 1], 30042);
     now0 := 1000000000;
     setSrcAddrErr := None; setDstAddrErr := None; setPathErr := None;
     payloadSerializeErr := None; udpSerializeErr := None;
     hostHostKey := fun _ => Some [7; 7; 7; 7; 7; 7; 7; 7; 7; 7; 7; 7; 7; 7; 7; 7];
     e2eSerializeErr := None; scionSerializeErr := None;
     wireLen := 120; written := (120, None);
     txTimestamp := (1000000100, 0, None); nowTx := 1000000200 |}.

Definition benchScion : SCION :=
  {| SrcIA := 2; DstIA := 1; RawSrcAddr := [10; 0; 0; 2];
     RawDstAddr := [10; 0; 0; 1]; NextHdr := L4UDP; PathSet := true |}.

(** A response read at 1.02 s whose NTP payload is [payload]. *)
Definition benchDatagram (layers : list LayerType) (opts : list EndToEndOption)
  (payload : list Z) : datagram :=
  {| readErr := None; flags := 0; oob := [1020000000]; nowRx := 1020000500;
     decodeErr := None; decoded := layers; scion := benchScion;
     e2eOptions := opts; udpLength := 56; udpPayload := payload;
     buf := repeat 0 120; nowChk := 1020001000 |}.

Definition benchPlain : list LayerType := [LayerTypeSCION; LayerTypeSCIONUDP].
Definition benchWithE2E : list LayerType :=
  [LayerTypeSCION; LayerTypeEndToEndExtn; LayerTypeSCIONUDP].
Definition benchAuthenticator (data : list Z) : EndToEndOption :=
  {| OptType := 2; OptData := data; OptAlign := (4, 2); OptDataLen := 0;
     ActualLength := 0 |}.
Definition benchKey : list Z := [7; 7; 7; 7; 7; 7; 7; 7; 7; 7; 7; 7; 7; 7; 7; 7].
Definition benchRequest : Packet :=
  ntpRequest benchTime benchTime benchClient benchReference 1000000000.

(** The spec's interleaved scenario: the response echoes the previous
    client-receive time as origin, so the exchange is interleaved and is
    measured with (previous cTx, previous sRx, this sTx, previous cRx). *)
Example interleaved_scenario :
  fin (benchMeasure benchClient benchExchange benchLocal benchRemote
         [benchDatagram benchPlain [] [910000000; 1010000000; 1010000050]])
  = Done 75000025 (Float64.of_int 1000) None
      (Some {| interleaved := true; authenticated := false;
               t0 := 900000000; t1 := 950000000;
               t2 := 1010000050; t3 := 910000000 |}).
Proof. vm_compute. reflexivity. Qed.

Lemma interleaved_selection_witness :
  let d := benchDatagram benchPlain [] [910000000; 1010000000; 1010000050] in
  benchDecode (udpPayload d)
  = inl (with_timestamps 910000000 1010000000 1010000050 Packet_zero) /\
  forall c' off w lg,
    benchEvaluate benchValidate benchClient (Some 5000000000) d benchReference
      benchRequest 1000000100 1020000000 false
    = Finish c' (Done off w None (Some lg)) ->
    interleaved lg = true /\
    (t0 lg, t1 lg, t2 lg, t3 lg)
    = (900000000, 950000000, 1010000050, 910000000).
Proof.
  cbv zeta. split; [reflexivity|].
  intros c' off w lg H.
  destruct (interleaved_selection benchTime benchTime benchDecode benchMetadata
              benchValidate benchFilter benchClient (Some 5000000000)
              (benchDatagram benchPlain [] [910000000; 1010000000; 1010000050])
              benchReference benchRequest 1000000100 1020000000 false
              (with_timestamps 910000000 1010000000 1010000050 Packet_zero)
              eq_refl) as (_ & H2 & _).
  destruct (H2 c' off w lg H) as (Hi & Ht & _). split; assumption.
Defined.

Lemma request_timestamps_witness :
  exists req,
    sent (benchMeasure benchClient benchExchange benchLocal benchRemote []) = Some req /\
    OriginTime (wire_ntp req) = 950000000 /\
    ReceiveTime (wire_ntp req) = 910000000 /\
    TransmitTime (wire_ntp req) = 900000000.
Proof.
  eexists. split; [vm_compute; reflexivity|].
  refine (proj1 (request_timestamps benchTime benchTime benchIA benchHost benchIP
                   benchOOB benchEncode benchDecode benchMetadata benchValidate
                   benchFilter benchCMAC benchUDP 1 2 0 253 2 123 30041
                   (fun b => b) benchClient benchExchange benchLocal benchRemote
                   [] _ eq_refl) _).
  split; [reflexivity|]. split; [reflexivity|]. vm_compute. discriminate.
Defined.

(** The datagram [d] as it would come from the raw source address [src],
    and with the socket flags [f]. *)
Definition benchFrom (src : list Z) (d : datagram) : datagram :=
  {| readErr := readErr d; flags := flags d; oob := oob d; nowRx := nowRx d;
     decodeErr := decodeErr d; decoded := decoded d;
     scion := {| SrcIA := SrcIA (scion d); DstIA := DstIA (scion d);
                 RawSrcAddr := src; RawDstAddr := RawDstAddr (scion d);
                 NextHdr := NextHdr (scion d); PathSet := PathSet (scion d) |};
     e2eOptions := e2eOptions d; udpLength := udpLength d;
     udpPayload := udpPayload d; buf := buf d; nowChk := nowChk d |}.
Definition benchFlagged (f : Z) (d : datagram) : datagram :=
  {| readErr := readErr d; flags := f; oob := oob d; nowRx := nowRx d;
     decodeErr := decodeErr d; decoded := decoded d; scion := scion d;
     e2eOptions := e2eOptions d; udpLength := udpLength d;
     udpPayload := udpPayload d; buf := buf d; nowChk := nowChk d |}.

(** The bench exchange under a context without deadline. *)
Definition benchNoDeadline : exchangeEnv :=
  {| listenErr := None; ctxDeadline := None; setDeadlineErr := None;
     localPort := 40000; underlayNextHop := (netip.V4 [192; 168; 0; 1], 30042);
     now0 := 1000000000;
     setSrcAddrErr := None; setDstAddrErr := None; setPathErr := None;
     payloadSerializeErr := None; udpSerializeErr := None;
     hostHostKey := fun _ => Some benchKey;
     e2eSerializeErr := None; scionSerializeErr := None;
     wireLen := 120; written := (120, None);
     txTimestamp := (1000000100, 0, None); nowTx := 1000000200 |}.

(** A datagram of the remote's IA from another host (10.0.0.3), handled at
    1.02 s: it is skipped under the deadline at 5 s, and it returns
    [errUnexpectedPacket] at once when there is no deadline. *)
Lemma anomalies_keep_reading_witness :
  let d := benchFrom [10; 0; 0; 3]
             (benchDatagram benchPlain [] [910000000; 1010000000; 1010000050]) in
  benchAnomaly benchClient None benchLocal benchRemote benchRequest d
    (Surfaces errUnexpectedPacket) /\
  (exists c',
     benchReceive1 benchClient (Some 5000000000) None benchLocal benchRemote
       benchReference benchRequest 1000000100 d = Continue c') /\
  (exists c',
     benchReceive1 benchClient None None benchLocal benchRemote
       benchReference benchRequest 1000000100 d
     = Finish c' (Done 0 Float64.zero (Some errUnexpectedPacket) None)).
Proof.
  cbv zeta.
  assert (Ha : benchAnomaly benchClient None benchLocal benchRemote benchRequest
                 (benchFrom [10; 0; 0; 3]
                    (benchDatagram benchPlain []
                       [910000000; 1010000000; 1010000050]))
                 (Surfaces errUnexpectedPacket)).
  { apply WrongAddress.
    - repeat split.
    - left. right. split; [left; reflexivity|].
      split; [left; reflexivity | discriminate].
    - intros [_ H]. apply H. split; left; reflexivity.
    - intros [_ H]. apply H. split; left; reflexivity. }
  split; [exact Ha|]. split.
  - pose proof (anomalies_keep_reading benchTime benchTime benchOOB benchDecode
                  benchMetadata benchValidate benchFilter benchCMAC 2 0 253 2
                  benchClient (Some 5000000000) None benchLocal benchRemote
                  benchReference benchRequest 1000000100 _ [] _ Ha) as H.
    cbv beta iota zeta in H. destruct H as (Hb & _ & _).
    destruct (Hb eq_refl) as (c' & Hc & _). exists c'. exact Hc.
  - pose proof (anomalies_keep_reading benchTime benchTime benchOOB benchDecode
                  benchMetadata benchValidate benchFilter benchCMAC 2 0 253 2
                  benchClient None None benchLocal benchRemote
                  benchReference benchRequest 1000000100 _ [] _ Ha) as H.
    cbv beta iota zeta in H. destruct H as (_ & Hr & Hn).
    destruct (Hr (Hn eq_refl)) as (c' & Hc & _). exists c'. exact Hc.
Defined.

(** C5 (counterexample): the deadline is at 5 s and every datagram is
    handled at 1.02 s; the response alone is measured.  A datagram of the
    remote's IA whose raw source address has 8 bytes ends the exchange with
    a panic, although the deadline has not expired and the response is
    next; and under a context without deadline a datagram with unexpected
    flags ends the exchange with its error, the response unread. *)
Lemma anomalies_end_the_exchange_early :
  let response := benchDatagram benchPlain [] [910000000; 1010000000; 1010000050] in
  let stray := benchFrom [10; 0; 0; 2; 0; 0; 0; 0] response in
  let flagged := benchFlagged 1 response in
  measured (fin (benchMeasure benchClient benchExchange benchLocal benchRemote
                   [response])) = true /\
  beforeDeadline (ctxDeadline benchExchange) stray = true /\
  fin (benchMeasure benchClient benchExchange benchLocal benchRemote
         [stray; response])
  = Panicked "unexpected IP address byte slice" /\
  fin (benchMeasure benchClient benchNoDeadline benchLocal benchRemote
         [flagged; response])
  = Done 0 Float64.zero (Some errUnexpectedPacketFlags) None.
Proof. cbv zeta. repeat split; vm_compute; reflexivity. Qed.

(** A response whose server-transmit time lies before its server-receive
    time is measured all the same, although the bench validator rejects
    [t2 < t1]: it is never shown [t2]. *)
Example validation_misses_t2_before_t1 :
  let c := with_prev benchClient
             {| prev_reference := ""; prev_cTxTime := 0; prev_cRxTime := 0;
                prev_sRxTime := 0 |} in
  let d := benchDatagram benchPlain [] [900000000; 1010000000; 1005000000] in
  benchValidate 1000000100 1010000000 1005000000 1020000000
  = Some (errExternal "invalid timestamps") /\
  exists c' off w lg,
    benchEvaluate benchValidate c (Some 5000000000) d benchReference benchRequest
      1000000100 1020000000 false
    = Finish c' (Done off w None (Some lg)) /\ t2 lg = 1005000000.
Proof. cbv zeta. split; [reflexivity|]. do 4 eexists. split; reflexivity. Qed.

(** A response received before it was sent is rejected at once, although
    the deadline is far. *)
Lemma validation_ignores_t2_witness :
  let c := with_prev benchClient
             {| prev_reference := ""; prev_cTxTime := 0; prev_cRxTime := 0;
                prev_sRxTime := 0 |} in
  let d := benchDatagram benchPlain [] [900000000; 1010000000; 1005000000] in
  (benchDecode (udpPayload d)
   = inl (with_timestamps 900000000 1010000000 1005000000 Packet_zero) /\
   benchValidate 1000000100 1010000000 1010000000 990000000
   = Some (errExternal "invalid timestamps") /\
   beforeDeadline (Some 5000000000) d = true) /\
  benchEvaluate benchValidate c (Some 5000000000) d benchReference benchRequest
    1000000100 990000000 false
  = Finish c (Done 0 Float64.zero (Some (errExternal "invalid timestamps")) None).
Proof.
  cbv zeta. split; [repeat split|].
  apply (proj1 (validation_ignores_t2 benchTime benchTime benchDecode benchMetadata
                  benchFilter benchValidate benchValidate
                  (with_prev benchClient
                     {| prev_reference := ""; prev_cTxTime := 0; prev_cRxTime := 0;
                        prev_sRxTime := 0 |})
                  (Some 5000000000)
                  (benchDatagram benchPlain [] [900000000; 1010000000; 1005000000])
                  benchReference benchRequest 1000000100 990000000 false
                  (with_timestamps 900000000 1010000000 1005000000 Packet_zero)
                  eq_refl (or_intror eq_refl) eq_refl)).
  reflexivity.
Defined.

(** C7 (counterexample): a key was fetched and the response carries an
    end-to-end extension whose authenticator option has no data.  It lacks
    a matching authenticator, yet it is not accepted: the client panics. *)
Lemma malformed_authenticator_panics :
  let d := benchDatagram benchWithE2E [benchAuthenticator []]
             [910000000; 1010000000; 1010000050] in
  hasE2E d = true /\
  FindOption 2 (e2eOptions d) = Some (benchAuthenticator []) /\
  matchingAuthenticator 2 0 (benchAuthenticator []) = false /\
  benchReceive1 benchClient (Some 5000000000) (Some benchKey) benchLocal
    benchRemote benchReference benchRequest 1000000100 d
  = Finish benchClient (Panicked "unexpected authenticator option data").
Proof. cbv zeta. repeat split. Qed.

(** A response with the server's authenticator and a wrong MAC is dropped. *)
Lemma authentication_gate_witness :
  let d := benchDatagram benchWithE2E
             [benchAuthenticator ([0; 0; 0; 2; 0; 0; 0; 0; 0; 0; 0; 0] ++ repeat 8 16)]
             [910000000; 1010000000; 1010000050] in
  let c := with_auth benchClient None (repeat 0 16) in
  benchCheckAuth c (Some benchKey) d 1020000000
  = Returns (with_auth benchClient None (repeat 7 16), None) /\
  exists key o mac,
    FindOption 2 (e2eOptions d) = Some o /\
    matchingAuthenticator 2 0 o = true /\
    benchCMAC (responseMACInput key o d) = inl mac /\
    ConstantTimeCompare_ne0 (skipn PacketAuthMetadataLen (OptData o))
      (copy (auth_mac c) mac) = false.
Proof.
  cbv zeta. split; [reflexivity|].
  destruct (proj1 (proj2 (authentication_gate benchTime benchTime benchIA
              benchHost benchIP benchOOB benchEncode benchDecode benchMetadata
              benchValidate benchFilter benchCMAC benchUDP 1 2 0 253 2 123 30041
              (fun b => b) (with_auth benchClient None (repeat 0 16))
              (Some benchKey)
              (benchDatagram benchWithE2E
                 [benchAuthenticator
                    ([0; 0; 0; 2; 0; 0; 0; 0; 0; 0; 0; 0] ++ repeat 8 16)]
                 [910000000; 1010000000; 1010000050])
              1020000000))
              _ None eq_refl (or_introl eq_refl))
    as (key & o & mac & _ & _ & Hf & Hm & Hc & Hv).
  exists key, o, mac. repeat split; try assumption. apply Hv. reflexivity.
Defined.


(** *** The bench, continued *)

Definition benchWith (written' : Z * option error) (now' : Time)
  (hop : netip.AddrPort) (deadline : option Time) : exchangeEnv :=
  {| listenErr := None; ctxDeadline := deadline; setDeadlineErr := None;
     localPort := 40000; underlayNextHop := hop; now0 := now';
     setSrcAddrErr := None; setDstAddrErr := None; setPathErr := None;
     payloadSerializeErr := None; udpSerializeErr := None;
     hostHostKey := fun _ => Some benchKey;
     e2eSerializeErr := None; scionSerializeErr := None;
     wireLen := 120; written := written';
     txTimestamp := (now' + 100, 0, None); nowTx := now' + 200 |}.

Definition benchAuthClient : SCIONClient :=
  {| InterleavedMode := true; DRKeyFetcher := true; auth_opt := None;
     auth_mac := []; prev := prev benchClient |}.

Definition benchMapped (ip : list Z) : list Z := netip.v4InV6Prefix ++ ip.

(** A response with the server's SPI and algorithm and the given MAC. *)
Definition benchSigned (mac : list Z) : datagram :=
  benchDatagram benchWithE2E
    [benchAuthenticator ([0; 0; 0; 2; 0; 0; 0; 0; 0; 0; 0; 0] ++ mac)]
    [910000000; 1010000000; 1010000050].

Lemma short_write_witness :
  let x := benchWith (100, None) 1000000000 (netip.V4 [192; 168; 0; 1], 30042)
             (Some 5000000000) in
  let r := benchMeasure benchClient x benchLocal benchRemote
             [benchDatagram benchPlain [] [910000000; 1010000000; 1010000050]] in
  (exists req, sent r = Some req) /\ snd (written x) = None /\
  fst (written x) <> wireLen x /\
  fin r = Done 0 Float64.zero None None /\ prev (client r) = prev benchClient.
Proof.
  cbv zeta. split; [eexists; vm_compute; reflexivity|].
  split; [reflexivity|]. split; [discriminate|].
  eapply (short_write_returns_no_error benchTime benchTime benchIA benchHost
            benchIP benchOOB benchEncode benchDecode benchMetadata benchValidate
            benchFilter benchCMAC benchUDP 1 2 0 253 2 123 30041 (fun b => b)
            benchClient
            (benchWith (100, None) 1000000000 (netip.V4 [192; 168; 0; 1], 30042)
               (Some 5000000000))
            benchLocal benchRemote
            [benchDatagram benchPlain [] [910000000; 1010000000; 1010000050]]);
    [vm_compute; reflexivity | reflexivity | discriminate].
Defined.

(** An exchange still waiting for its response has not touched the memory. *)
Lemma previous_exchange_memory_witness :
  let r := benchMeasure benchClient benchExchange benchLocal benchRemote [] in
  fin r = Reading /\ prev (client r) = prev benchClient.
Proof.
  cbv zeta. split; [reflexivity|].
  exact (previous_exchange_memory_is_kept benchTime benchTime benchIA benchHost
           benchIP benchOOB benchEncode benchDecode benchMetadata benchValidate
           benchFilter benchCMAC benchUDP 1 2 0 253 2 123 30041 (fun b => b)
           benchClient benchExchange benchLocal benchRemote []
           (or_introl eq_refl)).
Defined.

Lemma without_deadline_witness :
  let c := with_auth benchClient None (repeat 0 16) in
  let c' := with_auth benchClient None (repeat 7 16) in
  benchReceive1 c None (Some benchKey) benchLocal benchRemote benchReference
    benchRequest 1000000100 (benchSigned (repeat 8 16)) = Continue c' /\
  benchCheckAuth c (Some benchKey) (benchSigned (repeat 8 16)) 1020000000
  = Returns (c', None).
Proof.
  cbv zeta. split; [reflexivity|].
  destruct (without_deadline_only_failed_authentication_retries benchTime
              benchTime benchOOB benchDecode benchMetadata benchValidate
              benchFilter benchCMAC 2 0 253 2
              (with_auth benchClient None (repeat 0 16)) (Some benchKey)
              benchLocal benchRemote benchReference benchRequest 1000000100
              (benchSigned (repeat 8 16))
              (with_auth benchClient None (repeat 7 16)) eq_refl)
    as (_ & key & _ & H).
  exact H.
Defined.

(** A response with the right MAC is measured as authenticated. *)
Lemma measurement_provenance_witness :
  let c := with_auth benchClient None (repeat 0 16) in
  exists c' off w lg,
    benchReceive1 c (Some 5000000000) (Some benchKey) benchLocal benchRemote
      benchReference benchRequest 1000000100 (benchSigned (repeat 7 16))
    = Finish c' (Done off w None (Some lg)) /\
    authenticated lg = true /\
    compareIPs (RawSrcAddr (scion (benchSigned (repeat 7 16))))
      (Host_IP benchRemote) = Returns 0.
Proof.
  cbv zeta. do 4 eexists. split; [vm_compute; reflexivity|].
  split; [reflexivity|].
  exact (proj1 (proj2 (proj2
           (measurement_provenance benchTime benchTime benchOOB benchDecode
              benchMetadata benchValidate benchFilter benchCMAC 2 0 253 2
              (with_auth benchClient None (repeat 0 16)) (Some 5000000000)
              (Some benchKey) benchLocal benchRemote benchReference benchRequest
              1000000100 (benchSigned (repeat 7 16)) _ _ _ _ eq_refl)))).
Defined.

(** The spec's upgrade scenario: a basic exchange at 1 s, answered with
    origin equal to the request's transmit time, then a second call at
    1.5 s: its request carries the first exchange's timestamps. *)
Lemma interleaved_upgrade_witness :
  let c := with_prev benchClient
             {| prev_reference := ""; prev_cTxTime := 0; prev_cRxTime := 0;
                prev_sRxTime := 0 |} in
  let x1 := benchExchange in
  let x2 := benchWith (120, None) 1500000000
              (netip.V4 [192; 168; 0; 1], 30042) (Some 6000000000) in
  let r1 := benchMeasure c x1 benchLocal benchRemote
              [benchDatagram benchPlain [] [1000000000; 1010000000; 1010000050]] in
  (InterleavedMode c = true /\ measured (fin r1) = true /\
   now0 x2 - benchTime (benchTime (txTimeOf x1)) <= Second) /\
  exists req2,
    sent (benchMeasure (client r1) x2 benchLocal benchRemote []) = Some req2 /\
    OriginTime (wire_ntp req2) = 1010000000 /\
    ReceiveTime (wire_ntp req2) = 1020000000 /\
    TransmitTime (wire_ntp req2) = 1000000100.
Proof.
  cbv zeta. split; [repeat split; vm_compute; discriminate|].
  eexists. split; [vm_compute; reflexivity|].
  refine (interleaved_upgrade benchTime benchTime benchIA benchHost benchIP
            benchOOB benchEncode benchDecode benchMetadata benchValidate
            benchFilter benchCMAC benchUDP 1 2 0 253 2 123 30041 (fun b => b)
            (with_prev benchClient
               {| prev_reference := ""; prev_cTxTime := 0; prev_cRxTime := 0;
                  prev_sRxTime := 0 |})
            benchExchange
            (benchWith (120, None) 1500000000 (netip.V4 [192; 168; 0; 1], 30042)
               (Some 6000000000))
            benchLocal benchRemote
            [benchDatagram benchPlain [] [1000000000; 1010000000; 1010000050]]
            [] _ eq_refl eq_refl eq_refl _).
  vm_compute. discriminate.
Defined.

Lemma compareIPs_folds_witness :
  (validLen [10; 0; 0; 2] /\ validLen (benchMapped [10; 0; 0; 2])) /\
  unmapped [10; 0; 0; 2] = unmapped (benchMapped [10; 0; 0; 2]) /\
  compareIPs [10; 0; 0; 2] (benchMapped [10; 0; 0; 2]) = Returns 0.
Proof.
  split; [split; [left | right]; reflexivity|]. split; [reflexivity|].
  apply (proj2 (compareIPs_folds_mapped_addresses [10; 0; 0; 2]
                  (benchMapped [10; 0; 0; 2])
                  (or_introl eq_refl) (or_intror eq_refl))).
  reflexivity.
Defined.

Lemma compareIPs_panics_witness :
  ~ (validLen [10; 0; 0] /\ validLen [10; 0; 0; 2]) /\
  compareIPs [10; 0; 0] [10; 0; 0; 2] = Panics "unexpected IP address byte slice".
Proof.
  assert (H : ~ (validLen [10; 0; 0] /\ validLen [10; 0; 0; 2])).
  { intros [[H|H] _]; discriminate. }
  split; [exact H|].
  exact (compareIPs_panics_on_other_lengths [10; 0; 0] [10; 0; 0; 2] H).
Defined.

Lemma compareIPs_antisymmetric_witness :
  compareIPs [10; 0; 0; 1] [10; 0; 0; 2] = Returns (-1) /\
  compareIPs [10; 0; 0; 2] [10; 0; 0; 1] = Returns (- -1).
Proof.
  split; [reflexivity|].
  exact (compareIPs_antisymmetric [10; 0; 0; 1] [10; 0; 0; 2] (-1) eq_refl).
Defined.

Lemma spi_round_trip_witness :
  0 <= 16909060 < 2 ^ 32 /\
  spi_bytes 16909060 = [1; 2; 3; 4] /\
  spi_of (spi_bytes 16909060 ++ [0; 9; 9]) = 16909060.
Proof.
  split; [split; [discriminate | reflexivity]|]. split; [reflexivity|].
  apply spi_round_trip. split; [discriminate | reflexivity].
Defined.

Lemma request_authenticator_layout_witness :
  exists c1,
    authenticateRequest benchIP benchCMAC 1 0 2 123 (allocAuth benchAuthClient)
      benchExchange benchLocal benchRemote 1000000000 benchScion [5; 6]
    = Returns (c1, Some benchKey,
               Some (benchAuthenticator
                       ([0; 0; 0; 1; 0; 0; 0; 0; 0; 0; 0; 0] ++ repeat 7 16)),
               with_NextHdr End2EndClass benchScion).
Proof.
  exact (request_authenticator_layout benchIP benchCMAC 1 0 2 123
           benchAuthClient benchExchange benchLocal benchRemote 1000000000
           benchScion [5; 6] benchKey (repeat 7 16)
           eq_refl (or_introl eq_refl) eq_refl eq_refl eq_refl eq_refl).
Defined.

Lemma next_hop_inside_the_AS_witness :
  let x := benchWith (120, None) 1000000000 netip.AddrPort_zero None in
  let remote := {| IA := 1; Host_IP := benchMapped [10; 0; 0; 2];
                   Host_Port := 123 |} in
  nextHopOf 30041 x benchLocal remote
  = Returns (netip.V4 [10; 0; 0; 2], 30041).
Proof.
  cbv zeta.
  exact (next_hop_inside_the_AS 30041
           (benchWith (120, None) 1000000000 netip.AddrPort_zero None)
           benchLocal
           {| IA := 1; Host_IP := benchMapped [10; 0; 0; 2]; Host_Port := 123 |}
           eq_refl eq_refl (or_intror eq_refl)).
Defined.

Lemma next_hop_from_the_path_witness :
  let x := benchWith (120, None) 1000000000
             (netip.V6 (benchMapped [192; 168; 0; 1]), 30042) None in
  nextHopOf 30041 x benchLocal benchRemote
  = Returns (netip.V4 [192; 168; 0; 1], 30042).
Proof.
  cbv zeta.
  refine (next_hop_from_the_path 30041
            (benchWith (120, None) 1000000000
               (netip.V6 (benchMapped [192; 168; 0; 1]), 30042) None)
            benchLocal benchRemote _).
  discriminate.
Defined.

Lemma unreadable_datagrams_witness :
  let junk := {| readErr := None; flags := 1; oob := []; nowRx := 1020000500;
                 decodeErr := None; decoded := []; scion := benchScion;
                 e2eOptions := []; udpLength := 0; udpPayload := []; buf := [];
                 nowChk := 1020001000 |} in
  benchReceive benchClient (Some 5000000000) None benchLocal benchRemote
    benchReference benchRequest 1000000100 [junk; junk; junk]
  = (benchClient, Reading).
Proof.
  cbv zeta.
  refine (proj1 (unreadable_datagrams_are_skipped benchTime benchTime benchOOB
                   benchDecode benchMetadata benchValidate benchFilter benchCMAC
                   2 0 253 2 benchClient (Some 5000000000) None benchLocal
                   benchRemote benchReference benchRequest 1000000100 _ 
                   (benchDatagram benchPlain [] []) _)).
  repeat constructor; right; left; discriminate.
Defined.

End driver.
